(** * rapid_chain coordinator: committee assignment and telemetry aggregation

    A shallow embedding of [src/coordinator.go].  Go's [int] and [uint] are
    modelled as [Z]: every quantity of the bootstrap is bounded by the number
    of nodes [n], the length of a slice allocated with [make], so no 64-bit
    wrap-around is reachable.  Slices are lists read with [!!] and written
    with [<[ _ := _ ]>]; an access out of range is a run-time panic, as are
    integer divisions by zero.  [log.Fatal] and the fatal helpers end the
    process. *)

From Stdlib Require Import ZArith Lia DecimalString.
From stdpp Require Import base tactics option list gmap strings fin_maps.

Local Open Scope Z_scope.

(** ** Outcomes of a Go computation *)

Inductive Outcome (A : Type) : Type :=
| Ret (a : A)                 (* normal completion *)
| Panic (why : string)        (* run-time panic: index out of range, division by zero *)
| Fatal (why : string)        (* log.Fatal: the process exits *)
| Unspecified (why : string). (* the Go specification leaves the result to the implementation *)
Arguments Ret {A} a.
Arguments Panic {A} why.
Arguments Fatal {A} why.
Arguments Unspecified {A} why.

#[global] Instance Outcome_ret : MRet Outcome := fun _ a => Ret a.
#[global] Instance Outcome_bind : MBind Outcome := fun _ _ k o =>
  match o with
  | Ret a => k a
  | Panic w => Panic w
  | Fatal w => Fatal w
  | Unspecified w => Unspecified w
  end.

#[global] Instance Outcome_fmap : FMap Outcome := fun _ _ f o =>
  match o with
  | Ret a => Ret (f a)
  | Panic w => Panic w
  | Fatal w => Fatal w
  | Unspecified w => Unspecified w
  end.

(** Go's [/] and [%] on integers truncate towards zero and panic on a zero
    divisor. *)
Definition go_div (a b : Z) : Outcome Z :=
  if b =? 0 then Panic "integer divide by zero" else Ret (Z.quot a b).

Definition go_rem (a b : Z) : Outcome Z :=
  if b =? 0 then Panic "integer divide by zero" else Ret (Z.rem a b).

(** [s[i]] as an r-value and as an l-value. *)
Definition index {A} (s : list A) (i : Z) : Outcome A :=
  if i <? 0 then Panic "index out of range"
  else match s !! Z.to_nat i with
       | Some x => Ret x
       | None => Panic "index out of range"
       end.

Definition store {A} (s : list A) (i : Z) (x : A) : Outcome (list A) :=
  if (0 <=? i) && (i <? Z.of_nat (length s))
  then Ret (<[Z.to_nat i := x]> s)
  else Panic "index out of range".

(** ** Data model *)

Abbreviation Byte32 := (list Byte.byte).   (* [32]byte *)
Abbreviation PubKey := (list Byte.byte).   (* the key's Bytes *)

#[global] Instance byte_eq_dec : EqDecision Byte.byte := Byte.byte_eq_dec.

(** [NodeAllInfo]: the fields the coordinator reads and writes. *)
Record NodeAllInfo : Type := mkNode {
  Pub : PubKey;
  IP : string;
  CommitteeID : Byte32;
  IsHonest : bool
}.

(** The zero value that [make([]NodeAllInfo, n)] fills the slice with. *)
Definition zeroNode : NodeAllInfo := mkNode [] "" [] false.

Record committeeInfo : Type := mkCommitteeInfo {
  ci_id : Byte32;
  ci_npm : Z;   (* uint *)
  ci_f : Z      (* int *)
}.

Definition zeroCommitteeInfo : committeeInfo := mkCommitteeInfo [] 0 0.

(** ** The assignment pass (coordinator.go, lines 311-348) *)

(** One iteration of the loop over [i]: the state is the committee cursor [c]
    and the slice [nodeInfos]. *)
Definition assign_body (n npm rest : Z) (committees : list Byte32)
    (i : Z) (st : Z * list NodeAllInfo) : Outcome (Z * list NodeAllInfo) :=
  let '(c, nodeInfos) := st in
  let t_npm := npm in
  '(c, t_npm) ←
    (if negb (i =? 0) then
       r ← go_rem i npm;
       if r =? 0 then
         if negb (i =? n - rest) then Ret (c + 1, t_npm)
         else Ret (c, t_npm + rest)
       else Ret (c, t_npm)
     else Ret (c, t_npm));
  cid ← index committees c;
  nd ← index nodeInfos i;
  let c_div := if Z.rem c 2 =? 0 then 3 else 1 in
  let f := Z.quot t_npm (Z.quot 6 c_div) in
  let f := if Z.rem t_npm (Z.quot 6 c_div) =? 0 then f - 1 else f in
  let honest := if (t_npm =? 0) || (Z.rem i t_npm <? f) then false else true in
  nodeInfos ← store nodeInfos i (mkNode (Pub nd) (IP nd) cid honest);
  Ret (c, nodeInfos).

(** [for i := 0; i < n; i++]: [k] iterations are left, starting at [i]. *)
Fixpoint assign_loop (n npm rest : Z) (committees : list Byte32)
    (k : nat) (i : Z) (st : Z * list NodeAllInfo) : Outcome (Z * list NodeAllInfo) :=
  match k with
  | O => Ret st
  | S k' =>
      st' ← assign_body n npm rest committees i st;
      assign_loop n npm rest committees k' (i + 1) st'
  end.

Definition assign (n m : Z) (committees : list Byte32)
    (nodeInfos : list NodeAllInfo) : Outcome (list NodeAllInfo) :=
  npm ← go_div n m;
  rest ← go_rem n m;
  st ← assign_loop n npm rest committees (Z.to_nat n) 0 (0, nodeInfos);
  Ret (snd st).

(** ** The verification pass (coordinator.go, lines 350-387) *)

(** The flags the coordinator reads ([FlagArgs] is declared outside this
    file; all four are [uint]). *)
Record FlagArgs : Type := mkFlagArgs {
  flag_n : Z;
  flag_m : Z;
  flag_totalF : Z;
  flag_committeeF : Z
}.

(** One iteration of the recount: the state is [lastCommittee], the cursor
    [iCommittee] and the slice [committeeInfos]. *)
Definition recount_body (nodeInfos : list NodeAllInfo) (i : Z)
    (st : Byte32 * Z * list committeeInfo) : Outcome (Byte32 * Z * list committeeInfo) :=
  let '(lastCommittee, iCommittee, committeeInfos) := st in
  nd ← index nodeInfos i;
  let '(lastCommittee, iCommittee) :=
    if decide (CommitteeID nd ≠ lastCommittee)
    then (CommitteeID nd, iCommittee + 1)
    else (lastCommittee, iCommittee) in
  ci ← index committeeInfos iCommittee;
  let f := if negb (IsHonest nd) then ci_f ci + 1 else ci_f ci in
  committeeInfos ←
    store committeeInfos iCommittee (mkCommitteeInfo (CommitteeID nd) (ci_npm ci + 1) f);
  Ret (lastCommittee, iCommittee, committeeInfos).

Fixpoint recount_loop (nodeInfos : list NodeAllInfo) (k : nat) (i : Z)
    (st : Byte32 * Z * list committeeInfo) : Outcome (Byte32 * Z * list committeeInfo) :=
  match k with
  | O => Ret st
  | S k' =>
      st' ← recount_body nodeInfos i st;
      recount_loop nodeInfos k' (i + 1) st'
  end.

Definition recount (n m : Z) (committees : list Byte32)
    (nodeInfos : list NodeAllInfo) : Outcome (list committeeInfo) :=
  lastCommittee ← index committees 0;
  let committeeInfos := replicate (Z.to_nat m) zeroCommitteeInfo in
  st ← recount_loop nodeInfos (Z.to_nat n) 0 (lastCommittee, 0, committeeInfos);
  Ret (snd st).

(** [int(math.Ceil(float64(a) / float64(b)))] for the non-negative [a], [b]
    of the pass.  Committee sizes are far below 2^53, where the float64
    quotient and its ceiling are exact; for [b = 0] the quotient is infinite
    or NaN and its conversion to [int] is implementation-dependent. *)
Definition ceil_quotient (a b : Z) : Outcome Z :=
  if b =? 0 then Unspecified "conversion of a non-finite float64 to int"
  else Ret ((a + b - 1) / b).

(** The invariant checks over [committeeInfos] (lines 372-383); the result
    is [checkTotalF]. *)
Fixpoint check_loop (npm rest committeeF : Z) (committeeInfos : list committeeInfo)
    (checkTotalF : Z) : Outcome Z :=
  match committeeInfos with
  | [] => Ret checkTotalF
  | ci :: committeeInfos' =>
      if negb (ci_npm ci =? npm) && negb (ci_npm ci =? npm + rest)
      then Fatal "Number of nodes in committee not right"
      else
        bound ← ceil_quotient (ci_npm ci) committeeF;
        if bound <=? ci_f ci
        then Fatal "Comitte has too many adversaries"
        else check_loop npm rest committeeF committeeInfos' (checkTotalF + ci_f ci)
  end.

(** The aggregate check (lines 385-387).  [&&] evaluates its right operand
    only when [n/m != 1]; the operands of [<] are evaluated left to right. *)
Definition check_total (flagArgs : FlagArgs) (checkTotalF : Z) : Outcome unit :=
  q ← go_div (flag_n flagArgs) (flag_m flagArgs);
  if negb (q =? 1) then
    lhs ← go_div (flag_n flagArgs) checkTotalF;
    rhs ← go_div 1 (flag_totalF flagArgs);
    if lhs <? rhs
    then Fatal "There was too many adversaries in total"
    else Ret tt
  else Ret tt.

Definition verify (flagArgs : FlagArgs) (committees : list Byte32)
    (nodeInfos : list NodeAllInfo) : Outcome (list committeeInfo * Z) :=
  npm ← go_div (flag_n flagArgs) (flag_m flagArgs);
  rest ← go_rem (flag_n flagArgs) (flag_m flagArgs);
  committeeInfos ← recount (flag_n flagArgs) (flag_m flagArgs) committees nodeInfos;
  checkTotalF ← check_loop npm rest (flag_committeeF flagArgs) committeeInfos 0;
  _ ← check_total flagArgs checkTotalF;
  Ret (committeeInfos, checkTotalF).

(** Assignment followed by verification, from the shuffled [nodeInfos] and
    the committee ids drawn for this run. *)
Definition assign_and_verify (flagArgs : FlagArgs) (committees : list Byte32)
    (nodeInfos : list NodeAllInfo)
    : Outcome (list NodeAllInfo * list committeeInfo * Z) :=
  nodeInfos ← assign (flag_n flagArgs) (flag_m flagArgs) committees nodeInfos;
  '(committeeInfos, checkTotalF) ← verify flagArgs committees nodeInfos;
  Ret (nodeInfos, committeeInfos, checkTotalF).

(** ** The bootstrap, from the registry channel to the verified assignment
    (coordinator.go, lines 290-387) *)

Section Bootstrap.
(** Go's [math/rand] global generator, kept abstract: the state a call to
    [rand.Seed] installs, and the draws used by [rand.Shuffle] and
    [rand.Intn].  Each draw returns the value and the next state. *)
Variable Source : Type.
Variable seedSource : Z → Source.
Variable int31n : Source → Z → Z * Source.
Variable Int63n : Source → Z → Z * Source.
Variable Intn : Source → Z → Z * Source.

(** Declared outside this file: the bound of the committee-id draw and the
    digest of the drawn number. *)
Variable maxId : Z.
Variable getBytes : Z → list Byte.byte.
Variable hash : list Byte.byte → Byte32.

(** [for elem := range chanToCoordinator]: the pairs pushed by the
    handshake handlers are copied into [nodeInfos] in arrival order. *)
Fixpoint fill (registered : list (PubKey * string)) (i : Z)
    (nodeInfos : list NodeAllInfo) : Outcome (list NodeAllInfo) :=
  match registered with
  | [] => Ret nodeInfos
  | elem :: registered' =>
      nd ← index nodeInfos i;
      nodeInfos ← store nodeInfos i (mkNode (fst elem) (snd elem) (CommitteeID nd) (IsHonest nd));
      fill registered' (i + 1) nodeInfos
  end.

(** [nodeInfos[i], nodeInfos[j] = nodeInfos[j], nodeInfos[i]] *)
Definition swap (nodeInfos : list NodeAllInfo) (i j : Z) : Outcome (list NodeAllInfo) :=
  xj ← index nodeInfos j;
  xi ← index nodeInfos i;
  nodeInfos ← store nodeInfos i xj;
  store nodeInfos j xi.

(** [rand.Shuffle]: Fisher-Yates from the last index down to 1; the draw
    is [Int63n] above index 2^31-2 and [int31n] below. *)
Fixpoint Shuffle_loop (i : nat) (g : Source) (nodeInfos : list NodeAllInfo)
    : Outcome (Source * list NodeAllInfo) :=
  match i with
  | O => Ret (g, nodeInfos)
  | S i' =>
      let '(j, g) :=
        if 2 ^ 31 - 2 <? Z.of_nat i
        then Int63n g (Z.of_nat i + 1)
        else int31n g (Z.of_nat i + 1) in
      nodeInfos ← swap nodeInfos (Z.of_nat i) j;
      Shuffle_loop i' g nodeInfos
  end.

Definition Shuffle (g : Source) (nodeInfos : list NodeAllInfo)
    : Outcome (Source * list NodeAllInfo) :=
  Shuffle_loop (length nodeInfos - 1) g nodeInfos.

(** [rand.Seed(seed)] re-initialises the generator: the state it leaves
    depends on [seed] alone, not on the state [g] it replaces. *)
Definition rand_Seed (seed : Z) (g : Source) : Source := seedSource seed.

(** [rand.Intn(n)] panics unless [n > 0]. *)
Definition rand_Intn (g : Source) (n : Z) : Outcome (Z * Source) :=
  if n <=? 0 then Panic "invalid argument to Intn" else Ret (Intn g n).

(** [committees[i] = hash(getBytes(rand.Intn(maxId)))] for [i < m]. *)
Fixpoint draw_committees (k : nat) (g : Source) : Outcome (Source * list Byte32) :=
  match k with
  | O => Ret (g, [])
  | S k' =>
      '(v, g) ← rand_Intn g maxId;
      '(g, committees) ← draw_committees k' g;
      Ret (g, hash (getBytes v) :: committees)
  end.

(** The coordinator up to the end of the verification pass.  [g] is the
    state of the global generator when the coordinator starts (whatever
    [rand.Seed(1337)] of [launchCoordinator] and later draws left), [now]
    the reading of [time.Now().UnixNano()] at line 300. *)
Definition coordinator (g : Source) (now : Z) (registered : list (PubKey * string))
    (flagArgs : FlagArgs) : Outcome (list NodeAllInfo * list committeeInfo * Z) :=
  let nodeInfos := replicate (Z.to_nat (flag_n flagArgs)) zeroNode in
  nodeInfos ← fill registered 0 nodeInfos;
  let g := rand_Seed now g in
  '(g, nodeInfos) ← Shuffle g nodeInfos;
  '(g, committees) ← draw_committees (Z.to_nat (flag_m flagArgs)) g;
  assign_and_verify flagArgs committees nodeInfos.


(** One run of the bootstrap: the state of the global generator when the
    coordinator starts, the seed installed at line 300, the pairs read from
    the registry channel and the flags. *)
Record BootstrapRun : Type := mkRun {
  run_generator : Source;
  run_seed : Z;
  run_registered : list (PubKey * string);
  run_flags : FlagArgs
}.

Definition run_outcome (r : BootstrapRun)
    : Outcome (list NodeAllInfo * list committeeInfo * Z) :=
  coordinator (run_generator r) (run_seed r) (run_registered r) (run_flags r).

End Bootstrap.

Arguments mkRun {Source} run_generator run_seed run_registered run_flags.
Arguments run_generator {Source} b.
Arguments run_seed {Source} b.
Arguments run_registered {Source} b.
Arguments run_flags {Source} b.

(** The keys of the nodes in slice order, that is, the shuffle. *)
Definition shuffled_keys (r : list NodeAllInfo * list committeeInfo * Z) : list PubKey :=
  Pub <$> r.1.1.


(** ** Telemetry: the trackers and the debug/stats handler
    (coordinator.go, lines 33-143 and 426-574) *)

(** A handler runs against the coordinator's shared state; it returns, or
    it halts and leaves the state as it was at that point. *)
Inductive Halt : Type :=
| HaltFatal (why : string)    (* errFatal, notOkErr *)
| HaltPanic (why : string)    (* run-time panic *)
| HaltBlocked.                (* Lock on a mutex that is never released *)

Inductive Run (S A : Type) : Type :=
| Done (a : A) (s : S)
| Halted (h : Halt) (s : S).
Arguments Done {S A} a s.
Arguments Halted {S A} h s.

Definition Act (S A : Type) : Type := S → Run S A.

#[global] Instance Act_ret {S} : MRet (Act S) := fun _ a s => Done a s.
#[global] Instance Act_bind {S} : MBind (Act S) := fun _ _ k m s =>
  match m s with
  | Done a s' => k a s'
  | Halted h s' => Halted h s'
  end.

Definition get_state {S} : Act S S := fun s => Done s s.
Definition put_state {S} (s : S) : Act S unit := fun _ => Done tt s.
Definition panic {S A} (why : string) : Act S A := fun s => Halted (HaltPanic why) s.

(** Modelled from the spec: [errFatal] is defined outside this file; the
    spec's error design has one class of error, fatal, which terminates the
    process. *)
Definition errFatal {S A} (why : string) : Act S A := fun s => Halted (HaltFatal why) s.

(** Modelled from the spec: [notOkErr] is defined outside this file; a failed
    type assertion on the payload is fatal. *)
Definition notOkErr {S} (ok : bool) (why : string) : Act S unit :=
  if ok then mret tt else errFatal why.

(** [time.Time] as the number of nanoseconds since the zero Time
    (January 1, year 1, 00:00:00 UTC). *)
Abbreviation Time := Z.
Definition IsZero (t : Time) : bool := t =? 0.
Definition Unix (t : Time) : Z := t / 1000000000 - 62135596800.

(** [strconv.FormatInt(x, 10)] *)
Definition FormatInt (x : Z) : string := DecimalString.NilZero.string_of_int (Z.to_int x).

Definition newline : string := String (Ascii.ascii_of_nat 10) "".

#[global] Instance byte_countable : Countable Byte.byte :=
  inj_countable' Byte.to_N (fun n => default Byte.x00 (Byte.of_N n))
    (fun b => @eq_ind_r _ (Some b) (fun o => default Byte.x00 o = b) eq_refl _ (Byte.of_to_N b)).

(** *** Route-tx tracker *)

Record routetxresults : Type := mkRoute {
  rt_start : Time;
  rt_end : Time;
  rt_committees : option (gmap Byte32 Time);   (* [None] is the nil map *)
  rt_mux : bool                                (* [true] while the mutex is held *)
}.

(** [new(routetxresults)] *)
Definition newRoute : routetxresults := mkRoute 0 0 None false.

Definition rt_lock : Act routetxresults unit := fun r =>
  if rt_mux r then Halted HaltBlocked r
  else Done tt (mkRoute (rt_start r) (rt_end r) (rt_committees r) true).

Definition rt_unlock : Act routetxresults unit := fun r =>
  Done tt (mkRoute (rt_start r) (rt_end r) (rt_committees r) false).

(** [defer r.mux.Unlock()] around a method body. *)
Definition rt_locked {A} (body : Act routetxresults A) : Act routetxresults A :=
  _ ← rt_lock; a ← body; _ ← rt_unlock; mret a.

Definition routetxresults_init : Act routetxresults unit :=
  rt_locked (
    r ← get_state;
    match rt_committees r with
    | None => put_state (mkRoute (rt_start r) (rt_end r) (Some ∅) (rt_mux r))
    | Some _ => mret tt
    end).

(** [r.committees[cId] = tim] *)
Definition rt_store (cId : Byte32) (tim : Time) : Act routetxresults unit :=
  r ← get_state;
  match rt_committees r with
  | None => panic "assignment to entry in nil map"
  | Some cs => put_state (mkRoute (rt_start r) (rt_end r) (Some (<[cId := tim]> cs)) (rt_mux r))
  end.

(** [add]: on a nil map the method calls [init] while it still holds the
    mutex, and [init] locks it again. *)
Definition routetxresults_add (cId : Byte32) (tim : Time) : Act routetxresults bool :=
  rt_locked (
    r ← get_state;
    known ←
      match rt_committees r with
      | None => _ ← routetxresults_init; mret false
      | Some cs => mret (bool_decide (is_Some (cs !! cId)))
      end;
    if known : bool then mret false
    else _ ← rt_store cId tim; mret true).

Definition addStart (tim : Time) : Act routetxresults bool :=
  rt_locked (
    r ← get_state;
    if IsZero (rt_start r)
    then _ ← put_state (mkRoute tim (rt_end r) (rt_committees r) (rt_mux r)); mret true
    else mret false).

Definition addEnd (tim : Time) : Act routetxresults bool :=
  rt_locked (
    r ← get_state;
    if IsZero (rt_end r)
    then _ ← put_state (mkRoute (rt_start r) tim (rt_committees r) (rt_mux r)); mret true
    else mret false).

(** *** IDA-gossip tracker *)

Record IDAGossipResults : Type := mkIDA {
  ida_start : Time;
  ida_reconstructed : list Time;
  ida_mux : bool
}.

Definition newIDA : IDAGossipResults := mkIDA 0 [] false.

Definition ida_lock : Act IDAGossipResults unit := fun r =>
  if ida_mux r then Halted HaltBlocked r
  else Done tt (mkIDA (ida_start r) (ida_reconstructed r) true).

Definition ida_unlock : Act IDAGossipResults unit := fun r =>
  Done tt (mkIDA (ida_start r) (ida_reconstructed r) false).

Definition addReconstructed (tim : Time) : Act IDAGossipResults bool :=
  _ ← ida_lock;
  r ← get_state;
  ok ←
    (if (length (ida_reconstructed r) =? 0)%nat
     then _ ← put_state (mkIDA (ida_start r) [tim] (ida_mux r)); mret true
     else _ ← put_state (mkIDA (ida_start r) (ida_reconstructed r ++ [tim]) (ida_mux r));
          mret false);
  _ ← ida_unlock;
  mret ok.

(** *** The coordinator's shared state and the handler *)

Record ByteArrayAndTimestamp : Type := mkBAT {
  B : list Byte.byte;
  T : Time
}.

Section Handler.
(** Declared outside this file. *)
Variable FinalBlock : Type.
Variable toByte32 : list Byte.byte → Byte32.
Variable bytes32ToString : Byte32 → string.
(** The order in which [range] visits a map, which Go leaves unspecified. *)
Variable rangeOrder : gmap Byte32 Time → list (Byte32 * Time).

(** The dynamic type of [msg.Msg]. *)
Inductive Payload : Type :=
| PByte32 (b : Byte32)
| PString (s : string)
| PFinalBlock (b : FinalBlock)
| PDuration (nanoseconds : Z)
| PByteArrayAndTimestamp (bat : ByteArrayAndTimestamp)
| POther.

Record Msg : Type := mkMsg {
  Typ : string;
  Msg' : Payload
}.

Record Coord : Type := mkCoord {
  files : list string;               (* what has been written to each result file *)
  finalBlockChan : list FinalBlock;  (* blocks queued for the transaction generator *)
  rMap : gmap Byte32 routetxresults;
  idaresults : gmap Byte32 IDAGossipResults
}.

Definition set_files (fs : list string) (st : Coord) : Coord :=
  mkCoord fs (finalBlockChan st) (rMap st) (idaresults st).
Definition set_rMap (m : gmap Byte32 routetxresults) (st : Coord) : Coord :=
  mkCoord (files st) (finalBlockChan st) m (idaresults st).
Definition set_idaresults (m : gmap Byte32 IDAGossipResults) (st : Coord) : Coord :=
  mkCoord (files st) (finalBlockChan st) (rMap st) m.

(** Type assertions [v, ok := msg.Msg.(T)]. *)
Definition assertByte32 (p : Payload) : Byte32 * bool :=
  match p with PByte32 b => (b, true) | _ => ([], false) end.
Definition assertString (p : Payload) : string * bool :=
  match p with PString s => (s, true) | _ => (""%string, false) end.
Definition assertFinalBlock (p : Payload) : option FinalBlock * bool :=
  match p with PFinalBlock b => (Some b, true) | _ => (None, false) end.
Definition assertDuration (p : Payload) : Z * bool :=
  match p with PDuration d => (d, true) | _ => (0, false) end.
Definition assertByteArrayAndTimestamp (p : Payload) : ByteArrayAndTimestamp * bool :=
  match p with PByteArrayAndTimestamp bat => (bat, true) | _ => (mkBAT [] 0, false) end.

(** [b[lo:hi]] on a slice whose capacity is its length. *)
Definition slice (b : list Byte.byte) (lo hi : Z) : Act Coord (list Byte.byte) :=
  if (0 <=? lo) && (lo <=? hi) && (hi <=? Z.of_nat (length b))
  then mret (take (Z.to_nat (hi - lo)) (drop (Z.to_nat lo) b))
  else panic "slice bounds out of range".

Definition byteZ (b : Byte.byte) : Z := Z.of_N (Byte.to_N b).

(** [binary.LittleEndian.Uint64] *)
Definition LittleEndian_Uint64 (b : list Byte.byte) : Act Coord Z :=
  match b with
  | b0 :: b1 :: b2 :: b3 :: b4 :: b5 :: b6 :: b7 :: _ =>
      mret (Z.lor (byteZ b0) (Z.lor (Z.shiftl (byteZ b1) 8)
           (Z.lor (Z.shiftl (byteZ b2) 16) (Z.lor (Z.shiftl (byteZ b3) 24)
           (Z.lor (Z.shiftl (byteZ b4) 32) (Z.lor (Z.shiftl (byteZ b5) 40)
           (Z.lor (Z.shiftl (byteZ b6) 48) (Z.shiftl (byteZ b7) 56))))))))
  | _ => panic "index out of range"
  end.

(** [int64(x)] of a [uint64] *)
Definition int64 (x : Z) : Z := if x <? 2 ^ 63 then x else x - 2 ^ 64.

Definition prepareResultString (now : Time) (s : string) : string :=
  FormatInt (Unix now) +:+ "," +:+ s +:+ newline.

(** [writeStringToFile(s, files[k])] *)
Definition writeStringToFile (now : Time) (s : string) (k : nat) : Act Coord unit :=
  st ← get_state;
  match files st !! k with
  | None => panic "index out of range"
  | Some written =>
      put_state (set_files (<[k := written +:+ prepareResultString now s]> (files st)) st)
  end.

(** [writeIntToFile(integer, files[k])] *)
Definition writeIntToFile (now : Time) (integer : Z) (k : nat) : Act Coord unit :=
  writeStringToFile now (FormatInt integer) k.

(** [routetxmap.add] and [routetxmap.get]; the pointer [get] returns is the
    key of the record, or [None] for nil.  The map's own mutex is released
    before either method returns and is never taken twice, so it is not
    part of the state. *)
Definition routetxmap_add (ID : Byte32) : Act Coord unit :=
  st ← get_state;
  match rMap st !! ID with
  | Some _ => mret tt
  | None => put_state (set_rMap (<[ID := newRoute]> (rMap st)) st)
  end.

Definition routetxmap_get (ID : Byte32) : Act Coord (option Byte32) :=
  st ← get_state;
  mret (match rMap st !! ID with Some _ => Some ID | None => None end).

(** A method call [r.op(...)] through the pointer [r]. *)
Definition on_route {A} (r : option Byte32) (op : Act routetxresults A) : Act Coord A :=
  fun st =>
    match r with
    | None => Halted (HaltPanic "nil pointer dereference") st
    | Some ID =>
        match rMap st !! ID with
        | None => Halted (HaltPanic "nil pointer dereference") st
        | Some rec =>
            match op rec with
            | Done a rec' => Done a (set_rMap (<[ID := rec']> (rMap st)) st)
            | Halted h rec' => Halted h (set_rMap (<[ID := rec']> (rMap st)) st)
            end
        end
    end.

Definition IDAGossipResultsMap_add (ID : Byte32) : Act Coord unit :=
  st ← get_state;
  match idaresults st !! ID with
  | Some _ => mret tt
  | None => put_state (set_idaresults (<[ID := newIDA]> (idaresults st)) st)
  end.

Definition IDAGossipResultsMap_get (ID : Byte32) : Act Coord (option Byte32) :=
  st ← get_state;
  mret (match idaresults st !! ID with Some _ => Some ID | None => None end).

Definition on_ida {A} (r : option Byte32) (op : Act IDAGossipResults A) : Act Coord A :=
  fun st =>
    match r with
    | None => Halted (HaltPanic "nil pointer dereference") st
    | Some ID =>
        match idaresults st !! ID with
        | None => Halted (HaltPanic "nil pointer dereference") st
        | Some rec =>
            match op rec with
            | Done a rec' => Done a (set_idaresults (<[ID := rec']> (idaresults st)) st)
            | Halted h rec' => Halted h (set_idaresults (<[ID := rec']> (idaresults st)) st)
            end
        end
    end.

(** The tracker operations, as the handler performs them on a decoded id:
    [rMap.add(ID); r := rMap.get(ID); r.addStart(t)] and its siblings. *)
Definition markStart (ID : Byte32) (t : Time) : Act Coord bool :=
  _ ← routetxmap_add ID;
  r ← routetxmap_get ID;
  on_route r (addStart t).

Definition markHop (ID committeeID : Byte32) (t : Time) : Act Coord bool :=
  _ ← routetxmap_add ID;
  r ← routetxmap_get ID;
  on_route r (routetxresults_add committeeID t).

Definition markEnd (ID : Byte32) (t : Time) : Act Coord bool :=
  _ ← routetxmap_add ID;
  r ← routetxmap_get ID;
  on_route r (addEnd t).

(** [idaresults.add(ID); ida := idaresults.get(ID); ida.start = t]: the
    field is assigned directly, without the record's mutex. *)
Definition ida_markStart (ID : Byte32) (t : Time) : Act Coord unit :=
  _ ← IDAGossipResultsMap_add ID;
  ida ← IDAGossipResultsMap_get ID;
  on_ida ida (r ← get_state; put_state (mkIDA t (ida_reconstructed r) (ida_mux r))).

Definition appendReconstructed (ID : Byte32) (t : Time) : Act Coord bool :=
  _ ← IDAGossipResultsMap_add ID;
  ida ← IDAGossipResultsMap_get ID;
  on_ida ida (addReconstructed t).

(** The line flushed for a route-tx record (lines 509-522). *)
Definition route_line (r : routetxresults) : string :=
  let s := if IsZero (rt_start r) then "0"%string else FormatInt (Unix (rt_start r)) in
  let s := s +:+ "," in
  let s := s +:+ FormatInt (Unix (rt_end r)) in
  fold_left
    (fun s hop => s +:+ "," +:+ bytes32ToString (fst hop) +:+ "," +:+ FormatInt (Unix (snd hop)))
    (match rt_committees r with Some cs => rangeOrder cs | None => [] end)
    s.

(** The line flushed for an IDA-gossip record (lines 543-550). *)
Definition ida_line (r : IDAGossipResults) : string :=
  fold_left (fun s tStamp => s +:+ "," +:+ FormatInt (Unix tStamp))
    (ida_reconstructed r)
    (FormatInt (Unix (ida_start r))).

(** [coordinatorDebugStatsHandleConnection] on a decoded message.  [now] is
    the clock reading [prepareResultString] takes when a line is written;
    [time.Sleep] and logging have no effect on the state. *)
Definition coordinatorDebugStatsHandleConnection (now : Time) (msg : Msg)
    : Act Coord unit :=
  if String.eqb (Typ msg) "IDASuccess" then
    let '(_, ok) := assertByte32 (Msg' msg) in
    if negb ok then errFatal "IDASuccess decoding" else mret tt
  else if String.eqb (Typ msg) "consensus" then
    let '(_, ok) := assertString (Msg' msg) in
    notOkErr ok "coordinator consensus cMsg decoding"
  else if String.eqb (Typ msg) "finalblock" then
    let '(block, ok) := assertFinalBlock (Msg' msg) in
    _ ← notOkErr ok "finalblock";
    st ← get_state;
    match block with
    | Some block =>
        put_state (mkCoord (files st) (finalBlockChan st ++ [block]) (rMap st) (idaresults st))
    | None => mret tt
    end
  else if String.eqb (Typ msg) "pocverify" then
    let '(dur, ok) := assertDuration (Msg' msg) in
    _ ← notOkErr ok "pocverify";
    writeIntToFile now dur 1
  else if String.eqb (Typ msg) "pocadd" then
    let '(dur, ok) := assertDuration (Msg' msg) in
    _ ← notOkErr ok "pocadd";
    writeIntToFile now dur 2
  else if String.eqb (Typ msg) "routetx" then
    let '(tx, ok) := assertByteArrayAndTimestamp (Msg' msg) in
    _ ← notOkErr ok "routtx";
    let ID := toByte32 (B tx) in
    _ ← markStart ID (T tx);
    mret tt
  else if String.eqb (Typ msg) "find_node" then
    let '(tuple, ok) := assertByteArrayAndTimestamp (Msg' msg) in
    _ ← notOkErr ok "find_node";
    b ← slice (B tuple) 0 32;
    let txid := toByte32 b in
    b ← slice (B tuple) 32 (Z.of_nat (length (B tuple)));
    let committeeID := toByte32 b in
    _ ← markHop txid committeeID (T tuple);
    mret tt
  else if String.eqb (Typ msg) "transaction_recieved" then
    let '(bat, ok) := assertByteArrayAndTimestamp (Msg' msg) in
    _ ← notOkErr ok "transaction recived";
    let ID := toByte32 (B bat) in
    ok ← markEnd ID (T bat);
    if ok : bool then
      r ← on_route (Some ID) get_state;
      writeStringToFile now (route_line r) 3
    else mret tt
  else if String.eqb (Typ msg) "start_ida_gossip" then
    let '(bat, ok) := assertByteArrayAndTimestamp (Msg' msg) in
    _ ← notOkErr ok "start ida gossip";
    let ID := toByte32 (B bat) in
    ida_markStart ID (T bat)
  else if String.eqb (Typ msg) "reconstructed_ida_gossip" then
    let '(bat, ok) := assertByteArrayAndTimestamp (Msg' msg) in
    _ ← notOkErr ok "reconstructed idagossip";
    let ID := toByte32 (B bat) in
    ok ← appendReconstructed ID (T bat);
    if ok : bool then
      r ← on_ida (Some ID) (_ ← ida_lock; r ← get_state; _ ← ida_unlock; mret r);
      writeStringToFile now (ida_line r) 4
    else mret tt
  else if String.eqb (Typ msg) "consensus_accept_fail" then
    let '(bat, ok) := assertByteArrayAndTimestamp (Msg' msg) in
    _ ← notOkErr ok "consensus accept fail";
    _ ← (if negb (Z.of_nat (length (B bat)) =? 88)
         then errFatal "length of consensus accept fail msg was not 80"
         else mret tt);
    b ← slice (B bat) 0 32;
    let cID := toByte32 b in
    b ← slice (B bat) 32 64;
    let pub := toByte32 b in
    b ← slice (B bat) 64 72;
    iter ← LittleEndian_Uint64 b;
    b ← slice (B bat) 72 80;
    u ← LittleEndian_Uint64 b;
    let totalVotes := int64 u in
    b ← slice (B bat) 80 88;
    u ← LittleEndian_Uint64 b;
    let rec := int64 u in
    let s := bytes32ToString cID +:+ "," +:+ bytes32ToString pub +:+ ","
             +:+ FormatInt iter +:+ "," +:+ FormatInt totalVotes +:+ ","
             +:+ FormatInt rec in
    writeStringToFile now s 5
  else errFatal "no known message type (coordinator)".

(** *** What the specification says of the trackers and the handler *)

Definition start_of (st : Coord) (ID : Byte32) : option Time :=
  rt_start <$> rMap st !! ID.
Definition end_of (st : Coord) (ID : Byte32) : option Time :=
  rt_end <$> rMap st !! ID.
Definition ida_start_of (st : Coord) (ID : Byte32) : option Time :=
  ida_start <$> idaresults st !! ID.

(** No end has been recorded for [ID]; nothing holds the mutex of its
    record. *)
Definition end_unset (st : Coord) (ID : Byte32) : bool :=
  match rMap st !! ID with
  | Some r => IsZero (rt_end r)
  | None => true
  end.
Definition route_unlocked (st : Coord) (ID : Byte32) : bool :=
  match rMap st !! ID with
  | Some r => negb (rt_mux r)
  | None => true
  end.

(** Route-tx tracker: [markStart(id, t1)] then [markStart(id, t2)] leaves
    the start at [t1]; the first call is authoritative, the second is not. *)
Definition markStart_first_write_wins (st : Coord) (ID : Byte32) (t1 t2 : Time) : Prop :=
  ∃ st1 st2,
    markStart ID t1 st = Done true st1 ∧
    markStart ID t2 st1 = Done false st2 ∧
    start_of st2 ID = Some t1.

(** IDA-gossip tracker: a second [markStart] leaves the start at [t1]. *)
Definition ida_markStart_first_write_wins (st : Coord) (ID : Byte32) (t1 t2 : Time) : Prop :=
  ∃ st1 st2,
    ida_markStart ID t1 st = Done tt st1 ∧
    ida_markStart ID t2 st1 = Done tt st2 ∧
    ida_start_of st2 ID = Some t1.

(** Bytes [first .. last] of a payload, both ends included. *)
Definition field (b : list Byte.byte) (first last : nat) : list Byte.byte :=
  take (last + 1 - first) (drop first b).

(** The number a byte string denotes in little-endian order: byte [k] has
    weight [256^k]. *)
Fixpoint le_value (b : list Byte.byte) : Z :=
  match b with
  | [] => 0
  | x :: b' => byteZ x + 256 * le_value b'
  end.

(** A 64-bit pattern read as a two's-complement [i64]. *)
Definition signed64 (x : Z) : Z := if 2 ^ 63 <=? x then x - 2 ^ 64 else x.

(** The record of a [consensus_accept_fail] payload, field by field, and
    the line appended for it. *)
Definition accept_fail_line (b : list Byte.byte) : string :=
  let committeeId := toByte32 (field b 0 31) in
  let pubkeyId := toByte32 (field b 32 63) in
  let iteration := le_value (field b 64 71) in
  let totalVotes := signed64 (le_value (field b 72 79)) in
  let received := signed64 (le_value (field b 80 87)) in
  bytes32ToString committeeId +:+ "," +:+ bytes32ToString pubkeyId +:+ ","
  +:+ FormatInt iteration +:+ "," +:+ FormatInt totalVotes +:+ ","
  +:+ FormatInt received.

(** [line] is appended to sink number [k] (counted from 0) and nothing
    else changes. *)
Definition appended (k : nat) (line : string) (st st' : Coord) : Prop :=
  ∃ written,
    files st !! k = Some written ∧
    st' = set_files (<[k := written +:+ line]> (files st)) st.

End Handler.

Arguments mkMsg {FinalBlock} Typ Msg'.
Arguments Typ {FinalBlock} m.
Arguments Msg' {FinalBlock} m.
Arguments PByte32 {FinalBlock} b.
Arguments PString {FinalBlock} s.
Arguments PFinalBlock {FinalBlock} b.
Arguments PDuration {FinalBlock} nanoseconds.
Arguments PByteArrayAndTimestamp {FinalBlock} bat.
Arguments POther {FinalBlock}.
Arguments mkCoord {FinalBlock} files finalBlockChan rMap idaresults.
Arguments files {FinalBlock} c.
Arguments finalBlockChan {FinalBlock} c.
Arguments rMap {FinalBlock} c.
Arguments idaresults {FinalBlock} c.
Arguments set_files {FinalBlock} fs st.
Arguments set_rMap {FinalBlock} m st.
Arguments set_idaresults {FinalBlock} m st.
Arguments markStart {FinalBlock} ID t.
Arguments markHop {FinalBlock} ID committeeID t.
Arguments markEnd {FinalBlock} ID t.
Arguments ida_markStart {FinalBlock} ID t.
Arguments appendReconstructed {FinalBlock} ID t.
Arguments routetxmap_add {FinalBlock} ID.
Arguments routetxmap_get {FinalBlock} ID.
Arguments on_route {FinalBlock A} r op.
Arguments IDAGossipResultsMap_add {FinalBlock} ID.
Arguments IDAGossipResultsMap_get {FinalBlock} ID.
Arguments on_ida {FinalBlock A} r op.
Arguments slice {FinalBlock} b lo hi.
Arguments LittleEndian_Uint64 {FinalBlock} b.
Arguments writeStringToFile {FinalBlock} now s k.
Arguments writeIntToFile {FinalBlock} now integer k.
Arguments start_of {FinalBlock} st ID.
Arguments end_of {FinalBlock} st ID.
Arguments ida_start_of {FinalBlock} st ID.
Arguments end_unset {FinalBlock} st ID.
Arguments route_unlocked {FinalBlock} st ID.
Arguments markStart_first_write_wins {FinalBlock} st ID t1 t2.
Arguments ida_markStart_first_write_wins {FinalBlock} st ID t1 t2.
Arguments appended {FinalBlock} k line st st'.
Arguments coordinatorDebugStatsHandleConnection {FinalBlock} toByte32 bytes32ToString rangeOrder now msg.

(** ** The properties the specification states, in its own words *)

(** The adversary count the specification prescribes for a committee of the
    given size and index: [floor(size / divisor)], one less when [size] is a
    multiple of [divisor], where [divisor] is 2 for an even index and 6 for
    an odd one. *)
Definition spec_adversary_count (committeeSize index : Z) : Z :=
  let divisor := if Z.even index then 2 else 6 in
  committeeSize / divisor - (if committeeSize mod divisor =? 0 then 1 else 0).

(** The members of the committee with id [cid], in list order, as their
    honesty flags. *)
Definition flags_of (cid : Byte32) (nodeInfos : list NodeAllInfo) : list bool :=
  IsHonest <$> filter (fun nd => CommitteeID nd = cid) nodeInfos.

(** The first [f] members are adversarial and the others honest. *)
Definition adversaries_first (f : Z) (flags : list bool) : Prop :=
  ∀ (p : nat) (honest : bool),
    flags !! p = Some honest → honest = negb (Z.of_nat p <? f).

(** ** Concrete inputs *)

Definition sample_byte (k : nat) : Byte.byte := default Byte.x00 (Byte.of_nat k).

(** Committee ids [k, k, ..., k] for [k = 1 .. m], pairwise distinct. *)
Definition sample_committees (m : nat) : list Byte32 :=
  (fun k => replicate 32 (sample_byte k)) <$> seq 1 m.

(** [n] registered nodes with distinct keys, not yet assigned. *)
Definition sample_nodes (n : nat) : list NodeAllInfo :=
  (fun k => mkNode [sample_byte k] "127.0.0.1:8080" [] false) <$> seq 0 n.

(** Instances of the helpers declared outside this file, for concrete runs:
    [toByte32] copies the first 32 bytes (zero-padded), [bytes32ToString]
    prints the first four bytes as a number. *)
Definition sample_toByte32 (b : list Byte.byte) : Byte32 :=
  take 32 (b ++ replicate 32 Byte.x00).
Definition sample_bytes32ToString (b : Byte32) : string :=
  FormatInt (le_value (take 4 b)).

(** The coordinator's state when the debug/stats loop starts: six empty
    result files, empty trackers. *)
Definition empty_coord : Coord unit := mkCoord (replicate 6 ""%string) [] ∅ ∅.

Definition sample_id : list Byte.byte := replicate 32 (sample_byte 7).

(** A payload of [len] bytes [0, 1, 2, ...]. *)
Definition sample_payload (len : nat) : list Byte.byte := sample_byte <$> seq 0 len.

(** A linear congruential generator standing in for [math/rand] in concrete
    runs of the bootstrap. *)
Definition lcg_next (g : Z) : Z := (g * 1103515245 + 12345) mod 2 ^ 31.
Definition lcg_draw (g n : Z) : Z * Z := (lcg_next g mod n, lcg_next g).

Definition lcg_seed (s : Z) : Z := s mod 2 ^ 31.

(** [n] pairs as the handshake handlers push them, with distinct keys. *)
Definition sample_registered (n : nat) : list (PubKey * string) :=
  (fun k => ([sample_byte k], "127.0.0.1:8080"%string)) <$> seq 0 n.

(** Two low bytes of the drawn number, standing in for [getBytes]. *)
Definition sample_getBytes (v : Z) : list Byte.byte :=
  [sample_byte (Z.to_nat (v mod 256)); sample_byte (Z.to_nat (v / 256 mod 256))].

(** The bootstrap over the stand-in generator and helpers. *)
Definition sample_run_outcome (r : BootstrapRun Z)
    : Outcome (list NodeAllInfo * list committeeInfo * Z) :=
  run_outcome Z lcg_seed lcg_draw lcg_draw lcg_draw 65536 sample_getBytes sample_toByte32 r.



(** ** Closed forms for the assignment pass *)

(** The committee cursor after iteration [i]: one step per full block of
    [npm] indices, except at [i = m * npm], where the remainder starts. *)
Definition committee_index (n m i : Z) : Z :=
  let npm := n / m in
  i / npm - (if m * npm <=? i then 1 else 0).

(** The value of [t_npm] in iteration [i]. *)
Definition block_size (n m i : Z) : Z :=
  let npm := n / m in
  if i =? m * npm then npm + n mod m else npm.

(** The flag iteration [i] writes. *)
Definition honest_at (n m i : Z) : bool :=
  negb (i mod block_size n m i
          <? spec_adversary_count (block_size n m i) (committee_index n m i)).

(** The node iteration [i] writes over [nd]. *)
Definition assigned (n m : Z) (committees : list Byte32) (i : nat) (nd : NodeAllInfo)
    : NodeAllInfo :=
  mkNode (Pub nd) (IP nd)
    (default [] (committees !! Z.to_nat (committee_index n m (Z.of_nat i))))
    (honest_at n m (Z.of_nat i)).

(** The cursor on entry to iteration [i]. *)
Definition cursor_before (n m i : Z) : Z :=
  if i =? 0 then 0 else committee_index n m (i - 1).

(** The slice after the iterations [lo, hi) have run. *)
Definition assigned_between (n m : Z) (committees : list Byte32) (lo hi : Z)
    (j : nat) (nd : NodeAllInfo) : NodeAllInfo :=
  if bool_decide (lo ≤ Z.of_nat j < hi) then assigned n m committees j nd else nd.

(** Sizes and adversary counts the verification pass recorded, and its
    total. *)
Definition sizes_and_counts (r : list NodeAllInfo * list committeeInfo * Z)
    : list (Z * Z) * Z :=
  ((fun ci => (ci_npm ci, ci_f ci)) <$> r.1.2, r.2).

(** ** The handshake handler's address rewrite (coordinator.go, lines 257-260) *)

(** [strings.IndexByte(s, c)]: the index of the first [c] in [s], or -1. *)
Fixpoint IndexByte (s : string) (c : Ascii.ascii) : Z :=
  match s with
  | EmptyString => -1
  | String a s' =>
      if Ascii.eqb a c then 0
      else let k := IndexByte s' c in if k <? 0 then -1 else k + 1
  end.

(** The byte [':']. *)
Definition colon : Ascii.ascii := Ascii.ascii_of_nat 58.

(** [s[:hi]] on a string. *)
Definition string_prefix (s : string) (hi : Z) : Outcome string :=
  if (0 <=? hi) && (hi <=? Z.of_nat (String.length s))
  then Ret (String.substring 0 (Z.to_nat hi) s)
  else Panic "slice bounds out of range".

(** [fmt.Sprintf("%s:%d", clientAddr[:strings.IndexByte(clientAddr, ':')],
    rec_msg.Port)]: the remote address of the connection with its port
    replaced by the port the node advertises. *)
Definition clientAddr (remoteAddr : string) (Port : Z) : Outcome string :=
  host ← string_prefix remoteAddr (IndexByte remoteAddr colon);
  Ret (host +:+ ":" +:+ FormatInt Port).

(** ** Consensus counters (coordinator.go, lines 29-31 and 586-609) *)

Record consensusResult : Type := mkConsensusResult {
  echos : Z;
  pending : Z;
  accepts : Z
}.

(** Go's [int] is 64 bits wide here and [+=] wraps around. *)
Definition wrap_int (x : Z) : Z := (x + 2 ^ 63) mod 2 ^ 64 - 2 ^ 63.

Definition coordinatorHandleConsensus (tag : string) (consensusResults : consensusResult)
    : consensusResult :=
  let tmp := consensusResults in
  if String.eqb tag "echo" then
    mkConsensusResult (wrap_int (echos tmp + 1)) (pending tmp) (accepts tmp)
  else if String.eqb tag "pending" then
    mkConsensusResult (echos tmp) (wrap_int (pending tmp + 1)) (accepts tmp)
  else if String.eqb tag "accept" then
    mkConsensusResult (echos tmp) (pending tmp) (wrap_int (accepts tmp + 1))
  else tmp.

(** ** Vocabulary for the properties of the passes and the handler *)

(** Sums over the recount, and the number of nodes flagged dishonest. *)
Definition total_size (committeeInfos : list committeeInfo) : Z :=
  foldr (fun ci acc => ci_npm ci + acc) 0 committeeInfos.
Definition total_f (committeeInfos : list committeeInfo) : Z :=
  foldr (fun ci acc => ci_f ci + acc) 0 committeeInfos.
Definition dishonest (nodeInfos : list NodeAllInfo) : Z :=
  foldr (fun nd acc => (if IsHonest nd then 0 else 1) + acc) 0 nodeInfos.

(** What the recount records when M divides N and the committee ids are
    pairwise distinct: for every committee its id, [npm] members and the
    adversary count of its index. *)
Definition expected_recount (npm : Z) (committees : list Byte32) : list committeeInfo :=
  imap (fun k cid => mkCommitteeInfo cid npm (spec_adversary_count npm (Z.of_nat k)))
    committees.

(** The recount after its first [j] iterations, in that case: the number of
    nodes of committee [k] counted so far, the slice [committeeInfos], and
    the cursor [iCommittee]. *)
Definition counted (npm j k : Z) : Z := Z.max 0 (Z.min npm (j - k * npm)).
Definition recount_after (npm : Z) (committees : list Byte32) (j : Z)
    : list committeeInfo :=
  imap (fun k cid =>
          let q := counted npm j (Z.of_nat k) in
          if q =? 0 then zeroCommitteeInfo
          else mkCommitteeInfo cid q (Z.min q (spec_adversary_count npm (Z.of_nat k))))
    committees.
Definition recount_cursor (npm j : Z) : Z := if j =? 0 then 0 else (j - 1) / npm.

(** What a node registered: its key and its address. *)
Definition identity (nd : NodeAllInfo) : PubKey * string := (Pub nd, IP nd).

(** How often [tag] occurs in [tags]. *)
Definition count_tag (tag : string) (tags : list string) : Z :=
  Z.of_nat (length (filter (fun t => t = tag) tags)).

(** Two slices hold the same nodes: the same keys and addresses, entry by
    entry. *)
Definition same_identity (l l' : list NodeAllInfo) : Prop :=
  Forall2 (fun nd nd' => Pub nd' = Pub nd ∧ IP nd' = IP nd) l l'.

(** The draws of a generator stay below their bound. *)
Definition draws_in_range {Source : Type} (draw : Source → Z → Z * Source) : Prop :=
  ∀ g n, 0 < n → 0 ≤ fst (draw g n) < n.

(** The state a run leaves behind, whether it returned or halted. *)
Definition run_state {S A : Type} (r : Run S A) : S :=
  match r with
  | Done _ s => s
  | Halted _ s => s
  end.

(** An action keeps [P]: from a state in [P] it leaves a state in [P],
    however it ends. *)
Definition preserves {S A : Type} (P : S → Prop) (m : Act S A) : Prop :=
  ∀ s, P s → P (run_state (m s)).

(** Every result file of [st'] starts with what it held in [st]; the number
    of files is the same. *)
Definition files_extend {FinalBlock : Type} (st st' : Coord FinalBlock) : Prop :=
  length (files st') = length (files st) ∧
  ∀ k written, files st !! k = Some written →
    ∃ suffix, files st' !! k = Some (written +:+ suffix).

(** The IDA-gossip record of [ID] holds a reconstruction timestamp and its
    mutex is free. *)
Definition reconstructed_free {FinalBlock : Type} (ID : Byte32) (s : Coord FinalBlock)
    : Prop :=
  ∃ r, idaresults s !! ID = Some r ∧ ida_reconstructed r ≠ [] ∧ ida_mux r = false.

(** No route-tx record has a hop map: [committees] is nil in all of them. *)
Definition hop_maps_nil {FinalBlock : Type} (st : Coord FinalBlock) : Prop :=
  ∀ ID r, rMap st !! ID = Some r → rt_committees r = None.

(** The tags of the handler's [switch]. *)
Definition known_tags : list string :=
  ["IDASuccess"; "consensus"; "finalblock"; "pocverify"; "pocadd"; "routetx";
   "find_node"; "transaction_recieved"; "start_ida_gossip";
   "reconstructed_ida_gossip"; "consensus_accept_fail"]%string.

(** The result file a case of the [switch] writes to, if any. *)
Definition sink_of (tag : string) : option nat :=
  if String.eqb tag "pocverify" then Some 1%nat
  else if String.eqb tag "pocadd" then Some 2%nat
  else if String.eqb tag "transaction_recieved" then Some 3%nat
  else if String.eqb tag "reconstructed_ida_gossip" then Some 4%nat
  else if String.eqb tag "consensus_accept_fail" then Some 5%nat
  else None.

(** The dynamic type each case asserts on [msg.Msg]. *)
Definition payload_accepted {FinalBlock : Type} (tag : string) (p : Payload FinalBlock)
    : bool :=
  if String.eqb tag "IDASuccess" then snd (assertByte32 FinalBlock p)
  else if String.eqb tag "consensus" then snd (assertString FinalBlock p)
  else if String.eqb tag "finalblock" then snd (assertFinalBlock FinalBlock p)
  else if String.eqb tag "pocverify" then snd (assertDuration FinalBlock p)
  else if String.eqb tag "pocadd" then snd (assertDuration FinalBlock p)
  else snd (assertByteArrayAndTimestamp FinalBlock p).

(** The states the debug/stats loop can be in, with the handlers taken one
    at a time: it starts with empty trackers; a handler that returns, or
    that blocks for ever on a mutex, leaves its state to the handlers after
    it.  (A fatal error or a panic ends the process.) *)
Inductive reachable {FinalBlock : Type} (toByte32 : list Byte.byte → Byte32)
    (bytes32ToString : Byte32 → string)
    (rangeOrder : gmap Byte32 Time → list (Byte32 * Time))
    : Coord FinalBlock → Prop :=
| reachable_start (fs : list string) (queue : list FinalBlock) :
    reachable toByte32 bytes32ToString rangeOrder (mkCoord fs queue ∅ ∅)
| reachable_done (st st' : Coord FinalBlock) (now : Time) (msg : Msg FinalBlock) :
    reachable toByte32 bytes32ToString rangeOrder st →
    coordinatorDebugStatsHandleConnection toByte32 bytes32ToString rangeOrder now msg st
      = Done tt st' →
    reachable toByte32 bytes32ToString rangeOrder st'
| reachable_blocked (st st' : Coord FinalBlock) (now : Time) (msg : Msg FinalBlock) :
    reachable toByte32 bytes32ToString rangeOrder st →
    coordinatorDebugStatsHandleConnection toByte32 bytes32ToString rangeOrder now msg st
      = Halted HaltBlocked st' →
    reachable toByte32 bytes32ToString rangeOrder st'.

(** The states the debug/stats loop can be in after it was in [st], with
    the handlers taken one at a time: any number of further messages have
    been handled, each to its return or to a block on a mutex. *)
Inductive follows {FinalBlock : Type} (toByte32 : list Byte.byte → Byte32)
    (bytes32ToString : Byte32 → string)
    (rangeOrder : gmap Byte32 Time → list (Byte32 * Time))
    (st : Coord FinalBlock) : Coord FinalBlock → Prop :=
| follows_here : follows toByte32 bytes32ToString rangeOrder st st
| follows_done (st1 st2 : Coord FinalBlock) (now : Time) (msg : Msg FinalBlock) :
    follows toByte32 bytes32ToString rangeOrder st st1 →
    coordinatorDebugStatsHandleConnection toByte32 bytes32ToString rangeOrder now msg st1
      = Done tt st2 →
    follows toByte32 bytes32ToString rangeOrder st st2
| follows_blocked (st1 st2 : Coord FinalBlock) (now : Time) (msg : Msg FinalBlock) :
    follows toByte32 bytes32ToString rangeOrder st st1 →
    coordinatorDebugStatsHandleConnection toByte32 bytes32ToString rangeOrder now msg st1
      = Halted HaltBlocked st2 →
    follows toByte32 bytes32ToString rangeOrder st st2.

(** The slice the pass returns for twelve nodes and three committees, and
    what the recount records for it. *)
Definition sample_assigned : list NodeAllInfo :=
  imap (assigned 12 3 (sample_committees 3)) (sample_nodes 12).
Definition sample_recount : list committeeInfo :=
  [mkCommitteeInfo (replicate 32 (sample_byte 1)) 4 1;
   mkCommitteeInfo (replicate 32 (sample_byte 2)) 4 0;
   mkCommitteeInfo (replicate 32 (sample_byte 3)) 4 1].

(** The bootstrap of that example, from the registry to the verified
    assignment, over the stand-in generator. *)
Definition sample_bootstrap : list NodeAllInfo * list committeeInfo * Z :=
  Eval vm_compute in
    match sample_run_outcome
            (mkRun (lcg_seed 1337) 42 (sample_registered 12) (mkFlagArgs 12 3 3 2)) with
    | Ret r => r
    | _ => ([], [], 0)
    end.

(** The state after the handler has seen, on the empty state, one
    [transaction_recieved] message and one [reconstructed_ida_gossip]
    message for [sample_id], each stamped 5 and written at clock reading 1. *)
Definition sample_ended : Coord unit :=
  mkCoord
    (<[3%nat := ("" +:+ prepareResultString 1
                         (route_line sample_bytes32ToString map_to_list
                            (mkRoute 0 5 None false)))%string]>
       (files empty_coord))
    (finalBlockChan empty_coord)
    (<[sample_toByte32 sample_id := mkRoute 0 5 None false]> (rMap empty_coord))
    (idaresults empty_coord).
(** A [find_node] report for [sample_id], and the state it leaves when it
    is handled after [sample_ended]. *)
Definition sample_hop : ByteArrayAndTimestamp :=
  mkBAT (sample_id ++ replicate 32 (sample_byte 1)) 7.
Definition sample_stalled : Coord unit :=
  let ID := sample_toByte32 (take 32 (B sample_hop)) in
  let r := default newRoute (rMap sample_ended !! ID) in
  set_rMap (<[ID := mkRoute (rt_start r) (rt_end r) None true]> (rMap sample_ended))
    sample_ended.
Definition sample_reconstructed : Coord unit :=
  mkCoord
    (<[4%nat := ("" +:+ prepareResultString 1 (ida_line (mkIDA 0 [5] false)))%string]>
       (files empty_coord))
    (finalBlockChan empty_coord)
    (rMap empty_coord)
    (<[sample_toByte32 sample_id := mkIDA 0 [5] false]> (idaresults empty_coord)).

(** The state a [start_ida_gossip] message for [sample_id], stamped 8, leaves
    when it is handled after [sample_reconstructed]. *)
Definition sample_restarted : Coord unit :=
  let r := default newIDA (idaresults sample_reconstructed !! sample_toByte32 sample_id) in
  set_idaresults
    (<[sample_toByte32 sample_id := mkIDA 8 (ida_reconstructed r) (ida_mux r)]>
       (idaresults sample_reconstructed))
    sample_reconstructed.

(** * Properties *)

(** ** Arithmetic and slices *)

Lemma div_succ_multiple i d :
  0 < d → 0 ≤ i → (i + 1) mod d = 0 → (i + 1) / d = i / d + 1.
Proof. intros. Z.div_mod_to_equations. nia. Qed.

Lemma div_succ_other i d :
  0 < d → 0 ≤ i → (i + 1) mod d ≠ 0 → (i + 1) / d = i / d.
Proof. intros. Z.div_mod_to_equations. nia. Qed.

Lemma index_Some {A} (s : list A) (i : Z) x :
  0 ≤ i → s !! Z.to_nat i = Some x → index s i = Ret x.
Proof.
  intros Hi Hx. unfold index. destruct (Z.ltb_spec i 0); [lia|]. by rewrite Hx.
Qed.

Lemma store_in_range {A} (s : list A) (i : Z) x :
  0 ≤ i < Z.of_nat (length s) → store s i x = Ret (<[Z.to_nat i := x]> s).
Proof.
  intros Hi. unfold store.
  destruct (Z.leb_spec 0 i), (Z.ltb_spec i (Z.of_nat (length s))); try lia. done.
Qed.

(** The flag the loop body computes is the specification's formula applied
    to [t_npm] and the cursor. *)
Lemma flag_code_spec t c i :
  0 < t → 0 ≤ c → 0 ≤ i →
  (let c_div := if Z.rem c 2 =? 0 then 3 else 1 in
   let f := Z.quot t (Z.quot 6 c_div) in
   let f := if Z.rem t (Z.quot 6 c_div) =? 0 then f - 1 else f in
   if (t =? 0) || (Z.rem i t <? f) then false else true)
  = negb (i mod t <? spec_adversary_count t c).
Proof.
  intros Ht Hc Hi. cbn zeta. unfold spec_adversary_count.
  rewrite (Z.rem_mod_nonneg c 2), (Z.rem_mod_nonneg i t) by lia.
  rewrite (Zmod_even c).
  destruct (Z.eqb_spec t 0) as [|_]; [lia|]. cbn [orb].
  destruct (Z.even c).
  - change (if 0 =? 0 then 3 else 1) with 3. change (6 ÷ 3) with 2.
    rewrite Z.rem_mod_nonneg, Z.quot_div_nonneg by lia.
    destruct (_ mod _ =? 0); rewrite ?Z.sub_0_r; by destruct (_ <? _).
  - change (if 1 =? 0 then 3 else 1) with 1. change (6 ÷ 1) with 6.
    rewrite Z.rem_mod_nonneg, Z.quot_div_nonneg by lia.
    destruct (_ mod _ =? 0); rewrite ?Z.sub_0_r; by destruct (_ <? _).
Qed.

(** ** The assignment pass in closed form *)

Section Assign.
Variables (n m : Z) (committees : list Byte32).
Hypothesis Hm : 0 < m ≤ n.
Hypothesis Hcommittees : Z.of_nat (length committees) = m.

Local Abbreviation npm := (n / m).
Local Abbreviation rest := (n mod m).

Lemma npm_pos : 0 < npm.
Proof. apply Z.div_str_pos. lia. Qed.

Lemma n_split : n = m * npm + rest ∧ 0 ≤ rest < m.
Proof. split; [apply Z.div_mod; lia | apply Z.mod_pos_bound; lia]. Qed.

Lemma cursor_before_succ i : 0 ≤ i → cursor_before n m (i + 1) = committee_index n m i.
Proof.
  intros. unfold cursor_before. destruct (Z.eqb_spec (i + 1) 0); [lia|]. f_equal. lia.
Qed.

(** The branch on [i != 0 && i%npm == 0] moves the cursor to
    [committee_index] and sets [t_npm] to [block_size]. *)
Lemma cursor_step i :
  0 ≤ i < n →
  (if negb (i =? 0) then
     r ← go_rem i npm;
     if r =? 0 then
       if negb (i =? n - rest) then Ret (cursor_before n m i + 1, npm)
       else Ret (cursor_before n m i, npm + rest)
     else Ret (cursor_before n m i, npm)
   else Ret (cursor_before n m i, npm))
  = Ret (committee_index n m i, block_size n m i).
Proof.
  intros Hi. pose proof npm_pos as Hnpm. destruct n_split as [Hn Hrest].
  unfold cursor_before, committee_index, block_size, go_rem.
  replace (n - rest) with (m * npm) by lia.
  destruct (Z.eqb_spec i 0) as [->|Hi0]; cbn [negb].
  - rewrite Z.div_0_l by lia.
    destruct (Z.leb_spec (m * npm) 0); [nia|].
    destruct (Z.eqb_spec 0 (m * npm)); [lia|]. done.
  - destruct (Z.eqb_spec npm 0); [lia|]. cbn [mbind Outcome_bind].
    rewrite Z.rem_mod_nonneg by lia.
    destruct (Z.eqb_spec (i mod npm) 0) as [Hmod|Hmod].
    + replace (i / npm) with ((i - 1) / npm + 1)
        by (symmetry; replace i with ((i - 1) + 1) at 1 by lia;
            apply div_succ_multiple; [lia|lia|by replace (i - 1 + 1) with i by lia]).
      destruct (Z.eqb_spec i (m * npm)) as [->|Hne]; cbn [negb].
      * destruct (Z.leb_spec (m * npm) (m * npm - 1)); [lia|].
        destruct (Z.leb_spec (m * npm) (m * npm)); [|lia]. do 2 f_equal. lia.
      * destruct (Z.leb_spec (m * npm) (i - 1)), (Z.leb_spec (m * npm) i);
          try lia; do 2 f_equal; lia.
    + replace (i / npm) with ((i - 1) / npm)
        by (symmetry; replace i with ((i - 1) + 1) at 1 by lia;
            apply div_succ_other; [lia|lia|by replace (i - 1 + 1) with i by lia]).
      destruct (Z.eqb_spec i (m * npm)) as [->|Hne].
      * rewrite Z.mod_mul in Hmod by lia. done.
      * destruct (Z.leb_spec (m * npm) (i - 1)), (Z.leb_spec (m * npm) i);
          try lia; do 2 f_equal; lia.
Qed.

Lemma assign_body_spec i l nd :
  0 ≤ i < n →
  Z.of_nat (length l) = n →
  l !! Z.to_nat i = Some nd →
  0 ≤ committee_index n m i < m →
  assign_body n npm rest committees i (cursor_before n m i, l)
  = Ret (committee_index n m i,
         <[Z.to_nat i := assigned n m committees (Z.to_nat i) nd]> l).
Proof.
  intros Hi Hl Hnd Hc.
  pose proof npm_pos as Hnpm. destruct n_split as [Hn Hrest].
  unfold assigned. rewrite Z2Nat.id by lia.
  destruct (committees !! Z.to_nat (committee_index n m i)) as [cid|] eqn:Hcid;
    [|apply lookup_ge_None in Hcid; lia].
  cbn [default]. unfold honest_at.
  rewrite <- (flag_code_spec (block_size n m i) (committee_index n m i) i);
    [|unfold block_size; destruct (_ =? _); lia|lia|lia].
  unfold assign_body. rewrite (cursor_step i Hi). cbn [mbind Outcome_bind].
  rewrite (index_Some committees _ cid) by (done || lia). cbn [mbind Outcome_bind].
  rewrite (index_Some l _ nd) by (done || lia). cbn [mbind Outcome_bind].
  rewrite store_in_range by lia. done.
Qed.

(** Loop invariant: [k] iterations from [i] rewrite exactly the entries
    [i .. i+k-1], as long as the cursor stays inside [committees]. *)
Lemma assign_loop_spec (k : nat) : ∀ i l,
  0 ≤ i → i + Z.of_nat k ≤ n →
  Z.of_nat (length l) = n →
  (∀ j, i ≤ j < i + Z.of_nat k → 0 ≤ committee_index n m j < m) →
  assign_loop n npm rest committees k i (cursor_before n m i, l)
  = Ret (cursor_before n m (i + Z.of_nat k),
         imap (assigned_between n m committees i (i + Z.of_nat k)) l).
Proof.
  induction k as [|k IH]; intros i l Hi Hk Hl Hrange.
  - cbn [assign_loop]. rewrite Z.add_0_r. do 2 f_equal.
    apply list_eq. intros j. rewrite list_lookup_imap.
    destruct (l !! j) as [nd|]; [|done]. cbn. unfold assigned_between.
    rewrite bool_decide_eq_false_2 by lia. done.
  - cbn [assign_loop].
    destruct (lookup_lt_is_Some_2 l (Z.to_nat i)) as [nd Hnd]; [lia|].
    rewrite (assign_body_spec i l nd) by (done || lia || (apply Hrange; lia)).
    cbn [mbind Outcome_bind].
    rewrite <- cursor_before_succ by lia.
    rewrite IH; [|lia|lia|by rewrite length_insert|intros j Hj; apply Hrange; lia].
    replace (i + 1 + Z.of_nat k) with (i + Z.of_nat (S k)) by lia.
    do 2 f_equal. apply list_eq. intros j. rewrite !list_lookup_imap.
    unfold assigned_between.
    destruct (decide (j = Z.to_nat i)) as [->|Hne].
    + rewrite list_lookup_insert_eq by lia. rewrite Hnd. cbn.
      rewrite bool_decide_eq_false_2 by lia. rewrite bool_decide_eq_true_2 by lia. done.
    + rewrite list_lookup_insert_ne by done.
      destruct (l !! j) as [nd'|]; [|done]. cbn. f_equal.
      apply (f_equal (fun b : bool => if b then _ else _)).
      apply bool_decide_ext. lia.
Qed.

Lemma assign_loop_app (k1 k2 : nat) : ∀ i st,
  assign_loop n npm rest committees (k1 + k2) i st
  = st' ← assign_loop n npm rest committees k1 i st;
    assign_loop n npm rest committees k2 (i + Z.of_nat k1) st'.
Proof.
  induction k1 as [|k1 IH]; intros i st.
  - cbn. by rewrite Z.add_0_r.
  - cbn [Nat.add assign_loop].
    destruct (assign_body n npm rest committees i st) as [st'| | |];
      cbn [mbind Outcome_bind]; [|done..].
    rewrite IH. by replace (i + 1 + Z.of_nat k1) with (i + Z.of_nat (S k1)) by lia.
Qed.

Lemma committee_index_range j :
  rest ≤ npm → 0 ≤ j < n → 0 ≤ committee_index n m j < m.
Proof.
  intros Hr Hj. pose proof npm_pos. destruct n_split.
  unfold committee_index. destruct (Z.leb_spec (m * npm) j).
  - assert (j / npm = m) as ->; [|lia].
    symmetry. apply (Z.div_unique j npm m (j - m * npm)); lia.
  - assert (0 ≤ j / npm) by (apply Z.div_pos; lia).
    assert (j / npm < m) by (apply Z.div_lt_upper_bound; lia). lia.
Qed.

(** With a remainder of at most one block the pass completes, and entry
    [i] receives the id at [committee_index] and the flag [honest_at]. *)
Theorem assign_spec l :
  rest ≤ npm → Z.of_nat (length l) = n →
  assign n m committees l = Ret (imap (assigned n m committees) l).
Proof.
  intros Hr Hl. unfold assign, go_div, go_rem.
  destruct (Z.eqb_spec m 0); [lia|]. cbn [mbind Outcome_bind].
  rewrite Z.quot_div_nonneg, Z.rem_mod_nonneg by lia.
  change (0, l) with (cursor_before n m 0, l).
  rewrite assign_loop_spec; [|lia|lia|done|intros; apply committee_index_range; lia].
  cbn [mbind Outcome_bind snd]. f_equal.
  apply imap_ext. intros j nd Hj. unfold assigned_between.
  apply lookup_lt_Some in Hj. rewrite bool_decide_eq_true_2 by lia. done.
Qed.

(** When the remainder exceeds the block size, the cursor leaves the
    slice of committee ids at index [(m + 1) * npm]. *)
Theorem assign_panics l :
  npm < rest → Z.of_nat (length l) = n →
  assign n m committees l = Panic "index out of range".
Proof.
  intros Hr Hl. pose proof npm_pos as Hnpm. destruct n_split as [Hn Hrest].
  unfold assign, go_div, go_rem.
  destruct (Z.eqb_spec m 0); [lia|]. cbn [mbind Outcome_bind].
  rewrite Z.quot_div_nonneg, Z.rem_mod_nonneg by lia.
  set (K := m * npm + npm).
  assert (HK : ∀ j, m * npm ≤ j < K → j / npm = m).
  { intros j Hj. symmetry. apply (Z.div_unique j npm m (j - m * npm)); lia. }
  replace (Z.to_nat n) with (Z.to_nat K + S (Z.to_nat (n - K - 1)))%nat by lia.
  rewrite assign_loop_app. change (0, l) with (cursor_before n m 0, l).
  rewrite assign_loop_spec; [|lia|lia|done|].
  2:{ intros j Hj. unfold committee_index. destruct (Z.leb_spec (m * npm) j).
      - rewrite HK by lia. lia.
      - assert (0 ≤ j / npm) by (apply Z.div_pos; lia).
        assert (j / npm < m) by (apply Z.div_lt_upper_bound; lia). lia. }
  cbn [mbind Outcome_bind assign_loop].
  rewrite Z2Nat.id by lia. rewrite Z.add_0_l.
  assert (Hc : cursor_before n m K = m - 1).
  { unfold cursor_before, committee_index. destruct (Z.eqb_spec K 0); [lia|].
    rewrite HK by lia. destruct (Z.leb_spec (m * npm) (K - 1)); lia. }
  rewrite Hc. unfold assign_body, go_rem.
  destruct (Z.eqb_spec K 0); [lia|]. cbn [negb].
  destruct (Z.eqb_spec npm 0); [lia|]. cbn [mbind Outcome_bind].
  assert (Z.rem K npm = 0) as ->.
  { rewrite Z.rem_mod_nonneg by lia. unfold K.
    replace (m * npm + npm) with ((m + 1) * npm) by lia. apply Z.mod_mul. lia. }
  cbn [Z.eqb]. destruct (Z.eqb_spec K (n - rest)); [lia|]. cbn [negb mbind Outcome_bind].
  unfold index. destruct (Z.ltb_spec (m - 1 + 1) 0); [lia|].
  rewrite (lookup_ge_None_2 committees) by lia. done.
Qed.

(** With a remainder of at most one block, committee [k] is the block of
    indices starting at [k * npm]; the last block runs to [n]. *)
Lemma committee_index_block i k :
  rest ≤ npm → 0 ≤ i < n → 0 ≤ k < m →
  committee_index n m i = k ↔
  k * npm ≤ i < (if k =? m - 1 then n else (k + 1) * npm).
Proof.
  intros Hr Hi Hk. pose proof npm_pos. destruct n_split.
  unfold committee_index. destruct (Z.leb_spec (m * npm) i).
  - assert (i / npm = m) as ->
      by (symmetry; apply (Z.div_unique i npm m (i - m * npm)); lia).
    destruct (Z.eqb_spec k (m - 1)); [nia|]. split; [lia|nia].
  - rewrite Z.sub_0_r. destruct (Z.eqb_spec k (m - 1)) as [->|].
    + split.
      * intros <-. Z.div_mod_to_equations. nia.
      * intros Hb. symmetry.
        apply (Z.div_unique i npm (m - 1) (i - (m - 1) * npm)); lia.
    + split.
      * intros <-. Z.div_mod_to_equations. nia.
      * intros Hb. symmetry. apply (Z.div_unique i npm k (i - k * npm)); lia.
Qed.

(** Inside the first [m] blocks the flag follows the specification: the
    node at position [p] of block [k] is adversarial exactly when [p] is
    below the count prescribed for a committee of [npm] nodes. *)
Lemma honest_at_block k p :
  0 ≤ k < m → 0 ≤ p < npm →
  honest_at n m (k * npm + p) = negb (p <? spec_adversary_count npm k).
Proof.
  intros Hk Hp. pose proof npm_pos. destruct n_split.
  unfold honest_at, block_size, committee_index.
  destruct (Z.eqb_spec (k * npm + p) (m * npm)); [nia|].
  destruct (Z.leb_spec (m * npm) (k * npm + p)); [nia|].
  rewrite Z.sub_0_r.
  rewrite <- (Z.div_unique (k * npm + p) npm k p) by lia.
  rewrite <- (Z.mod_unique (k * npm + p) npm k p) by lia. done.
Qed.

(** The two together, on the slice the pass returns: member [p] of block
    [k] keeps its key and address, receives committee id [k], and is
    adversarial exactly when [p] is below the prescribed count. *)
Corollary assign_block_member l k p nd :
  rest ≤ npm → Z.of_nat (length l) = n →
  0 ≤ k < m → 0 ≤ p < npm →
  l !! Z.to_nat (k * npm + p) = Some nd →
  ∃ l', assign n m committees l = Ret l' ∧
    l' !! Z.to_nat (k * npm + p)
    = Some (mkNode (Pub nd) (IP nd) (default [] (committees !! Z.to_nat k))
              (negb (p <? spec_adversary_count npm k))).
Proof.
  intros Hr Hl Hk Hp Hnd. pose proof npm_pos. destruct n_split.
  eexists. split; [by apply assign_spec|].
  rewrite list_lookup_imap, Hnd. cbn. unfold assigned.
  rewrite Z2Nat.id by nia. rewrite honest_at_block by lia.
  assert (committee_index n m (k * npm + p) = k) as ->; [|done].
  unfold committee_index. destruct (Z.leb_spec (m * npm) (k * npm + p)); [nia|].
  rewrite Z.sub_0_r. symmetry. apply (Z.div_unique _ npm k p); lia.
Qed.
End Assign.

(** The aggregate check cannot fail: both quotients are integer quotients,
    and [1 / totalF] is 0 as soon as [totalF] is at least 2. *)
Lemma check_total_never_fatal flagArgs checkTotalF why :
  0 ≤ checkTotalF ≤ flag_n flagArgs → 0 ≤ flag_totalF flagArgs →
  check_total flagArgs checkTotalF ≠ Fatal why.
Proof.
  intros Ht HF. unfold check_total, go_div.
  destruct (flag_m flagArgs =? 0); [done|]. cbn [mbind Outcome_bind].
  destruct (negb _); [|done].
  destruct (Z.eqb_spec checkTotalF 0); [done|]. cbn [mbind Outcome_bind].
  destruct (Z.eqb_spec (flag_totalF flagArgs) 0); [done|]. cbn [mbind Outcome_bind].
  destruct (Z.ltb_spec (flag_n flagArgs ÷ checkTotalF) (1 ÷ flag_totalF flagArgs)) as [Hlt|]; [|done].
  exfalso. rewrite !Z.quot_div_nonneg in Hlt by lia.
  assert (1 ≤ flag_n flagArgs / checkTotalF) by (apply Z.div_le_lower_bound; lia).
  assert (1 / flag_totalF flagArgs ≤ 1) by (apply Z.div_le_upper_bound; lia).
  lia.
Qed.

(** The specification's example: N = 12, M = 3.  Committee 0 has one
    adversarial and three honest nodes, committee 1 four honest nodes. *)
Example assign_12_3 :
  (fun l => (flags_of (replicate 32 (sample_byte 1)) l,
             flags_of (replicate 32 (sample_byte 2)) l,
             flags_of (replicate 32 (sample_byte 3)) l))
    <$> assign 12 3 (sample_committees 3) (sample_nodes 12)
  = Ret ([false; true; true; true], [true; true; true; true], [false; true; true; true]).
Proof. vm_compute. reflexivity. Qed.

(** ** Claims about the assignment and verification passes *)

(** C1 (the pass partitions N nodes into exactly M committees for every
    N ≥ M > 0): the code does not.  For N = 5 and M = 3 the block size is 1
    and the remainder 2; at index 4 the cursor is advanced past the last
    committee id and [committees[c]] panics.  [assign_spec] and
    [committee_index_block] give the partition when N mod M ≤ N / M, and
    [assign_panics] the panic otherwise. *)
Theorem C1_assign_5_3_panics :
  5 >= 3 ∧ 3 > 0 ∧
  assign 5 3 (sample_committees 3) (sample_nodes 5) = Panic "index out of range".
Proof. split; [lia|]. split; [lia|]. vm_compute. reflexivity. Qed.

(** C2 (every committee's adversary count is [floor(size / divisor)], one
    less when [size] is a multiple of it): the code breaks it in the
    committee that absorbs the remainder.  For N = 13 and M = 3 the last
    committee has 5 nodes and index 2; the formula gives 2 adversaries, the
    pass flags 1, and the verification pass accepts the result. *)
Theorem C2_remainder_committee_13_3 :
  sizes_and_counts
    <$> assign_and_verify (mkFlagArgs 13 3 3 2) (sample_committees 3) (sample_nodes 13)
  = Ret ([(4, 1); (4, 0); (5, 1)], 2)
  ∧ spec_adversary_count 5 2 = 2.
Proof. split; vm_compute; reflexivity. Qed.

(** C7 (in every committee exactly the first f members are adversarial):
    the code breaks it in the committee that absorbs the remainder.  For
    N = 7 and M = 3 the last committee is flagged honest, honest,
    adversarial, which is not of the form "the first f" for any f. *)
Theorem C7_remainder_committee_7_3 :
  flags_of (replicate 32 (sample_byte 3))
    <$> assign 7 3 (sample_committees 3) (sample_nodes 7)
  = Ret [true; true; false]
  ∧ ∀ f, ¬ adversaries_first f [true; true; false].
Proof.
  split; [vm_compute; reflexivity|].
  intros f H.
  pose proof (H 0%nat true eq_refl) as H0. pose proof (H 2%nat false eq_refl) as H2.
  change (Z.of_nat 0) with 0 in H0. change (Z.of_nat 2) with 2 in H2.
  destruct (Z.ltb_spec 0 f), (Z.ltb_spec 2 f); simpl in *; try discriminate; lia.
Qed.

(** C6 (a completed verification pass bounds the aggregate adversary
    fraction by 1/totalAdversaryDivisor): the code does not enforce it.
    For N = 39, M = 3, totalF = 3 and committeeF = 2 the pass completes
    with 14 adversaries out of 39, more than a third. *)
Theorem C6_aggregate_bound_not_enforced_39_3 :
  sizes_and_counts
    <$> assign_and_verify (mkFlagArgs 39 3 3 2) (sample_committees 3) (sample_nodes 39)
  = Ret ([(13, 6); (13, 2); (13, 6)], 14)
  ∧ 39 < 14 * 3.
Proof. split; [vm_compute; reflexivity | lia]. Qed.

(** C10: there are parameters N ≥ M > 0 with N / M ≠ 1, namely N = 4 and
    M = 2, for which every node is flagged honest, every committee's
    adversary count is zero, and the aggregate check divides N by that zero
    total: the bootstrap panics, whatever [totalF] is. *)
Theorem C10_zero_adversaries_panic_4_2 (totalF : Z) :
  4 >= 2 ∧ 2 > 0 ∧ Z.quot 4 2 ≠ 1 ∧
  (fun l : list NodeAllInfo => IsHonest <$> l)
    <$> assign 4 2 (sample_committees 2) (sample_nodes 4)
    = Ret [true; true; true; true] ∧
  (fun cis : list committeeInfo => ci_f <$> cis)
    <$> (assign 4 2 (sample_committees 2) (sample_nodes 4)
           ≫= recount 4 2 (sample_committees 2))
    = Ret [0; 0] ∧
  assign_and_verify (mkFlagArgs 4 2 totalF 2) (sample_committees 2) (sample_nodes 4)
    = Panic "integer divide by zero".
Proof. repeat split; try lia; try (vm_compute; congruence); reflexivity. Qed.

(** The outcome of the bootstrap is a function of the seed installed at
    line 300, the registered pairs and the flags: the state of the global
    generator at the start of the run, and with it [rand.Seed(1337)] of
    line 173, has no influence. *)
Lemma same_reseed_same_outcome
    (Source : Type) (seedSource : Z → Source)
    (int31n Int63n Intn : Source → Z → Z * Source)
    (maxId : Z) (getBytes : Z → list Byte.byte) (hash : list Byte.byte → Byte32)
    (r1 r2 : BootstrapRun Source) :
  run_seed r1 = run_seed r2 →
  run_registered r1 = run_registered r2 →
  run_flags r1 = run_flags r2 →
  run_outcome Source seedSource int31n Int63n Intn maxId getBytes hash r1
  = run_outcome Source seedSource int31n Int63n Intn maxId getBytes hash r2.
Proof.
  intros Hseed Hregistered Hflags.
  unfold run_outcome, coordinator, rand_Seed.
  rewrite Hseed, Hregistered, Hflags. reflexivity.
Qed.


(** A run of the bootstrap that completes: twelve nodes in three committees
    of four, with one, zero and one adversaries. *)
Example sample_run_12_3 :
  sizes_and_counts
    <$> sample_run_outcome
          (mkRun (lcg_seed 1337) 42 (sample_registered 12) (mkFlagArgs 12 3 3 2))
  = Ret ([(4, 1); (4, 0); (4, 1)], 2).
Proof. vm_compute. reflexivity. Qed.

(** With the stand-in generator, another seed gives another shuffle. *)
Example sample_run_other_seed :
  shuffled_keys
    <$> sample_run_outcome
          (mkRun 7 42 (sample_registered 12) (mkFlagArgs 12 3 3 2))
  ≠ shuffled_keys
    <$> sample_run_outcome
          (mkRun 7 43 (sample_registered 12) (mkFlagArgs 12 3 3 2)).
Proof. vm_compute. discriminate. Qed.

(** ** Bytes and little-endian words *)

Lemma lor_disjoint_add a b k :
  0 ≤ k → 0 ≤ a < 2 ^ k → Z.lor a (b * 2 ^ k) = a + b * 2 ^ k.
Proof.
  intros Hk Ha. rewrite <- Z.shiftl_mul_pow2 by done.
  assert (Hland : Z.land a (Z.shiftl b k) = 0).
  { apply Z.bits_inj'. intros n Hn. rewrite Z.land_spec, Z.bits_0.
    destruct (Z.lt_ge_cases n k) as [Hlt|Hge].
    - rewrite Z.shiftl_spec_low; [|lia]. apply andb_false_r.
    - destruct (Z.eq_dec a 0) as [->|Hne]; [by rewrite Z.bits_0|].
      rewrite (Z.bits_above_log2 a n); [done|lia|].
      assert (Z.log2 a < k) by (apply Z.log2_lt_pow2; lia). lia. }
  rewrite <- Z.lxor_lor by exact Hland.
  by rewrite <- Z.add_nocarry_lxor by exact Hland.
Qed.

Lemma byteZ_range x : 0 ≤ byteZ x < 256.
Proof. unfold byteZ. pose proof (Byte.to_N_bounded x). lia. Qed.

Lemma lor_bytes z0 z1 z2 z3 z4 z5 z6 z7 :
  0 ≤ z0 < 256 → 0 ≤ z1 < 256 → 0 ≤ z2 < 256 → 0 ≤ z3 < 256 →
  0 ≤ z4 < 256 → 0 ≤ z5 < 256 → 0 ≤ z6 < 256 → 0 ≤ z7 < 256 →
  Z.lor z0 (Z.lor (Z.shiftl z1 8) (Z.lor (Z.shiftl z2 16) (Z.lor (Z.shiftl z3 24)
    (Z.lor (Z.shiftl z4 32) (Z.lor (Z.shiftl z5 40)
    (Z.lor (Z.shiftl z6 48) (Z.shiftl z7 56)))))))
  = z0 + 256 * (z1 + 256 * (z2 + 256 * (z3 + 256 * (z4 + 256 * (z5 + 256 *
      (z6 + 256 * (z7 + 256 * 0))))))).
Proof.
  intros. rewrite !Z.shiftl_mul_pow2 by lia.
  rewrite (lor_disjoint_add (z6 * 2 ^ 48) z7 56) by lia.
  replace (z6 * 2 ^ 48 + z7 * 2 ^ 56) with ((z6 + z7 * 2 ^ 8) * 2 ^ 48) by ring.
  rewrite (lor_disjoint_add (z5 * 2 ^ 40) _ 48) by lia.
  replace (z5 * 2 ^ 40 + (z6 + z7 * 2 ^ 8) * 2 ^ 48)
    with ((z5 + (z6 + z7 * 2 ^ 8) * 2 ^ 8) * 2 ^ 40) by ring.
  rewrite (lor_disjoint_add (z4 * 2 ^ 32) _ 40) by lia.
  replace (z4 * 2 ^ 32 + (z5 + (z6 + z7 * 2 ^ 8) * 2 ^ 8) * 2 ^ 40)
    with ((z4 + (z5 + (z6 + z7 * 2 ^ 8) * 2 ^ 8) * 2 ^ 8) * 2 ^ 32) by ring.
  rewrite (lor_disjoint_add (z3 * 2 ^ 24) _ 32) by lia.
  replace (z3 * 2 ^ 24 + (z4 + (z5 + (z6 + z7 * 2 ^ 8) * 2 ^ 8) * 2 ^ 8) * 2 ^ 32)
    with ((z3 + (z4 + (z5 + (z6 + z7 * 2 ^ 8) * 2 ^ 8) * 2 ^ 8) * 2 ^ 8) * 2 ^ 24) by ring.
  rewrite (lor_disjoint_add (z2 * 2 ^ 16) _ 24) by lia.
  replace (z2 * 2 ^ 16
           + (z3 + (z4 + (z5 + (z6 + z7 * 2 ^ 8) * 2 ^ 8) * 2 ^ 8) * 2 ^ 8) * 2 ^ 24)
    with ((z2 + (z3 + (z4 + (z5 + (z6 + z7 * 2 ^ 8) * 2 ^ 8) * 2 ^ 8) * 2 ^ 8) * 2 ^ 8)
          * 2 ^ 16) by ring.
  rewrite (lor_disjoint_add (z1 * 2 ^ 8) _ 16) by lia.
  replace (z1 * 2 ^ 8
           + (z2 + (z3 + (z4 + (z5 + (z6 + z7 * 2 ^ 8) * 2 ^ 8) * 2 ^ 8) * 2 ^ 8) * 2 ^ 8)
             * 2 ^ 16)
    with ((z1 + (z2 + (z3 + (z4 + (z5 + (z6 + z7 * 2 ^ 8) * 2 ^ 8) * 2 ^ 8) * 2 ^ 8)
                 * 2 ^ 8) * 2 ^ 8) * 2 ^ 8) by ring.
  rewrite (lor_disjoint_add z0 _ 8) by lia.
  ring.
Qed.

Lemma int64_signed64 x : int64 x = signed64 x.
Proof.
  unfold int64, signed64.
  destruct (Z.ltb_spec x (2 ^ 63)), (Z.leb_spec (2 ^ 63) x); lia.
Qed.

(** ** The trackers and the handler *)

Ltac run :=
  repeat (unfold mbind, mret, Act_bind, Act_ret, get_state, put_state, panic,
            errFatal, notOkErr;
          cbn beta iota).

Lemma addStart_eval t r :
  addStart t r =
    if rt_mux r then Halted HaltBlocked r
    else if IsZero (rt_start r)
         then Done true (mkRoute t (rt_end r) (rt_committees r) false)
         else Done false (mkRoute (rt_start r) (rt_end r) (rt_committees r) false).
Proof.
  unfold addStart, rt_locked, rt_lock, rt_unlock. run.
  destruct (rt_mux r); [done|]. cbn. destruct (IsZero (rt_start r)); done.
Qed.

Lemma addEnd_eval t r :
  addEnd t r =
    if rt_mux r then Halted HaltBlocked r
    else if IsZero (rt_end r)
         then Done true (mkRoute (rt_start r) t (rt_committees r) false)
         else Done false (mkRoute (rt_start r) (rt_end r) (rt_committees r) false).
Proof.
  unfold addEnd, rt_locked, rt_lock, rt_unlock. run.
  destruct (rt_mux r); [done|]. cbn. destruct (IsZero (rt_end r)); done.
Qed.

Section HandlerProperties.
Context {FinalBlock : Type}.
Variable toByte32 : list Byte.byte → Byte32.
Variable bytes32ToString : Byte32 → string.
Variable rangeOrder : gmap Byte32 Time → list (Byte32 * Time).
Implicit Types (st : Coord FinalBlock).

Local Abbreviation handle :=
  (coordinatorDebugStatsHandleConnection toByte32 bytes32ToString rangeOrder).

Lemma slice_eval (b : list Byte.byte) (lo hi : Z) st :
  0 ≤ lo ≤ hi → hi ≤ Z.of_nat (length b) →
  slice b lo hi st = Done (take (Z.to_nat (hi - lo)) (drop (Z.to_nat lo) b)) st.
Proof.
  intros H1 H2. unfold slice.
  replace ((0 <=? lo) && (lo <=? hi) && (hi <=? Z.of_nat (length b))) with true; [done|].
  symmetry. rewrite !andb_true_iff, !Z.leb_le. lia.
Qed.

(** [binary.LittleEndian.Uint64] returns the little-endian value of its
    eight bytes. *)
Lemma LittleEndian_Uint64_le_value b st :
  length b = 8%nat → LittleEndian_Uint64 b st = Done (le_value b) st.
Proof.
  intros Hlen.
  do 8 (destruct b as [|? b]; [discriminate|]). destruct b; [|discriminate].
  cbn [LittleEndian_Uint64 le_value]. unfold mret, Act_ret. f_equal.
  apply lor_bytes; apply byteZ_range.
Qed.

(** A tracker operation acts on the record of [ID], created on demand. *)
Lemma route_op_eval {A} (op : Act routetxresults A) ID st :
  (_ ← routetxmap_add ID; r ← routetxmap_get ID; on_route r op) st =
    match op (default newRoute (rMap st !! ID)) with
    | Done a r' => Done a (set_rMap (<[ID := r']> (rMap st)) st)
    | Halted h r' => Halted h (set_rMap (<[ID := r']> (rMap st)) st)
    end.
Proof.
  unfold routetxmap_add, routetxmap_get, on_route. run.
  destruct (rMap st !! ID) as [r|] eqn:E; cbn; run.
  - rewrite E. cbn. rewrite E. destruct (op r); done.
  - cbn. rewrite lookup_insert_eq. cbn. rewrite lookup_insert_eq.
    destruct (op newRoute); cbn; by rewrite insert_insert_eq.
Qed.

Lemma ida_markStart_eval ID t st :
  ida_markStart ID t st =
    let r := default newIDA (idaresults st !! ID) in
    Done tt (set_idaresults
               (<[ID := mkIDA t (ida_reconstructed r) (ida_mux r)]> (idaresults st)) st).
Proof.
  unfold ida_markStart, IDAGossipResultsMap_add, IDAGossipResultsMap_get, on_ida. run.
  destruct (idaresults st !! ID) as [r|] eqn:E; cbn; run.
  - rewrite E. cbn. by rewrite E.
  - cbn. rewrite lookup_insert_eq. cbn. rewrite lookup_insert_eq. cbn.
    by rewrite insert_insert_eq.
Qed.

(** C3 (the IDA-gossip tracker's markStart is first-write-wins): the code
    assigns [ida.start] unconditionally, so the last report wins.  After
    two [start_ida_gossip] messages for one id, carrying [t1] and then
    [t2], the stored start is [t2], in any state of the coordinator. *)
Theorem C3_start_ida_gossip_last_write_wins now1 now2 st b t1 t2 :
  ∃ st1 st2,
    handle now1 (mkMsg "start_ida_gossip" (PByteArrayAndTimestamp (mkBAT b t1))) st
      = Done tt st1 ∧
    handle now2 (mkMsg "start_ida_gossip" (PByteArrayAndTimestamp (mkBAT b t2))) st1
      = Done tt st2 ∧
    ida_start_of st1 (toByte32 b) = Some t1 ∧
    ida_start_of st2 (toByte32 b) = Some t2.
Proof.
  unfold coordinatorDebugStatsHandleConnection. cbn. run.
  rewrite ida_markStart_eval. eexists. eexists. split; [reflexivity|].
  rewrite ida_markStart_eval. split; [reflexivity|].
  unfold ida_start_of. cbn. rewrite !lookup_insert_eq. done.
Qed.

(** Where the route-tx tracker does keep the first start: when [t1] is not
    the zero time, no start is stored for the id yet and nothing holds the
    mutex of its record. *)
Lemma markStart_keeps_first_nonzero_start st ID t1 t2 :
  IsZero (rt_start (default newRoute (rMap st !! ID))) = true →
  rt_mux (default newRoute (rMap st !! ID)) = false →
  IsZero t1 = false →
  markStart_first_write_wins st ID t1 t2.
Proof.
  intros Hstart Hmux Ht1. unfold markStart_first_write_wins, markStart.
  rewrite route_op_eval, addStart_eval, Hmux, Hstart.
  eexists. eexists. split; [reflexivity|].
  rewrite route_op_eval, addStart_eval. cbn. rewrite lookup_insert_eq. cbn. rewrite Ht1.
  split; [reflexivity|]. unfold start_of. cbn. by rewrite lookup_insert_eq.
Qed.

(** C8 (markStart is first-write-wins for every id and all timestamps):
    [addStart] takes the zero [time.Time] for "not added before".  For a
    transaction id without a record, [markStart(id, zero time)] returns
    true and leaves the start zero, so the next [markStart(id, t2)] returns
    true as well and stores [t2]: the start has been added before and is
    added again, and first-write-wins fails for [t1] the zero time and
    every [t2]. *)
Theorem C8_zero_time_start_is_added_twice st ID t2 :
  rMap st !! ID = None →
  (∃ st1 st2,
     markStart ID 0 st = Done true st1 ∧
     markStart ID t2 st1 = Done true st2 ∧
     start_of st2 ID = Some t2) ∧
  ¬ markStart_first_write_wins st ID 0 t2.
Proof.
  intros Hnone.
  assert (H1 : markStart ID 0 st
               = Done true (set_rMap (<[ID := mkRoute 0 0 None false]> (rMap st)) st)).
  { unfold markStart. rewrite route_op_eval, addStart_eval, Hnone. reflexivity. }
  assert (H2 : markStart ID t2 (set_rMap (<[ID := mkRoute 0 0 None false]> (rMap st)) st)
               = Done true
                   (set_rMap (<[ID := mkRoute t2 0 None false]> (rMap st)) st)).
  { unfold markStart. rewrite route_op_eval, addStart_eval. cbn [rMap set_rMap].
    rewrite lookup_insert_eq. cbn [default from_option id rt_mux rt_start rt_end rt_committees].
    change (IsZero 0) with true. cbn iota.
    by rewrite insert_insert_eq. }
  split.
  - eexists. eexists. split; [exact H1|]. split; [exact H2|].
    unfold start_of. cbn [rMap set_rMap]. by rewrite lookup_insert_eq.
  - intros (st1 & st2 & H1' & H2' & _).
    rewrite H1 in H1'. injection H1' as <-. rewrite H2 in H2'. discriminate.
Qed.

(** C5, amended: for every inbound message whose envelope type is the
    string [transaction_recieved] (the tag as the code spells it), the
    dispatcher invokes the route-tx tracker's markEnd with the carried id
    and timestamp; when that call is the authoritative end-write, the
    record is flushed to sink #4 ([files[3]]) as one line: the Unix time
    of the write, the record and a newline; the message is never treated as
    an unrecognized tag. *)
Theorem C5_transaction_recieved_marks_end now st bat :
  let ID := toByte32 (B bat) in
  let msg := mkMsg "transaction_recieved" (PByteArrayAndTimestamp bat) in
  length (files st) = 6%nat →
  match markEnd ID (T bat) st with
  | Done true st1 =>
      ∃ r st2,
        rMap st1 !! ID = Some r ∧
        handle now msg st = Done tt st2 ∧
        appended 3
          (FormatInt (Unix now) +:+ "," +:+ route_line bytes32ToString rangeOrder r
           +:+ newline)
          st1 st2
  | Done false st1 => handle now msg st = Done tt st1
  | Halted h st1 => h = HaltBlocked ∧ handle now msg st = Halted HaltBlocked st1
  end.
Proof.
  intros ID msg Hfiles.
  destruct (lookup_lt_is_Some_2 (files st) 3) as [written Hw]; [lia|].
  unfold coordinatorDebugStatsHandleConnection. cbn. run. fold ID.
  unfold markEnd. rewrite route_op_eval, addEnd_eval.
  destruct (rt_mux (default newRoute (rMap st !! ID))); [done|].
  destruct (IsZero (rt_end (default newRoute (rMap st !! ID)))); [|done].
  eexists. eexists. split; [cbn; by rewrite lookup_insert_eq|].
  unfold on_route. cbn. rewrite lookup_insert_eq. cbn. rewrite insert_insert_eq.
  unfold writeStringToFile. run. cbn. rewrite Hw.
  split; [reflexivity|]. exists written. split; [done|]. reflexivity.
Qed.

(** C9: a [consensus_accept_fail] payload whose length is not 88 is fatal
    and leaves every sink as it was; a payload of exactly 88 bytes is
    parsed into committeeId (bytes 0-31), pubkeyId (bytes 32-63),
    iteration (little-endian u64 at bytes 64-71), totalVotes (bytes 72-79)
    and received (bytes 80-87), and the line made of the Unix time of the
    write, the five fields, comma-separated and in this order, and a newline
    is appended to sink #6 ([files[5]]); nothing else changes. *)
Theorem C9_consensus_accept_fail now st bat :
  let msg := mkMsg "consensus_accept_fail" (PByteArrayAndTimestamp bat) in
  (length (B bat) ≠ 88%nat →
     ∃ why, handle now msg st = Halted (HaltFatal why) st) ∧
  (length (B bat) = 88%nat → length (files st) = 6%nat →
     ∃ st', handle now msg st = Done tt st' ∧
       appended 5
         (FormatInt (Unix now) +:+ "," +:+ accept_fail_line toByte32 bytes32ToString (B bat)
          +:+ newline)
         st st').
Proof.
  intros msg. split.
  - intros Hlen. eexists. unfold coordinatorDebugStatsHandleConnection. cbn. run.
    destruct (Z.eqb_spec (Z.of_nat (length (B bat))) 88) as [E|E]; [lia|]. cbn.
    reflexivity.
  - intros Hlen Hfiles.
    destruct (lookup_lt_is_Some_2 (files st) 5) as [written Hw]; [lia|].
    eexists. split.
    + unfold coordinatorDebugStatsHandleConnection. cbn. run.
      assert (HlenZ : Z.of_nat (length (B bat)) = 88) by lia.
      rewrite HlenZ. cbn. run.
      rewrite (slice_eval (B bat) 0 32 _) by lia. cbn beta iota.
      rewrite (slice_eval (B bat) 32 64) by lia. cbn beta iota.
      rewrite (slice_eval (B bat) 64 72) by lia. cbn beta iota.
      rewrite LittleEndian_Uint64_le_value
        by (rewrite length_take, length_drop; lia). cbn beta iota.
      rewrite (slice_eval (B bat) 72 80) by lia. cbn beta iota.
      rewrite LittleEndian_Uint64_le_value
        by (rewrite length_take, length_drop; lia). cbn beta iota.
      rewrite (slice_eval (B bat) 80 88) by lia. cbn beta iota.
      rewrite LittleEndian_Uint64_le_value
        by (rewrite length_take, length_drop; lia). cbn beta iota.
      unfold writeStringToFile. run. rewrite Hw. reflexivity.
    + exists written. split; [done|].
      unfold accept_fail_line, field. rewrite !int64_signed64. reflexivity.
Qed.
End HandlerProperties.

(** ** Concrete runs of the handler *)

(** The first [find_node] report for a transaction never returns: [add]
    calls [init] with the record's mutex held, and the record stays locked. *)
Example markHop_fresh_record_blocks :
  match markHop sample_id (replicate 32 (sample_byte 1)) 1 empty_coord with
  | Halted HaltBlocked st => route_unlocked st sample_id = false
  | _ => False
  end.
Proof. vm_compute. reflexivity. Qed.

(** At the failing input of C3 the first-write-wins property is false. *)
Example ida_markStart_not_first_write_wins :
  ¬ ida_markStart_first_write_wins empty_coord sample_id 1 2.
Proof.
  intros (st1 & st2 & H1 & H2 & H3).
  rewrite ida_markStart_eval in H1. injection H1 as <-.
  rewrite ida_markStart_eval in H2. injection H2 as <-.
  unfold ida_start_of in H3. cbn in H3. rewrite !lookup_insert_eq in H3. discriminate.
Qed.

Lemma C8_zero_time_start_is_added_twice_witness :
  rMap empty_coord !! sample_toByte32 sample_id = None ∧
  (∃ st1 st2,
     markStart (sample_toByte32 sample_id) 0 empty_coord = Done true st1 ∧
     markStart (sample_toByte32 sample_id) 5 st1 = Done true st2 ∧
     start_of st2 (sample_toByte32 sample_id) = Some 5) ∧
  ¬ markStart_first_write_wins empty_coord (sample_toByte32 sample_id) 0 5.
Proof.
  split; [apply lookup_empty|].
  apply (C8_zero_time_start_is_added_twice empty_coord (sample_toByte32 sample_id) 5).
  apply lookup_empty.
Defined.

(** C5, counterexample: a message whose type is [transaction_received] is
    an unrecognized tag; the handler ends the process and markEnd is not
    invoked. *)
Lemma C5_transaction_received_counterexample :
  coordinatorDebugStatsHandleConnection sample_toByte32 sample_bytes32ToString
    map_to_list 1
    (mkMsg "transaction_received" (PByteArrayAndTimestamp (mkBAT sample_id 1)))
    empty_coord
  = Halted (HaltFatal "no known message type (coordinator)") empty_coord.
Proof. reflexivity. Qed.

Lemma C5_transaction_recieved_marks_end_witness :
  length (files empty_coord) = 6%nat ∧
  match markEnd (sample_toByte32 sample_id) 5 empty_coord with
  | Done true st1 =>
      ∃ r st2,
        rMap st1 !! sample_toByte32 sample_id = Some r ∧
        coordinatorDebugStatsHandleConnection sample_toByte32 sample_bytes32ToString
          map_to_list 1
          (mkMsg "transaction_recieved" (PByteArrayAndTimestamp (mkBAT sample_id 5)))
          empty_coord
        = Done tt st2 ∧
        appended 3
          (FormatInt (Unix 1) +:+ "," +:+ route_line sample_bytes32ToString map_to_list r
           +:+ newline)
          st1 st2
  | Done false st1 =>
      coordinatorDebugStatsHandleConnection sample_toByte32 sample_bytes32ToString
        map_to_list 1
        (mkMsg "transaction_recieved" (PByteArrayAndTimestamp (mkBAT sample_id 5)))
        empty_coord
      = Done tt st1
  | Halted h st1 =>
      h = HaltBlocked ∧
      coordinatorDebugStatsHandleConnection sample_toByte32 sample_bytes32ToString
        map_to_list 1
        (mkMsg "transaction_recieved" (PByteArrayAndTimestamp (mkBAT sample_id 5)))
        empty_coord
      = Halted HaltBlocked st1
  end.
Proof.
  split; [reflexivity|].
  apply (C5_transaction_recieved_marks_end sample_toByte32 sample_bytes32ToString
           map_to_list 1 empty_coord (mkBAT sample_id 5)).
  reflexivity.
Defined.

Lemma C9_consensus_accept_fail_witness :
  (∃ why,
     coordinatorDebugStatsHandleConnection sample_toByte32 sample_bytes32ToString
       map_to_list 1
       (mkMsg "consensus_accept_fail" (PByteArrayAndTimestamp (mkBAT (sample_payload 87) 1)))
       empty_coord
     = Halted (HaltFatal why) empty_coord) ∧
  (∃ st',
     coordinatorDebugStatsHandleConnection sample_toByte32 sample_bytes32ToString
       map_to_list 1
       (mkMsg "consensus_accept_fail" (PByteArrayAndTimestamp (mkBAT (sample_payload 88) 1)))
       empty_coord
     = Done tt st' ∧
     appended 5
       (FormatInt (Unix 1) +:+ ","
        +:+ accept_fail_line sample_toByte32 sample_bytes32ToString (sample_payload 88)
        +:+ newline)
       empty_coord st').
Proof.
  split.
  - apply (proj1 (C9_consensus_accept_fail sample_toByte32 sample_bytes32ToString
                    map_to_list 1 empty_coord (mkBAT (sample_payload 87) 1))).
    vm_compute. discriminate.
  - apply (proj2 (C9_consensus_accept_fail sample_toByte32 sample_bytes32ToString
                    map_to_list 1 empty_coord (mkBAT (sample_payload 88) 1)));
      vm_compute; reflexivity.
Defined.


(** * Further properties of the code *)

(** ** The assignment pass on every input *)

Lemma index_Ret_inv {A} (s : list A) i x :
  index s i = Ret x → 0 ≤ i ∧ s !! Z.to_nat i = Some x.
Proof.
  unfold index. destruct (Z.ltb_spec i 0); [discriminate|].
  destruct (s !! Z.to_nat i); [|discriminate]. intros [= ->]. split; [lia|done].
Qed.

Lemma store_Ret_inv {A} (s : list A) i x s' :
  store s i x = Ret s' → s' = <[Z.to_nat i := x]> s.
Proof. unfold store. destruct (_ && _); [|discriminate]. by intros [= <-]. Qed.

Lemma index_not_fatal {A} (s : list A) i w : index s i ≠ Fatal w.
Proof. unfold index. destruct (i <? 0); [done|]. by destruct (s !! Z.to_nat i). Qed.

Lemma store_not_fatal {A} (s : list A) i x w : store s i x ≠ Fatal w.
Proof. unfold store. by destruct (_ && _). Qed.

Lemma committee_index_min n m i :
  0 < m ≤ n → n mod m ≤ n / m → 0 ≤ i < n →
  committee_index n m i = Z.min (i / (n / m)) (m - 1).
Proof.
  intros Hm Hr Hi. assert (0 < n / m) by (apply Z.div_str_pos; lia).
  pose proof (Z.div_mod n m ltac:(lia)). pose proof (Z.mod_pos_bound n m ltac:(lia)).
  unfold committee_index. destruct (Z.leb_spec (m * (n / m)) i).
  - assert (i / (n / m) = m) as ->; [|lia].
    symmetry. apply (Z.div_unique i (n / m) m (i - m * (n / m))); lia.
  - assert (i / (n / m) < m) by (apply Z.div_lt_upper_bound; lia). lia.
Qed.

(** X1: when the remainder N mod M is at most the block size floor(N/M),
    the pass completes and node [i] of the slice keeps its key and address
    and receives the id of committee [min(i / floor(N/M), M-1)]: blocks of
    floor(N/M) consecutive nodes, the last committee taking the remainder
    as well. *)
Theorem X1_assign_membership n m committees l :
  0 < m ≤ n → Z.of_nat (length committees) = m → Z.of_nat (length l) = n →
  n mod m ≤ n / m →
  ∃ l', assign n m committees l = Ret l' ∧ length l' = length l ∧
    ∀ (i : nat) nd, l !! i = Some nd →
      ∃ cid,
        committees !! Z.to_nat (Z.min (Z.of_nat i / (n / m)) (m - 1)) = Some cid ∧
        l' !! i = Some (mkNode (Pub nd) (IP nd) cid (honest_at n m (Z.of_nat i))).
Proof.
  intros Hm Hc Hl Hr. eexists. split; [by apply assign_spec|].
  split; [by rewrite length_imap|].
  intros i nd Hnd. pose proof (lookup_lt_Some _ _ _ Hnd) as Hi.
  rewrite list_lookup_imap, Hnd. cbn. unfold assigned.
  rewrite committee_index_min by lia.
  destruct (committees !! _) as [cid|] eqn:Hcid; [by exists cid|].
  apply lookup_ge_None in Hcid. assert (0 < n / m) by (apply Z.div_str_pos; lia).
  assert (0 ≤ Z.of_nat i / (n / m)) by (apply Z.div_pos; lia). lia.
Qed.

Lemma X1_assign_membership_witness :
  0 < 3 ≤ 13 ∧ Z.of_nat (length (sample_committees 3)) = 3 ∧
  Z.of_nat (length (sample_nodes 13)) = 13 ∧ 13 mod 3 ≤ 13 / 3 ∧
  ∃ l', assign 13 3 (sample_committees 3) (sample_nodes 13) = Ret l' ∧
    length l' = length (sample_nodes 13) ∧
    ∀ (i : nat) nd, sample_nodes 13 !! i = Some nd →
      ∃ cid,
        sample_committees 3 !! Z.to_nat (Z.min (Z.of_nat i / (13 / 3)) (3 - 1)) = Some cid ∧
        l' !! i = Some (mkNode (Pub nd) (IP nd) cid (honest_at 13 3 (Z.of_nat i))).
Proof.
  split; [lia|]. split; [reflexivity|]. split; [reflexivity|].
  split; [vm_compute; discriminate|].
  apply (X1_assign_membership 13 3 (sample_committees 3) (sample_nodes 13));
    [lia | reflexivity | reflexivity | vm_compute; discriminate].
Defined.

(** X2: when the remainder N mod M exceeds the block size floor(N/M), the
    pass does not return: the committee cursor is advanced once more inside
    the remainder and [committees[c]] panics. *)
Theorem X2_assign_remainder_panics n m committees l :
  0 < m ≤ n → Z.of_nat (length committees) = m → Z.of_nat (length l) = n →
  n / m < n mod m →
  assign n m committees l = Panic "index out of range".
Proof. intros Hm Hc Hl Hr. by apply assign_panics. Qed.

Lemma X2_assign_remainder_panics_witness :
  0 < 4 ≤ 7 ∧ Z.of_nat (length (sample_committees 4)) = 4 ∧
  Z.of_nat (length (sample_nodes 7)) = 7 ∧ 7 / 4 < 7 mod 4 ∧
  assign 7 4 (sample_committees 4) (sample_nodes 7) = Panic "index out of range".
Proof.
  split; [lia|]. split; [reflexivity|]. split; [reflexivity|].
  split; [vm_compute; reflexivity|].
  apply (X2_assign_remainder_panics 7 4 (sample_committees 4) (sample_nodes 7));
    [lia | reflexivity | reflexivity | vm_compute; reflexivity].
Defined.

(** X3: in each of the first M blocks of floor(N/M) nodes, the node at
    position [p] of block [k] is flagged adversarial exactly when [p] is
    below [floor(npm / d)], less one when [d] divides [npm], with [d = 2]
    for even [k] and [d = 6] for odd [k]: the first f nodes of the block
    are the adversaries. *)
Theorem X3_assign_full_block_flags n m committees l k p nd :
  0 < m ≤ n → Z.of_nat (length committees) = m → Z.of_nat (length l) = n →
  n mod m ≤ n / m →
  0 ≤ k < m → 0 ≤ p < n / m →
  l !! Z.to_nat (k * (n / m) + p) = Some nd →
  ∃ l', assign n m committees l = Ret l' ∧
    l' !! Z.to_nat (k * (n / m) + p)
    = Some (mkNode (Pub nd) (IP nd) (default [] (committees !! Z.to_nat k))
              (negb (p <? spec_adversary_count (n / m) k))).
Proof. intros. by apply assign_block_member. Qed.

Lemma X3_assign_full_block_flags_witness :
  0 < 3 ≤ 12 ∧ Z.of_nat (length (sample_committees 3)) = 3 ∧
  Z.of_nat (length (sample_nodes 12)) = 12 ∧ 12 mod 3 ≤ 12 / 3 ∧
  0 ≤ 2 < 3 ∧ 0 ≤ 0 < 12 / 3 ∧
  sample_nodes 12 !! Z.to_nat (2 * (12 / 3) + 0)
    = Some (mkNode [sample_byte 8] "127.0.0.1:8080" [] false) ∧
  ∃ l', assign 12 3 (sample_committees 3) (sample_nodes 12) = Ret l' ∧
    l' !! Z.to_nat (2 * (12 / 3) + 0)
    = Some (mkNode [sample_byte 8] "127.0.0.1:8080"
              (default [] (sample_committees 3 !! Z.to_nat 2))
              (negb (0 <? spec_adversary_count (12 / 3) 2))).
Proof.
  split; [lia|]. split; [reflexivity|]. split; [reflexivity|].
  split; [vm_compute; discriminate|]. split; [lia|].
  split; [vm_compute; split; [discriminate|reflexivity]|]. split; [reflexivity|].
  apply (X3_assign_full_block_flags 12 3 (sample_committees 3) (sample_nodes 12) 2 0
           (mkNode [sample_byte 8] "127.0.0.1:8080" [] false));
    [lia | reflexivity | reflexivity | vm_compute; discriminate | lia
    | vm_compute; split; [discriminate|reflexivity] | reflexivity].
Defined.

Lemma same_identity_refl l : same_identity l l.
Proof. unfold same_identity. induction l; constructor; auto. Qed.

Lemma same_identity_trans l1 l2 l3 :
  same_identity l1 l2 → same_identity l2 l3 → same_identity l1 l3.
Proof.
  unfold same_identity. intros H. revert l3.
  induction H as [|a b l1 l2 [? ?] _ IH]; intros l3 H3;
    inversion H3 as [|? c ? ? [? ?]]; subst;
    constructor; [split; congruence | auto].
Qed.

Lemma same_identity_insert l i nd cid honest :
  l !! i = Some nd →
  same_identity l (<[i := mkNode (Pub nd) (IP nd) cid honest]> l).
Proof.
  intros Hnd. unfold same_identity.
  rewrite <- (list_insert_id l i nd Hnd) at 1.
  apply Forall2_insert; [apply same_identity_refl | done].
Qed.

Lemma assign_body_identity n npm rest committees i c l c' l' :
  assign_body n npm rest committees i (c, l) = Ret (c', l') → same_identity l l'.
Proof.
  unfold assign_body. intros H.
  destruct (if negb (i =? 0) then _ else _) as [[c2 t]| | |];
    cbn [mbind Outcome_bind] in H; try discriminate.
  destruct (index committees c2) as [cid| | |];
    cbn [mbind Outcome_bind] in H; try discriminate.
  destruct (index l i) as [nd| | |] eqn:Hnd;
    cbn [mbind Outcome_bind] in H; try discriminate.
  unfold store in H. destruct (_ && _); cbn [mbind Outcome_bind] in H; [|discriminate].
  injection H as <- <-.
  apply same_identity_insert. by apply index_Ret_inv in Hnd as [_ ?].
Qed.

Lemma assign_loop_identity n npm rest committees k : ∀ i c l c' l',
  assign_loop n npm rest committees k i (c, l) = Ret (c', l') → same_identity l l'.
Proof.
  induction k as [|k IH]; intros i c l c' l' H; cbn [assign_loop] in H.
  - injection H as <- <-. apply same_identity_refl.
  - destruct (assign_body n npm rest committees i (c, l)) as [[c1 l1]| | |] eqn:Hb;
      cbn [mbind Outcome_bind] in H; try discriminate.
    eapply same_identity_trans; [by eapply assign_body_identity | by eapply IH].
Qed.

Lemma assign_same_identity n m committees l l' :
  assign n m committees l = Ret l' → same_identity l l'.
Proof.
  unfold assign. intros H.
  destruct (go_div n m) as [npm| | |]; cbn [mbind Outcome_bind] in H; try discriminate.
  destruct (go_rem n m) as [rest| | |]; cbn [mbind Outcome_bind] in H; try discriminate.
  destruct (assign_loop _ _ _ _ _ _ _) as [[c1 l1]| | |] eqn:Hloop;
    cbn [mbind Outcome_bind snd] in H; try discriminate.
  injection H as <-. by apply assign_loop_identity in Hloop.
Qed.

(** X4: whatever N, M, the committee ids and the slice are, a pass that
    returns has changed neither the length of the slice nor the key or the
    address of any node: only committee ids and honesty flags are written. *)
Theorem X4_assign_keeps_identity n m committees l l' :
  assign n m committees l = Ret l' →
  length l' = length l ∧
  ∀ (i : nat) nd', l' !! i = Some nd' →
    ∃ nd, l !! i = Some nd ∧ Pub nd' = Pub nd ∧ IP nd' = IP nd.
Proof.
  intros H. apply assign_same_identity in H. unfold same_identity in H.
  split; [symmetry; by eapply Forall2_length|].
  intros i nd' Hnd'.
  destruct (Forall2_lookup_r _ _ _ _ _ H Hnd') as (nd & Hnd & ? & ?). eauto.
Qed.

Lemma X4_assign_keeps_identity_witness :
  assign 12 3 (sample_committees 3) (sample_nodes 12) = Ret sample_assigned ∧
  length sample_assigned = length (sample_nodes 12) ∧
  ∀ (i : nat) nd', sample_assigned !! i = Some nd' →
    ∃ nd, sample_nodes 12 !! i = Some nd ∧ Pub nd' = Pub nd ∧ IP nd' = IP nd.
Proof.
  split; [vm_compute; reflexivity|].
  apply (X4_assign_keeps_identity 12 3 (sample_committees 3) (sample_nodes 12)).
  vm_compute. reflexivity.
Defined.

(** X5: with at least two nodes but fewer nodes than committees the block
    size is zero, and the pass panics on [i % npm] at the second node. *)
Theorem X5_assign_fewer_nodes_panics n m committees l :
  2 ≤ n < m → Z.of_nat (length committees) = m → Z.of_nat (length l) = n →
  assign n m committees l = Panic "integer divide by zero".
Proof.
  intros Hn Hc Hl. unfold assign, go_div, go_rem.
  destruct (Z.eqb_spec m 0); [lia|]. cbn [mbind Outcome_bind].
  rewrite Z.quot_small by lia.
  destruct (Z.to_nat n) as [|[|k]] eqn:Hk; [lia|lia|].
  destruct l as [|nd0 l]; [cbn in Hl; lia|].
  destruct committees as [|c0 cs]; [cbn in Hc; lia|].
  cbn [assign_loop]. unfold assign_body at 1. cbn.
  unfold store. cbn [length].
  destruct (0 <? Z.of_nat (S (length l))) eqn:E; [|apply Z.ltb_ge in E; lia].
  cbn. reflexivity.
Qed.

Lemma X5_assign_fewer_nodes_panics_witness :
  2 ≤ 2 < 3 ∧ Z.of_nat (length (sample_committees 3)) = 3 ∧
  Z.of_nat (length (sample_nodes 2)) = 2 ∧
  assign 2 3 (sample_committees 3) (sample_nodes 2) = Panic "integer divide by zero".
Proof.
  split; [lia|]. split; [reflexivity|]. split; [reflexivity|].
  apply (X5_assign_fewer_nodes_panics 2 3 (sample_committees 3) (sample_nodes 2));
    [lia | reflexivity | reflexivity].
Defined.

(** ** The recount and the checks on every input *)

Lemma total_size_insert cis k ci ci' :
  cis !! k = Some ci →
  total_size (<[k := ci']> cis) = total_size cis - ci_npm ci + ci_npm ci'.
Proof.
  unfold total_size.
  revert k. induction cis as [|c cis IH]; intros [|k] H; try discriminate.
  - injection H as ->. cbn. lia.
  - specialize (IH k H). simpl. simpl in IH. rewrite IH. lia.
Qed.

Lemma total_f_insert cis k ci ci' :
  cis !! k = Some ci →
  total_f (<[k := ci']> cis) = total_f cis - ci_f ci + ci_f ci'.
Proof.
  unfold total_f.
  revert k. induction cis as [|c cis IH]; intros [|k] H; try discriminate.
  - injection H as ->. cbn. lia.
  - specialize (IH k H). simpl. simpl in IH. rewrite IH. lia.
Qed.

Lemma dishonest_bounds l : 0 ≤ dishonest l ≤ Z.of_nat (length l).
Proof.
  induction l as [|nd l IH]; [cbn; lia|].
  change (dishonest (nd :: l)) with ((if IsHonest nd then 0 else 1) + dishonest l).
  cbn [length]. destruct (IsHonest nd); lia.
Qed.

Lemma recount_body_inv nodeInfos i last ic cis last' ic' cis' :
  recount_body nodeInfos i (last, ic, cis) = Ret (last', ic', cis') →
  ∃ nd, 0 ≤ i ∧ nodeInfos !! Z.to_nat i = Some nd ∧
    length cis' = length cis ∧
    total_size cis' = total_size cis + 1 ∧
    total_f cis' = total_f cis + (if IsHonest nd then 0 else 1).
Proof.
  unfold recount_body. intros H.
  destruct (index nodeInfos i) as [nd| | |] eqn:Hnd;
    cbn [mbind Outcome_bind] in H; try discriminate.
  apply index_Ret_inv in Hnd as [Hi Hnd]. exists nd.
  destruct (decide (CommitteeID nd ≠ last)).
  all: destruct (index cis _) as [ci| | |] eqn:Hci;
    cbn [mbind Outcome_bind] in H; try discriminate.
  all: apply index_Ret_inv in Hci as [_ Hci].
  all: destruct (store cis _ _) as [cis1| | |] eqn:Hst;
    cbn [mbind Outcome_bind] in H; try discriminate.
  all: apply store_Ret_inv in Hst; injection H as <- <- <-; subst cis1.
  all: rewrite length_insert, (total_size_insert _ _ ci), (total_f_insert _ _ ci) by done; cbn.
  all: repeat split; try done; try lia; destruct (IsHonest nd); cbn; lia.
Qed.

Lemma recount_loop_inv nodeInfos k : ∀ i st st',
  recount_loop nodeInfos k i st = Ret st' → 0 ≤ i →
  length st'.2 = length st.2 ∧
  total_size st'.2 = total_size st.2 + Z.of_nat k ∧
  total_f st'.2 = total_f st.2 + dishonest (take k (drop (Z.to_nat i) nodeInfos)).
Proof.
  induction k as [|k IH]; intros i st st' H Hi; cbn [recount_loop] in H.
  - injection H as <-. rewrite take_0. change (dishonest []) with 0. repeat split; lia.
  - destruct (recount_body nodeInfos i st) as [st1| | |] eqn:Hb;
      cbn [mbind Outcome_bind] in H; try discriminate.
    destruct st as [[last ic] cis], st1 as [[last1 ic1] cis1].
    apply recount_body_inv in Hb as (nd & _ & Hnd & Hlen & Hs & Hf).
    apply IH in H as (Hlen' & Hs' & Hf'); [|lia]. cbn [snd] in *.
    rewrite Hlen', Hlen, Hs', Hs, Hf', Hf.
    replace (Z.to_nat (i + 1)) with (S (Z.to_nat i)) by lia.
    rewrite (drop_S _ _ _ Hnd). cbn [take dishonest foldr].
    change (foldr _ 0 ?l) with (dishonest l). repeat split; lia.
Qed.

Lemma recount_conserves n m committees nodeInfos cis :
  0 ≤ n →
  recount n m committees nodeInfos = Ret cis →
  length cis = Z.to_nat m ∧
  total_size cis = n ∧
  total_f cis = dishonest (take (Z.to_nat n) nodeInfos).
Proof.
  intros Hn H. unfold recount in H.
  destruct (index committees 0) as [last| | |];
    cbn [mbind Outcome_bind] in H; try discriminate.
  destruct (recount_loop _ _ _ _) as [st'| | |] eqn:Hloop;
    cbn [mbind Outcome_bind] in H; try discriminate.
  injection H as <-. apply recount_loop_inv in Hloop as (Hlen & Hs & Hf); [|lia].
  cbn [snd] in *. rewrite length_replicate in Hlen. split; [done|].
  assert (Hz : ∀ k, total_size (replicate k zeroCommitteeInfo) = 0
                    ∧ total_f (replicate k zeroCommitteeInfo) = 0).
  { induction k as [|k [IH1 IH2]]; [done|].
    split; [change (0 + total_size (replicate k zeroCommitteeInfo) = 0)
           |change (0 + total_f (replicate k zeroCommitteeInfo) = 0)]; lia. }
  destruct (Hz (Z.to_nat m)) as [Hz1 Hz2]. rewrite Hs, Hf, Hz1, Hz2.
  change (Z.to_nat 0) with 0%nat. rewrite drop_0. split; lia.
Qed.

(** X6: a recount that returns has counted every node exactly once,
    whatever committee ids the nodes carry: it yields M records, their
    sizes add up to N and their adversary counts add up to the number of
    nodes flagged adversarial among the first N. *)
Theorem X6_recount_counts_every_node n m committees nodeInfos cis :
  0 ≤ n →
  recount n m committees nodeInfos = Ret cis →
  length cis = Z.to_nat m ∧
  total_size cis = n ∧
  total_f cis = dishonest (take (Z.to_nat n) nodeInfos).
Proof. apply recount_conserves. Qed.

Lemma X6_recount_counts_every_node_witness :
  0 ≤ 12 ∧
  recount 12 3 (sample_committees 3) sample_assigned = Ret sample_recount ∧
  length sample_recount = Z.to_nat 3 ∧
  total_size sample_recount = 12 ∧
  total_f sample_recount = dishonest (take (Z.to_nat 12) sample_assigned).
Proof.
  split; [lia|]. split; [vm_compute; reflexivity|].
  apply (X6_recount_counts_every_node 12 3 (sample_committees 3) sample_assigned);
    [lia | vm_compute; reflexivity].
Defined.

Lemma check_loop_inv npm rest F cis : ∀ t0 t,
  0 ≤ F →
  check_loop npm rest F cis t0 = Ret t →
  t = t0 + total_f cis ∧
  Forall (fun ci => (ci_npm ci = npm ∨ ci_npm ci = npm + rest)
                    ∧ ci_f ci * F < ci_npm ci) cis.
Proof.
  induction cis as [|ci cis IH]; intros t0 t HF H; cbn [check_loop] in H.
  - injection H as <-. cbn. split; [lia|constructor].
  - destruct (negb (ci_npm ci =? npm) && negb (ci_npm ci =? npm + rest)) eqn:Hsize;
      [discriminate|].
    unfold ceil_quotient in H. destruct (Z.eqb_spec F 0); [discriminate|].
    cbn [mbind Outcome_bind] in H.
    destruct (Z.leb_spec ((ci_npm ci + F - 1) / F) (ci_f ci)) as [|Hb]; [discriminate|].
    apply IH in H as [-> Hall]; [|done].
    change (total_f (ci :: cis)) with (ci_f ci + total_f cis).
    split; [lia|]. constructor; [|done]. split.
    + apply andb_false_iff in Hsize as [Hs|Hs]; apply negb_false_iff, Z.eqb_eq in Hs; auto.
    + pose proof (Z.mul_div_le (ci_npm ci + F - 1) F ltac:(lia)). nia.
Qed.

Lemma check_loop_fatal npm rest F cis : ∀ t0 w,
  check_loop npm rest F cis t0 = Fatal w →
  w = "Number of nodes in committee not right"%string ∨
  w = "Comitte has too many adversaries"%string.
Proof.
  induction cis as [|ci cis IH]; intros t0 w H; cbn [check_loop] in H; [discriminate|].
  destruct (_ && _); [injection H as <-; auto|].
  unfold ceil_quotient in H. destruct (F =? 0); [discriminate|].
  cbn [mbind Outcome_bind] in H.
  destruct (_ <=? _); [injection H as <-; auto|]. eauto.
Qed.

Lemma recount_loop_not_fatal nodeInfos k : ∀ i st w,
  recount_loop nodeInfos k i st ≠ Fatal w.
Proof.
  induction k as [|k IH]; intros i st w; cbn [recount_loop]; [done|].
  destruct (recount_body nodeInfos i st) as [st1| | |] eqn:Hb;
    cbn [mbind Outcome_bind]; try done.
  exfalso. destruct st as [[last ic] cis]. unfold recount_body in Hb.
  destruct (index nodeInfos i) as [nd| | |] eqn:Hnd;
    cbn [mbind Outcome_bind] in Hb; try discriminate;
    [|by eapply index_not_fatal].
  destruct (decide (CommitteeID nd ≠ last)).
  all: destruct (index cis _) as [ci| | |] eqn:Hci;
    cbn [mbind Outcome_bind] in Hb; try discriminate;
    [|by eapply index_not_fatal].
  all: destruct (store cis _ _) as [cis1| | |] eqn:Hst;
    cbn [mbind Outcome_bind] in Hb; try discriminate;
    by eapply store_not_fatal.
Qed.

(** X7: what a verification pass that completes guarantees.  Every
    committee record has floor(N/M) or floor(N/M) + N mod M members and
    strictly fewer than size/committeeF adversaries, and the total the pass
    reports is the sum of the records' adversary counts, which is the
    number of nodes flagged adversarial. *)
Theorem X7_verify_guarantees flagArgs committees nodeInfos cis t :
  0 ≤ flag_n flagArgs → 0 ≤ flag_m flagArgs → 0 ≤ flag_committeeF flagArgs →
  verify flagArgs committees nodeInfos = Ret (cis, t) →
  let npm := flag_n flagArgs / flag_m flagArgs in
  let rest := flag_n flagArgs mod flag_m flagArgs in
  Forall (fun ci => (ci_npm ci = npm ∨ ci_npm ci = npm + rest)
                    ∧ ci_f ci * flag_committeeF flagArgs < ci_npm ci) cis ∧
  t = total_f cis ∧
  t = dishonest (take (Z.to_nat (flag_n flagArgs)) nodeInfos).
Proof.
  intros Hn Hm HF H. unfold verify, go_div, go_rem in H.
  destruct (Z.eqb_spec (flag_m flagArgs) 0); [discriminate|].
  cbn [mbind Outcome_bind] in H.
  destruct (recount _ _ _ _) as [cis'| | |] eqn:Hrec;
    cbn [mbind Outcome_bind] in H; try discriminate.
  destruct (check_loop _ _ _ _ _) as [t'| | |] eqn:Hchk;
    cbn [mbind Outcome_bind] in H; try discriminate.
  destruct (check_total flagArgs _) as [[]| | |];
    cbn [mbind Outcome_bind] in H; try discriminate.
  injection H as <- <-.
  apply check_loop_inv in Hchk as [-> Hall]; [|done].
  apply recount_conserves in Hrec as (_ & _ & Hf); [|done].
  rewrite Z.quot_div_nonneg, Z.rem_mod_nonneg in Hall by lia.
  cbn zeta. split; [done|lia].
Qed.

Lemma X7_verify_guarantees_witness :
  0 ≤ flag_n (mkFlagArgs 12 3 3 2) ∧ 0 ≤ flag_m (mkFlagArgs 12 3 3 2) ∧
  0 ≤ flag_committeeF (mkFlagArgs 12 3 3 2) ∧
  verify (mkFlagArgs 12 3 3 2) (sample_committees 3) sample_assigned
    = Ret (sample_recount, 2) ∧
  Forall (fun ci => (ci_npm ci = 12 / 3 ∨ ci_npm ci = 12 / 3 + 12 mod 3)
                    ∧ ci_f ci * 2 < ci_npm ci) sample_recount ∧
  2 = total_f sample_recount ∧
  2 = dishonest (take (Z.to_nat 12) sample_assigned).
Proof.
  split; [cbn; lia|]. split; [cbn; lia|]. split; [cbn; lia|].
  split; [vm_compute; reflexivity|].
  apply (X7_verify_guarantees (mkFlagArgs 12 3 3 2) (sample_committees 3) sample_assigned);
    [cbn; lia | cbn; lia | cbn; lia | vm_compute; reflexivity].
Defined.

(** X8: the verification pass never ends on the aggregate check.  For every
    node list, every committee ids and all non-negative flags, the outcome
    of [verify] is not the fatal error of line 386; the pass returns, stops
    on one of the two per-committee checks, or panics. *)
Theorem X8_verify_never_aborts_on_total flagArgs committees nodeInfos :
  0 ≤ flag_n flagArgs → 0 ≤ flag_totalF flagArgs → 0 ≤ flag_committeeF flagArgs →
  verify flagArgs committees nodeInfos ≠ Fatal "There was too many adversaries in total".
Proof.
  intros Hn HT HF H. unfold verify in H.
  unfold go_div, go_rem in H. destruct (flag_m flagArgs =? 0); [discriminate|].
  cbn [mbind Outcome_bind] in H.
  destruct (recount _ _ _ _) as [cis| | |] eqn:Hrec;
    cbn [mbind Outcome_bind] in H; try discriminate.
  2:{ unfold recount in Hrec.
      destruct (index committees 0) as [last| | |] eqn:Hi;
        cbn [mbind Outcome_bind] in Hrec; try discriminate.
      - destruct (recount_loop _ _ _ _) as [st'| | |] eqn:Hloop;
          cbn [mbind Outcome_bind] in Hrec; try discriminate.
        by eapply recount_loop_not_fatal.
      - by eapply index_not_fatal. }
  destruct (check_loop _ _ _ _ _) as [t| | |] eqn:Hchk;
    cbn [mbind Outcome_bind] in H; try discriminate.
  2:{ injection H as ->. apply check_loop_fatal in Hchk as [?|?]; discriminate. }
  apply check_loop_inv in Hchk as [-> _]; [|done].
  apply recount_conserves in Hrec as (_ & _ & Hf); [|done].
  destruct (check_total flagArgs _) as [[]| | |] eqn:Htot;
    cbn [mbind Outcome_bind] in H; try discriminate.
  revert Htot. apply check_total_never_fatal; [|done].
  rewrite Z.add_0_l, Hf.
  pose proof (dishonest_bounds (take (Z.to_nat (flag_n flagArgs)) nodeInfos)) as Hb.
  rewrite length_take in Hb. lia.
Qed.

Lemma X8_verify_never_aborts_on_total_witness :
  0 ≤ flag_n (mkFlagArgs 39 3 3 2) ∧ 0 ≤ flag_totalF (mkFlagArgs 39 3 3 2) ∧
  0 ≤ flag_committeeF (mkFlagArgs 39 3 3 2) ∧
  verify (mkFlagArgs 39 3 3 2) (sample_committees 3) (sample_nodes 39)
    ≠ Fatal "There was too many adversaries in total".
Proof.
  split; [cbn; lia|]. split; [cbn; lia|]. split; [cbn; lia|].
  apply (X8_verify_never_aborts_on_total (mkFlagArgs 39 3 3 2)); cbn; lia.
Defined.

(** ** The registry, the shuffle and the whole bootstrap *)

Lemma fill_spec registered : ∀ (pre : list NodeAllInfo) (k : nat),
  fill registered (Z.of_nat (length pre)) (pre ++ replicate k zeroNode)
  = if decide (length registered ≤ k)%nat
    then Ret (pre ++ ((fun e => mkNode (fst e) (snd e) [] false) <$> registered)
                  ++ replicate (k - length registered) zeroNode)
    else Panic "index out of range".
Proof.
  induction registered as [|e registered IH]; intros pre k.
  - cbn [fill length fmap list_fmap]. rewrite decide_True by lia. by rewrite Nat.sub_0_r.
  - cbn [fill]. destruct k as [|k].
    + rewrite decide_False by (cbn; lia). unfold index.
      destruct (Z.ltb_spec (Z.of_nat (length pre)) 0); [done|].
      rewrite Nat2Z.id, lookup_ge_None_2 by (rewrite length_app; cbn; lia). done.
    + rewrite (index_Some _ _ zeroNode);
        [|lia|by rewrite Nat2Z.id, lookup_app_r, Nat.sub_diag by lia].
      cbn [mbind Outcome_bind]. rewrite store_in_range by (rewrite length_app; cbn; lia).
      cbn [mbind Outcome_bind]. rewrite Nat2Z.id.
      rewrite insert_app_r_alt, Nat.sub_diag by lia. cbn [replicate insert list_insert].
      change (CommitteeID zeroNode) with (@nil Byte.byte).
      change (IsHonest zeroNode) with false.
      replace (Z.of_nat (length pre) + 1)
        with (Z.of_nat (length (pre ++ [mkNode (fst e) (snd e) [] false])))
        by (rewrite length_app; cbn; lia).
      replace (pre ++ mkNode (fst e) (snd e) [] false :: replicate k zeroNode)
        with ((pre ++ [mkNode (fst e) (snd e) [] false]) ++ replicate k zeroNode)
        by (by rewrite <- app_assoc).
      rewrite IH. cbn [length]. destruct (decide (length registered ≤ k)%nat).
      * rewrite decide_True by lia. cbn [fmap list_fmap]. by rewrite <- !app_assoc.
      * by rewrite decide_False by lia.
Qed.

(** X9: the copy loop over the registry channel.  With at most N pairs on
    the channel, slot [i] of the N-slot slice receives the key and address
    of the i-th pair, in arrival order, and the slots after the last pair
    stay zero-valued; with more than N pairs the loop panics on
    [nodeInfos[N]]. *)
Theorem X9_fill_arrival_order (registered : list (PubKey * string)) (n : nat) :
  fill registered 0 (replicate n zeroNode)
  = if decide (length registered ≤ n)%nat
    then Ret (((fun e => mkNode (fst e) (snd e) [] false) <$> registered)
              ++ replicate (n - length registered) zeroNode)
    else Panic "index out of range".
Proof. apply (fill_spec registered [] n). Qed.

Lemma swap_in_range (l : list NodeAllInfo) (i j : nat) :
  (i < length l)%nat → (j < length l)%nat →
  ∃ l', swap l (Z.of_nat i) (Z.of_nat j) = Ret l' ∧ l' ≡ₚ l ∧ length l' = length l.
Proof.
  intros Hi Hj.
  destruct (lookup_lt_is_Some_2 l i Hi) as [xi Hxi].
  destruct (lookup_lt_is_Some_2 l j Hj) as [xj Hxj].
  unfold swap.
  rewrite (index_Some l (Z.of_nat j) xj); [|lia|rewrite Nat2Z.id; exact Hxj].
  cbn [mbind Outcome_bind].
  rewrite (index_Some l (Z.of_nat i) xi); [|lia|rewrite Nat2Z.id; exact Hxi].
  cbn [mbind Outcome_bind].
  rewrite store_in_range by lia. cbn [mbind Outcome_bind].
  rewrite store_in_range by (rewrite length_insert; lia).
  rewrite !Nat2Z.id. eexists. split; [done|]. split.
  - by apply Permutation_insert_swap.
  - by rewrite !length_insert.
Qed.

Lemma swap_Ret_perm (l l' : list NodeAllInfo) i j :
  swap l i j = Ret l' → l' ≡ₚ l.
Proof.
  unfold swap. intros H.
  destruct (index l j) as [xj| | |] eqn:Hj; cbn [mbind Outcome_bind] in H; try discriminate.
  destruct (index l i) as [xi| | |] eqn:Hi; cbn [mbind Outcome_bind] in H; try discriminate.
  destruct (store l i xj) as [l1| | |] eqn:H1; cbn [mbind Outcome_bind] in H; try discriminate.
  apply index_Ret_inv in Hj as [? Hj]. apply index_Ret_inv in Hi as [? Hi].
  apply store_Ret_inv in H1 as ->. apply store_Ret_inv in H as ->.
  by apply Permutation_insert_swap.
Qed.

Section Generator.
Variable Source : Type.
Variables int31n Int63n : Source → Z → Z * Source.

Lemma Shuffle_loop_perm (i : nat) : ∀ g l,
  draws_in_range int31n → draws_in_range Int63n →
  (i < length l)%nat ∨ (i = 0)%nat →
  ∃ g' l', Shuffle_loop Source int31n Int63n i g l = Ret (g', l') ∧ l' ≡ₚ l.
Proof.
  induction i as [|i IH]; intros g l H31 H63 Hi.
  - cbn. eauto.
  - cbn [Shuffle_loop]. destruct Hi as [Hi|]; [|lia].
    set (d := if 2 ^ 31 - 2 <? Z.of_nat (S i) then Int63n g (Z.of_nat (S i) + 1)
              else int31n g (Z.of_nat (S i) + 1)).
    assert (Hd : 0 ≤ d.1 < Z.of_nat (S i) + 1).
    { unfold d. destruct (_ <? _); [apply H63|apply H31]; lia. }
    destruct d as [j g1]. cbn [fst] in Hd.
    destruct (swap_in_range l (S i) (Z.to_nat j)) as (l1 & Hsw & Hperm & Hlen); [lia|lia|].
    rewrite Z2Nat.id in Hsw by lia. rewrite Hsw. cbn [mbind Outcome_bind].
    destruct (IH g1 l1 H31 H63) as (g' & l' & Hrun & Hp); [lia|].
    exists g', l'. split; [done|]. by rewrite Hp.
Qed.

Lemma Shuffle_loop_Ret_perm (i : nat) : ∀ g l g' l',
  Shuffle_loop Source int31n Int63n i g l = Ret (g', l') → l' ≡ₚ l.
Proof.
  induction i as [|i IH]; intros g l g' l' H; cbn [Shuffle_loop] in H.
  - by injection H as <- <-.
  - destruct (if _ <? _ then _ else _) as [j g1].
    destruct (swap l (Z.of_nat (S i)) j) as [l1| | |] eqn:Hsw;
      cbn [mbind Outcome_bind] in H; try discriminate.
    apply IH in H. apply swap_Ret_perm in Hsw. by rewrite H.
Qed.

(** X10: the shuffle never loses or duplicates a node.  When both draws of
    the generator return a value in [0, n) for every bound n > 0, as
    math/rand documents, [rand.Shuffle] with the swap callback of line 301
    returns, from any generator state and for any slice, a permutation of
    the slice. *)
Theorem X10_Shuffle_permutes g l :
  draws_in_range int31n → draws_in_range Int63n →
  ∃ g' l', Shuffle Source int31n Int63n g l = Ret (g', l') ∧ l' ≡ₚ l.
Proof.
  intros H31 H63. unfold Shuffle. apply Shuffle_loop_perm; [done|done|].
  destruct l; cbn; [right|left]; lia.
Qed.

End Generator.

Lemma lcg_draw_in_range : draws_in_range lcg_draw.
Proof. intros g n Hn. cbn. apply Z.mod_pos_bound. lia. Qed.

Lemma X10_Shuffle_permutes_witness :
  draws_in_range lcg_draw ∧
  ∃ g' l', Shuffle Z lcg_draw lcg_draw 1 (sample_nodes 5) = Ret (g', l')
           ∧ l' ≡ₚ sample_nodes 5.
Proof.
  split; [exact lcg_draw_in_range|].
  apply (X10_Shuffle_permutes Z lcg_draw lcg_draw 1 (sample_nodes 5));
    exact lcg_draw_in_range.
Defined.

Lemma same_identity_fmap l l' : same_identity l l' → identity <$> l' = identity <$> l.
Proof.
  unfold same_identity. induction 1 as [|nd nd' l l' [HP HI] _ IH]; [done|].
  cbn [fmap list_fmap]. f_equal; [|exact IH]. unfold identity. by rewrite HP, HI.
Qed.

Section BootstrapProperties.
Variable Source : Type.
Variable seedSource : Z → Source.
Variables int31n Int63n Intn : Source → Z → Z * Source.
Variable maxId : Z.
Variable getBytes : Z → list Byte.byte.
Variable hash : list Byte.byte → Byte32.

(** X11: a bootstrap that completes hands out exactly the registered nodes.
    Whatever the generator draws and whatever the flags are, if the
    coordinator gets through the verification pass then at most N pairs were
    registered, and the keys and addresses of the N nodes it returns are,
    up to order, the registered pairs followed by one zero-valued pair per
    slot that no node registered for: no registration is lost, duplicated
    or altered by the copy loop, the shuffle and the assignment pass. *)
Theorem X11_coordinator_hands_out_registry g now registered flagArgs nodeInfos cis t :
  coordinator Source seedSource int31n Int63n Intn maxId getBytes hash
    g now registered flagArgs = Ret (nodeInfos, cis, t) →
  (length registered ≤ Z.to_nat (flag_n flagArgs))%nat ∧
  identity <$> nodeInfos
    ≡ₚ registered
       ++ replicate (Z.to_nat (flag_n flagArgs) - length registered) ([], ""%string).
Proof.
  unfold coordinator. intros H.
  pose proof (fill_spec registered [] (Z.to_nat (flag_n flagArgs))) as Hfill.
  cbn [length app] in Hfill. change (Z.of_nat 0) with 0 in Hfill.
  rewrite Hfill in H. clear Hfill.
  destruct (decide _) as [Hlen|]; cbn [mbind Outcome_bind] in H; [|discriminate].
  split; [done|].
  destruct (Shuffle _ _ _ _ _) as [[g1 l1]| | |] eqn:Hsh;
    cbn [mbind Outcome_bind] in H; try discriminate.
  destruct (draw_committees _ _ _ _ _ _ _) as [[g2 cs]| | |];
    cbn [mbind Outcome_bind] in H; try discriminate.
  unfold assign_and_verify in H.
  destruct (assign _ _ _ _) as [l2| | |] eqn:Has;
    cbn [mbind Outcome_bind] in H; try discriminate.
  destruct (verify _ _ _) as [[cis' t']| | |];
    cbn [mbind Outcome_bind] in H; try discriminate.
  inversion H; subst; clear H.
  apply assign_same_identity, same_identity_fmap in Has. rewrite Has.
  apply Shuffle_loop_Ret_perm in Hsh. rewrite Hsh.
  rewrite fmap_app, fmap_replicate, <- list_fmap_compose.
  apply Permutation_app; [|done].
  rewrite (list_fmap_ext (identity ∘ _) id registered); [by rewrite list_fmap_id|].
  by intros ? [? ?] ?.
Qed.

End BootstrapProperties.

Lemma X11_coordinator_hands_out_registry_witness :
  coordinator Z lcg_seed lcg_draw lcg_draw lcg_draw 65536 sample_getBytes sample_toByte32
    (lcg_seed 1337) 42 (sample_registered 12) (mkFlagArgs 12 3 3 2)
  = Ret (sample_bootstrap.1.1, sample_bootstrap.1.2, sample_bootstrap.2) ∧
  (length (sample_registered 12) ≤ Z.to_nat (flag_n (mkFlagArgs 12 3 3 2)))%nat ∧
  identity <$> sample_bootstrap.1.1
    ≡ₚ sample_registered 12
       ++ replicate (Z.to_nat (flag_n (mkFlagArgs 12 3 3 2)) - length (sample_registered 12))
            ([], ""%string).
Proof.
  split; [vm_compute; reflexivity|].
  apply (X11_coordinator_hands_out_registry Z lcg_seed lcg_draw lcg_draw lcg_draw 65536
           sample_getBytes sample_toByte32 (lcg_seed 1337) 42 (sample_registered 12)
           (mkFlagArgs 12 3 3 2) sample_bootstrap.1.1 sample_bootstrap.1.2 sample_bootstrap.2).
  vm_compute. reflexivity.
Defined.

(** ** The address rewrite of the handshake handler *)

Lemma IndexByte_absent s c :
  ¬ In c (String.list_ascii_of_string s) → IndexByte s c = -1.
Proof.
  induction s as [|a s IH]; cbn [IndexByte String.list_ascii_of_string]; [done|].
  intros Hin. destruct (Ascii.eqb_spec a c) as [->|_]; [destruct Hin; by left|].
  rewrite IH by (intros ?; apply Hin; by right). done.
Qed.

Lemma IndexByte_first host c rest :
  ¬ In c (String.list_ascii_of_string host) →
  IndexByte (host +:+ String c rest) c = Z.of_nat (String.length host).
Proof.
  induction host as [|a host IH]; intros Hin.
  - change (IndexByte (String c rest) c = 0). cbn [IndexByte]. by rewrite Ascii.eqb_refl.
  - change (IndexByte (String a (host +:+ String c rest)) c
            = Z.of_nat (S (String.length host))).
    cbn [IndexByte]. cbn [String.list_ascii_of_string] in Hin.
    destruct (Ascii.eqb_spec a c) as [->|_]; [destruct Hin; by left|].
    rewrite IH by (intros ?; apply Hin; by right).
    destruct (Z.ltb_spec (Z.of_nat (String.length host)) 0); lia.
Qed.

Lemma substring_prefix host s :
  String.substring 0 (String.length host) (host +:+ s) = host.
Proof.
  induction host as [|a host IH].
  - change (String.substring 0 0 s = ""%string). by destruct s.
  - change (String.substring 0 (S (String.length host)) (String a (host +:+ s))
            = String a host).
    cbn [String.substring]. by rewrite IH.
Qed.

Lemma length_append_le host s :
  (String.length host ≤ String.length (host +:+ s))%nat.
Proof.
  induction host as [|a host IH]; [cbn; lia|].
  change (S (String.length host) ≤ S (String.length (host +:+ s)))%nat. lia.
Qed.

(** X12: the address the coordinator registers for a node is the remote
    address cut at its first colon, followed by a colon and the port the
    node advertised: for a remote address [host:rest] whose [host] has no
    colon, whatever [rest] is, the result is [host:Port]. *)
Theorem X12_clientAddr_replaces_port host rest Port :
  ¬ In colon (String.list_ascii_of_string host) →
  clientAddr (host +:+ ":" +:+ rest) Port = Ret (host +:+ ":" +:+ FormatInt Port).
Proof.
  intros Hin. unfold clientAddr, string_prefix.
  change (":" +:+ rest)%string with (String colon rest).
  rewrite IndexByte_first by done.
  pose proof (length_append_le host (String colon rest)).
  destruct (Z.leb_spec 0 (Z.of_nat (String.length host))); [|lia].
  destruct (Z.leb_spec (Z.of_nat (String.length host))
              (Z.of_nat (String.length (host +:+ String colon rest)))); [|lia].
  cbn [andb mbind Outcome_bind]. by rewrite Nat2Z.id, substring_prefix.
Qed.

Lemma X12_clientAddr_replaces_port_witness :
  ¬ In colon (String.list_ascii_of_string "192.168.1.7") ∧
  clientAddr ("192.168.1.7" +:+ ":" +:+ "51234") 8081
  = Ret ("192.168.1.7" +:+ ":" +:+ FormatInt 8081).
Proof.
  split; [vm_compute; intuition discriminate|].
  apply (X12_clientAddr_replaces_port "192.168.1.7" "51234" 8081).
  vm_compute; intuition discriminate.
Defined.

(** An IPv6 remote address is cut at the first colon of the address
    itself. *)
Example clientAddr_ipv6 : clientAddr "[::1]:51234" 8081 = Ret "[:8081"%string.
Proof. vm_compute. reflexivity. Qed.

(** X13: a remote address without any colon makes the handshake handler
    panic: [strings.IndexByte] returns -1 and [clientAddr[:-1]] is out of
    range. *)
Theorem X13_clientAddr_without_colon_panics remoteAddr Port :
  ¬ In colon (String.list_ascii_of_string remoteAddr) →
  clientAddr remoteAddr Port = Panic "slice bounds out of range".
Proof.
  intros Hin. unfold clientAddr, string_prefix. by rewrite IndexByte_absent.
Qed.

Lemma X13_clientAddr_without_colon_panics_witness :
  ¬ In colon (String.list_ascii_of_string "@") ∧
  clientAddr "@" 8081 = Panic "slice bounds out of range".
Proof.
  split; [vm_compute; intuition discriminate|].
  apply (X13_clientAddr_without_colon_panics "@" 8081).
  vm_compute; intuition discriminate.
Defined.

(** ** The consensus counters *)

Lemma wrap_int_small x : - 2 ^ 63 ≤ x < 2 ^ 63 → wrap_int x = x.
Proof. intros H. unfold wrap_int. rewrite Z.mod_small by lia. lia. Qed.

Lemma count_tag_cons tag t tags :
  count_tag tag (t :: tags) = (if String.eqb t tag then 1 else 0) + count_tag tag tags.
Proof.
  unfold count_tag. rewrite filter_cons.
  destruct (String.eqb_spec t tag) as [->|Hne].
  - rewrite decide_True by done. cbn [length]. lia.
  - rewrite decide_False by done. lia.
Qed.

Lemma consensus_counts tags : ∀ r,
  0 ≤ echos r → 0 ≤ pending r → 0 ≤ accepts r →
  echos r + Z.of_nat (length tags) < 2 ^ 63 →
  pending r + Z.of_nat (length tags) < 2 ^ 63 →
  accepts r + Z.of_nat (length tags) < 2 ^ 63 →
  foldl (fun r tag => coordinatorHandleConsensus tag r) r tags
  = mkConsensusResult (echos r + count_tag "echo" tags)
      (pending r + count_tag "pending" tags) (accepts r + count_tag "accept" tags).
Proof.
  induction tags as [|t tags IH]; intros r He Hp Ha He' Hp' Ha'.
  - destruct r. unfold count_tag. cbn. f_equal; lia.
  - cbn [foldl length] in *. rewrite !count_tag_cons.
    unfold coordinatorHandleConsensus at 2.
    destruct (String.eqb_spec t "echo") as [->|?];
      [|destruct (String.eqb_spec t "pending") as [->|?];
        [|destruct (String.eqb_spec t "accept") as [->|?]]].
    all: rewrite IH; cbn [echos pending accepts]; rewrite ?wrap_int_small by lia;
      try lia; cbn [String.eqb Ascii.eqb Bool.eqb]; try (f_equal; lia).
Qed.

(** X14: called once per tag of a sequence on zeroed counters, the consensus
    handler leaves in [echos], [pending] and [accepts] the number of
    ["echo"], ["pending"] and ["accept"] tags of the sequence; every other
    tag is ignored.  (Below 2^63 calls the counters do not wrap.) *)
Theorem X14_consensus_counters_count_tags tags :
  Z.of_nat (length tags) < 2 ^ 63 →
  foldl (fun r tag => coordinatorHandleConsensus tag r) (mkConsensusResult 0 0 0) tags
  = mkConsensusResult (count_tag "echo" tags) (count_tag "pending" tags)
      (count_tag "accept" tags).
Proof. intros H. rewrite consensus_counts; cbn [echos pending accepts]; try lia. done. Qed.

Lemma X14_consensus_counters_count_tags_witness :
  Z.of_nat (length ["echo"; "accept"; "echo"; "prepare"; "pending"]%string) < 2 ^ 63 ∧
  foldl (fun r tag => coordinatorHandleConsensus tag r) (mkConsensusResult 0 0 0)
    ["echo"; "accept"; "echo"; "prepare"; "pending"]%string
  = mkConsensusResult
      (count_tag "echo" ["echo"; "accept"; "echo"; "prepare"; "pending"]%string)
      (count_tag "pending" ["echo"; "accept"; "echo"; "prepare"; "pending"]%string)
      (count_tag "accept" ["echo"; "accept"; "echo"; "prepare"; "pending"]%string).
Proof.
  split; [cbn; lia|].
  apply (X14_consensus_counters_count_tags
           ["echo"; "accept"; "echo"; "prepare"; "pending"]%string).
  cbn; lia.
Defined.

(** ** The debug/stats handler on every message *)

Lemma preserves_bind {S A R} (P : S → Prop) (m : Act S A) (k : A → Act S R) :
  preserves P m → (∀ a, preserves P (k a)) → preserves P (m ≫= k).
Proof.
  intros Hm Hk s Hs. specialize (Hm s Hs). unfold mbind, Act_bind.
  destruct (m s) as [a s'|h s']; cbn in *; [by apply Hk|done].
Qed.

Lemma preserves_ret {S A} (P : S → Prop) (a : A) : preserves P (mret a).
Proof. by intros s Hs. Qed.

Lemma preserves_errFatal {S A} (P : S → Prop) why : preserves P (@errFatal S A why).
Proof. by intros s Hs. Qed.

Lemma preserves_panic {S A} (P : S → Prop) why : preserves P (@panic S A why).
Proof. by intros s Hs. Qed.

Lemma preserves_notOkErr {S} (P : S → Prop) ok why : preserves P (@notOkErr S ok why).
Proof. destruct ok; [apply preserves_ret | apply preserves_errFatal]. Qed.

Lemma preserves_get_bind {S R} (P : S → Prop) (k : S → Act S R) :
  (∀ s, P s → P (run_state (k s s))) → preserves P (get_state ≫= k).
Proof. intros Hk s Hs. by apply Hk. Qed.

Lemma string_app_nil_r (s : string) : (s +:+ "")%string = s.
Proof.
  induction s as [|a s IH]; [done|].
  change (String a (s +:+ "") = String a s). by rewrite IH.
Qed.

Lemma string_app_assoc (s1 s2 s3 : string) :
  ((s1 +:+ s2) +:+ s3 = s1 +:+ (s2 +:+ s3))%string.
Proof.
  induction s1 as [|a s1 IH]; [done|].
  change (String a ((s1 +:+ s2) +:+ s3) = String a (s1 +:+ (s2 +:+ s3))). by rewrite IH.
Qed.

Lemma routetxresults_init_eval r :
  routetxresults_init r =
    if rt_mux r then Halted HaltBlocked r
    else Done tt (mkRoute (rt_start r) (rt_end r)
                    (Some (default ∅ (rt_committees r))) false).
Proof.
  unfold routetxresults_init, rt_locked, rt_lock, rt_unlock. run.
  destruct r as [s e [cs|] [|]]; done.
Qed.

Lemma routetxresults_add_eval cId tim r :
  routetxresults_add cId tim r =
    if rt_mux r then Halted HaltBlocked r
    else match rt_committees r with
         | None => Halted HaltBlocked (mkRoute (rt_start r) (rt_end r) None true)
         | Some cs =>
             if bool_decide (is_Some (cs !! cId))
             then Done false (mkRoute (rt_start r) (rt_end r) (Some cs) false)
             else Done true (mkRoute (rt_start r) (rt_end r) (Some (<[cId := tim]> cs)) false)
         end.
Proof.
  unfold routetxresults_add, routetxresults_init, rt_store, rt_locked, rt_lock, rt_unlock.
  unfold mbind, mret, Act_bind, Act_ret, get_state, put_state, panic.
  destruct r as [s e [cs|] [|]]; cbn; try done.
  destruct (bool_decide (is_Some (cs !! cId))); done.
Qed.

Lemma addReconstructed_eval t r :
  addReconstructed t r =
    if ida_mux r then Halted HaltBlocked r
    else if (length (ida_reconstructed r) =? 0)%nat
         then Done true (mkIDA (ida_start r) [t] false)
         else Done false (mkIDA (ida_start r) (ida_reconstructed r ++ [t]) false).
Proof.
  unfold addReconstructed, ida_lock, ida_unlock. run.
  destruct (ida_mux r); [done|]. cbn. by destruct (_ =? _)%nat.
Qed.

(** X17: [add] needs [init] first.  On a fresh record, whose hop map is
    nil, [add] never returns: it calls [init] while it holds the mutex and
    [init] locks the mutex again, so the call blocks with the mutex held.
    Once [init] has run, [add] records the first timestamp of a committee
    and returns true, and a second [add] for the same committee returns
    false and leaves the first timestamp in place. *)
Theorem X17_add_deadlocks_unless_initialised cId t1 t2 r :
  rt_committees r = None → rt_mux r = false →
  routetxresults_add cId t1 r
    = Halted HaltBlocked (mkRoute (rt_start r) (rt_end r) None true) ∧
  ∃ r0 r1 r2,
    routetxresults_init r = Done tt r0 ∧
    routetxresults_add cId t1 r0 = Done true r1 ∧
    routetxresults_add cId t2 r1 = Done false r2 ∧
    r2 = mkRoute (rt_start r) (rt_end r) (Some {[cId := t1]}) false.
Proof.
  intros Hc Hm. split.
  - by rewrite routetxresults_add_eval, Hm, Hc.
  - eexists _, _, _. rewrite routetxresults_init_eval, Hm, Hc.
    split; [reflexivity|]. rewrite routetxresults_add_eval. cbn.
    rewrite lookup_empty, bool_decide_false by (by intros [? ?]).
    split; [reflexivity|]. rewrite routetxresults_add_eval. cbn.
    rewrite lookup_insert_eq, bool_decide_true by done.
    split; [reflexivity|]. by rewrite insert_empty.
Qed.

Lemma X17_add_deadlocks_unless_initialised_witness :
  rt_committees newRoute = None ∧ rt_mux newRoute = false ∧
  routetxresults_add sample_id 1 newRoute
    = Halted HaltBlocked (mkRoute (rt_start newRoute) (rt_end newRoute) None true) ∧
  ∃ r0 r1 r2,
    routetxresults_init newRoute = Done tt r0 ∧
    routetxresults_add sample_id 1 r0 = Done true r1 ∧
    routetxresults_add sample_id 2 r1 = Done false r2 ∧
    r2 = mkRoute (rt_start newRoute) (rt_end newRoute) (Some {[sample_id := 1]}) false.
Proof.
  split; [reflexivity|]. split; [reflexivity|].
  apply (X17_add_deadlocks_unless_initialised sample_id 1 2 newRoute); reflexivity.
Defined.

Lemma files_extend_refl {FinalBlock} (st : Coord FinalBlock) : files_extend st st.
Proof.
  split; [done|]. intros k w Hw. exists ""%string. by rewrite string_app_nil_r.
Qed.

Section TelemetryProperties.
Context {FinalBlock : Type}.
Variable toByte32 : list Byte.byte → Byte32.
Variable bytes32ToString : Byte32 → string.
Variable rangeOrder : gmap Byte32 Time → list (Byte32 * Time).
Implicit Types (st : Coord FinalBlock).

Local Abbreviation handle :=
  (coordinatorDebugStatsHandleConnection toByte32 bytes32ToString rangeOrder).

Lemma preserves_slice (P : Coord FinalBlock → Prop) b lo hi : preserves P (slice b lo hi).
Proof. unfold slice. destruct (_ && _); [apply preserves_ret | apply preserves_panic]. Qed.

Lemma preserves_LittleEndian_Uint64 (P : Coord FinalBlock → Prop) b :
  preserves P (LittleEndian_Uint64 (FinalBlock:=FinalBlock) b).
Proof.
  unfold LittleEndian_Uint64.
  do 8 (destruct b as [|? b]; [apply preserves_panic|]). apply preserves_ret.
Qed.

(** A handler keeps [P] as soon as the operations its case performs on the
    shared state do. *)
Lemma handler_preserves (P : Coord FinalBlock → Prop) now msg :
  (Typ msg = "finalblock"%string → ∀ st b,
     P st → P (mkCoord (files st) (finalBlockChan st ++ [b]) (rMap st) (idaresults st))) →
  (∀ now s k, sink_of (Typ msg) = Some k → preserves P (writeStringToFile now s k)) →
  (Typ msg = "routetx"%string → ∀ ID t, preserves P (markStart ID t)) →
  (Typ msg = "find_node"%string → ∀ ID c t, preserves P (markHop ID c t)) →
  (Typ msg = "transaction_recieved"%string → ∀ ID t, preserves P (markEnd ID t)) →
  (Typ msg = "transaction_recieved"%string →
     ∀ ID, preserves P (on_route (Some ID) get_state)) →
  (Typ msg = "start_ida_gossip"%string → ∀ ID t, preserves P (ida_markStart ID t)) →
  (Typ msg = "reconstructed_ida_gossip"%string →
     ∀ ID t, preserves P (appendReconstructed ID t)) →
  (Typ msg = "reconstructed_ida_gossip"%string →
     ∀ ID, preserves P
             (on_ida (Some ID) (_ ← ida_lock; r ← get_state; _ ← ida_unlock; mret r))) →
  preserves P (handle now msg).
Proof.
  destruct msg as [typ p]. cbn [Typ].
  intros Hq Hw Hs Hh He Hr Hi Ha Hl.
  unfold coordinatorDebugStatsHandleConnection, writeIntToFile. cbn [Typ Msg'].
  repeat match goal with
         | |- preserves _ (if String.eqb typ ?b then _ else _) =>
             destruct (String.eqb_spec typ b) as [->|?]
         end.
  all: repeat first
    [ apply preserves_ret | apply preserves_errFatal | apply preserves_notOkErr
    | apply preserves_slice | apply preserves_LittleEndian_Uint64
    | apply Hw; reflexivity
    | apply (Hs eq_refl) | apply (Hh eq_refl) | apply (He eq_refl) | apply (Hr eq_refl)
    | apply (Hi eq_refl) | apply (Ha eq_refl) | apply (Hl eq_refl)
    | apply preserves_get_bind; intros s HPs; destruct o; cbn; [by apply (Hq eq_refl) | done]
    | apply preserves_bind; [|intros ?]
    | match goal with |- preserves _ (if ?b then _ else _) => destruct b end
    | match goal with |- preserves _ (let '(_, _) := ?x in _) => destruct x as [? ?] end
    | match goal with |- preserves _ (match ?x with _ => _ end) => destruct x as [? ?] end ].
Qed.

Lemma ida_op_eval {A} (op : Act IDAGossipResults A) ID st :
  (_ ← IDAGossipResultsMap_add ID; r ← IDAGossipResultsMap_get ID; on_ida r op) st =
    match op (default newIDA (idaresults st !! ID)) with
    | Done a r' => Done a (set_idaresults (<[ID := r']> (idaresults st)) st)
    | Halted h r' => Halted h (set_idaresults (<[ID := r']> (idaresults st)) st)
    end.
Proof.
  unfold IDAGossipResultsMap_add, IDAGossipResultsMap_get, on_ida.
  unfold mbind, mret, Act_bind, Act_ret, get_state, put_state.
  destruct (idaresults st !! ID) as [r|] eqn:E; cbn.
  - rewrite E. cbn. rewrite E. destruct (op r); done.
  - rewrite lookup_insert_eq. cbn. rewrite lookup_insert_eq.
    destruct (op newIDA); cbn; by rewrite insert_insert_eq.
Qed.

Lemma route_op_state {A} (op : Act routetxresults A) ID st :
  run_state ((_ ← routetxmap_add ID; r ← routetxmap_get ID; on_route r op) st)
  = set_rMap (<[ID := run_state (op (default newRoute (rMap st !! ID)))]> (rMap st)) st.
Proof. rewrite route_op_eval. by destruct (op _). Qed.

Lemma ida_op_state {A} (op : Act IDAGossipResults A) ID st :
  run_state ((_ ← IDAGossipResultsMap_add ID; r ← IDAGossipResultsMap_get ID; on_ida r op) st)
  = set_idaresults
      (<[ID := run_state (op (default newIDA (idaresults st !! ID)))]> (idaresults st)) st.
Proof. rewrite ida_op_eval. by destruct (op _). Qed.

Lemma on_route_state {A} (op : Act routetxresults A) ID st :
  run_state (on_route (Some ID) op st)
  = match rMap st !! ID with
    | Some r => set_rMap (<[ID := run_state (op r)]> (rMap st)) st
    | None => st
    end.
Proof. unfold on_route. destruct (rMap st !! ID) as [r|]; [|done]. by destruct (op r). Qed.

Lemma on_ida_state {A} (op : Act IDAGossipResults A) ID st :
  run_state (on_ida (Some ID) op st)
  = match idaresults st !! ID with
    | Some r => set_idaresults (<[ID := run_state (op r)]> (idaresults st)) st
    | None => st
    end.
Proof. unfold on_ida. destruct (idaresults st !! ID) as [r|]; [|done]. by destruct (op r). Qed.

Lemma writeStringToFile_state now s k st :
  run_state (writeStringToFile now s k st)
  = match files st !! k with
    | Some written =>
        set_files (<[k := written +:+ prepareResultString now s]> (files st)) st
    | None => st
    end.
Proof.
  unfold writeStringToFile, mbind, Act_bind, get_state, put_state, panic.
  by destruct (files st !! k).
Qed.

Lemma writeStringToFile_Done now s k st a st' :
  writeStringToFile now s k st = Done a st' →
  rMap st' = rMap st ∧ idaresults st' = idaresults st.
Proof.
  unfold writeStringToFile. run. destruct (files st !! k); [|done]. by intros [= _ <-].
Qed.

Lemma set_rMap_id st ID r : rMap st !! ID = Some r → set_rMap (<[ID := r]> (rMap st)) st = st.
Proof. intros E. rewrite (insert_id _ _ _ E). by destruct st. Qed.

Lemma slice_state b lo hi st a st' : slice b lo hi st = Done a st' → st' = st.
Proof. unfold slice. destruct (_ && _); [|done]. by intros [= _ <-]. Qed.

(** *** No hop map is ever created *)

(** Route operations that keep a nil hop map nil keep [hop_maps_nil]. *)
Lemma route_op_hop_maps_nil {A} (op : Act routetxresults A) ID :
  (∀ r, rt_committees r = None → rt_committees (run_state (op r)) = None) →
  preserves (@hop_maps_nil FinalBlock)
    (_ ← routetxmap_add ID; r ← routetxmap_get ID; on_route r op).
Proof.
  intros Hop st Hst. rewrite route_op_state. intros ID' r'. cbn.
  destruct (decide (ID = ID')) as [<-|Hne].
  - rewrite lookup_insert_eq. intros [= <-]. apply Hop.
    destruct (rMap st !! ID) as [r|] eqn:E; cbn; [by eapply Hst|done].
  - rewrite lookup_insert_ne by done. apply Hst.
Qed.

Lemma handler_hop_maps_nil now msg : preserves (@hop_maps_nil FinalBlock) (handle now msg).
Proof.
  apply handler_preserves.
  - intros _ st b Hst. exact Hst.
  - intros now' s k _ st Hst. rewrite writeStringToFile_state.
    by destruct (files st !! k).
  - intros _ ID t. apply route_op_hop_maps_nil. intros r Hr. rewrite addStart_eval.
    destruct (rt_mux r); [done|]. by destruct (IsZero _).
  - intros _ ID c t. apply route_op_hop_maps_nil. intros r Hr.
    rewrite routetxresults_add_eval. destruct (rt_mux r); [done|]. by rewrite Hr.
  - intros _ ID t. apply route_op_hop_maps_nil. intros r Hr. rewrite addEnd_eval.
    destruct (rt_mux r); [done|]. by destruct (IsZero _).
  - intros _ ID st Hst. rewrite on_route_state.
    destruct (rMap st !! ID) as [r|] eqn:E; [|done]. cbn.
    by rewrite (insert_id _ _ _ E).
  - intros _ ID t st Hst. unfold ida_markStart. by rewrite ida_op_state.
  - intros _ ID t st Hst. unfold appendReconstructed. by rewrite ida_op_state.
  - intros _ ID st Hst. rewrite on_ida_state. by destruct (idaresults st !! ID).
Qed.

Lemma reachable_hop_maps_nil st :
  reachable toByte32 bytes32ToString rangeOrder st → hop_maps_nil st.
Proof.
  induction 1 as [fs queue|st st' now msg _ IH Hrun|st st' now msg _ IH Hrun].
  - intros ID r. cbn. by rewrite lookup_empty.
  - pose proof (handler_hop_maps_nil now msg st IH) as H. by rewrite Hrun in H.
  - pose proof (handler_hop_maps_nil now msg st IH) as H. by rewrite Hrun in H.
Qed.

(** A [find_node] message on a state without hop maps: the handler blocks
    in [add], holding the mutex of the transaction's record. *)
Lemma find_node_eval now tuple st :
  hop_maps_nil st → (32 ≤ length (B tuple))%nat →
  let ID := toByte32 (take 32 (B tuple)) in
  let r := default newRoute (rMap st !! ID) in
  handle now (mkMsg "find_node" (PByteArrayAndTimestamp tuple)) st
  = Halted HaltBlocked
      (set_rMap (<[ID := mkRoute (rt_start r) (rt_end r) None true]> (rMap st)) st).
Proof.
  intros Hnil Hlen ID r.
  unfold coordinatorDebugStatsHandleConnection. cbn. run.
  rewrite slice_eval by lia. rewrite slice_eval by lia. cbn.
  change (Z.to_nat (32 - 0)) with 32%nat. change (Z.to_nat 0) with 0%nat.
  rewrite drop_0. fold ID.
  unfold markHop. rewrite route_op_eval, routetxresults_add_eval. fold r.
  assert (Hc : rt_committees r = None).
  { unfold r. destruct (rMap st !! ID) as [r0|] eqn:E; cbn; [by eapply Hnil|done]. }
  rewrite Hc. destruct (rt_mux r) eqn:Hm; [|done].
  f_equal. f_equal. f_equal. destruct r; cbn in *. by subst.
Qed.

(** While the mutex of a route-tx record is held, every message for its
    transaction id blocks, and leaves the state as it is. *)
Lemma locked_record_blocks st ID r now :
  rMap st !! ID = Some r → rt_mux r = true →
  (∀ bat, toByte32 (B bat) = ID →
     handle now (mkMsg "routetx" (PByteArrayAndTimestamp bat)) st = Halted HaltBlocked st ∧
     handle now (mkMsg "transaction_recieved" (PByteArrayAndTimestamp bat)) st
       = Halted HaltBlocked st) ∧
  (∀ tuple, (32 ≤ length (B tuple))%nat → toByte32 (take 32 (B tuple)) = ID →
     handle now (mkMsg "find_node" (PByteArrayAndTimestamp tuple)) st
       = Halted HaltBlocked st).
Proof.
  intros Hrec Hmux. pose proof (set_rMap_id st ID r Hrec) as Hid.
  split; [intros bat Hbat; split|intros tuple Hlen Htuple].
  - unfold coordinatorDebugStatsHandleConnection. cbn. run. rewrite Hbat.
    unfold markStart. rewrite route_op_eval, addStart_eval, Hrec.
    change (default newRoute (Some r)) with r.
    rewrite Hmux. by rewrite Hid.
  - unfold coordinatorDebugStatsHandleConnection. cbn. run. rewrite Hbat.
    unfold markEnd. rewrite route_op_eval, addEnd_eval, Hrec.
    change (default newRoute (Some r)) with r.
    rewrite Hmux. by rewrite Hid.
  - unfold coordinatorDebugStatsHandleConnection. cbn. run.
    rewrite slice_eval by lia. rewrite slice_eval by lia. cbn.
    change (Z.to_nat (32 - 0)) with 32%nat. change (Z.to_nat 0) with 0%nat.
    rewrite drop_0, Htuple.
    unfold markHop. rewrite route_op_eval, routetxresults_add_eval, Hrec.
    change (default newRoute (Some r)) with r.
    rewrite Hmux. by rewrite Hid.
Qed.

(** X15: one [find_node] message stalls its transaction.  In every state
    the debug/stats loop can reach, the handler of a [find_node] message
    with at least 32 payload bytes blocks for ever, and it does so holding
    the mutex of the transaction's record: from the state it leaves, every
    [routetx] and every [transaction_recieved] message for this transaction
    id blocks as well and changes nothing, so no start or end is recorded
    for the transaction any more and no line is written for it. *)
Theorem X15_find_node_blocks_its_transaction st now tuple :
  reachable toByte32 bytes32ToString rangeOrder st →
  (32 ≤ length (B tuple))%nat →
  ∃ st',
    handle now (mkMsg "find_node" (PByteArrayAndTimestamp tuple)) st
      = Halted HaltBlocked st' ∧
    ∀ now' bat, toByte32 (B bat) = toByte32 (take 32 (B tuple)) →
      handle now' (mkMsg "routetx" (PByteArrayAndTimestamp bat)) st'
        = Halted HaltBlocked st' ∧
      handle now' (mkMsg "transaction_recieved" (PByteArrayAndTimestamp bat)) st'
        = Halted HaltBlocked st'.
Proof.
  intros Hreach%reachable_hop_maps_nil Hlen.
  set (ID := toByte32 (take 32 (B tuple))).
  set (r := default newRoute (rMap st !! ID)).
  set (locked := mkRoute (rt_start r) (rt_end r) None true).
  exists (set_rMap (<[ID := locked]> (rMap st)) st).
  split; [by apply find_node_eval|].
  intros now' bat Hbat.
  destruct (locked_record_blocks (set_rMap (<[ID := locked]> (rMap st)) st) ID locked now')
    as [Hblocked _]; [apply lookup_insert_eq|done|].
  by apply Hblocked.
Qed.

(** X16: no [find_node] message is ever handled to the end.  In every state
    the debug/stats loop can reach, and for every payload, the handler of a
    [find_node] message does not return: it is fatal, it panics or it
    blocks. *)
Theorem X16_find_node_never_completes st now msg st' :
  reachable toByte32 bytes32ToString rangeOrder st →
  Typ msg = "find_node"%string → handle now msg st ≠ Done tt st'.
Proof.
  intros Hreach%reachable_hop_maps_nil. destruct msg as [typ p]. cbn. intros ->.
  unfold coordinatorDebugStatsHandleConnection. cbn.
  destruct p as [| | | |bat|]; cbn; try done.
  unfold mbind, mret, Act_bind, Act_ret, notOkErr. cbn.
  destruct (slice (B bat) 0 32 st) as [b1 s1|] eqn:H1; [|done].
  apply slice_state in H1 as ->.
  destruct (slice (B bat) 32 _ st) as [b2 s2|] eqn:H2; [|done].
  apply slice_state in H2 as ->.
  unfold markHop. rewrite route_op_eval, routetxresults_add_eval.
  destruct (rt_mux _); [done|].
  assert (rt_committees (default newRoute (rMap st !! toByte32 b1)) = None) as ->; [|done].
  destruct (rMap st !! toByte32 b1) as [r|] eqn:E; cbn; [by eapply Hreach|done].
Qed.

(** X25: the routing file never gets a hop column.  For every record of a
    state the debug/stats loop can reach, the line the handler builds for
    it holds the start (or 0) and the end only. *)
Theorem X25_route_lines_have_no_hops st ID r :
  reachable toByte32 bytes32ToString rangeOrder st →
  rMap st !! ID = Some r →
  route_line bytes32ToString rangeOrder r
  = ((if IsZero (rt_start r) then "0" else FormatInt (Unix (rt_start r)))
     +:+ "," +:+ FormatInt (Unix (rt_end r)))%string.
Proof.
  intros Hreach%reachable_hop_maps_nil Hr. unfold route_line.
  rewrite (Hreach ID r Hr). cbn [fold_left]. by rewrite string_app_assoc.
Qed.

(** *** One line per transaction and per IDA gossip *)

Lemma transaction_recieved_fresh now bat st written :
  rMap st !! toByte32 (B bat) = None → files st !! 3%nat = Some written →
  handle now (mkMsg "transaction_recieved" (PByteArrayAndTimestamp bat)) st
  = Done tt
      (mkCoord
         (<[3%nat := (written +:+ prepareResultString now
                        (route_line bytes32ToString rangeOrder
                           (mkRoute 0 (T bat) None false)))%string]> (files st))
         (finalBlockChan st)
         (<[toByte32 (B bat) := mkRoute 0 (T bat) None false]> (rMap st))
         (idaresults st)).
Proof.
  intros Hr Hw. unfold coordinatorDebugStatsHandleConnection. cbn. run.
  unfold markEnd. rewrite route_op_eval, addEnd_eval, Hr. cbn.
  unfold on_route. cbn. rewrite lookup_insert_eq. cbn. rewrite insert_insert_eq.
  unfold writeStringToFile. run. cbn. rewrite Hw. reflexivity.
Qed.

Lemma reconstructed_fresh now bat st written :
  idaresults st !! toByte32 (B bat) = None → files st !! 4%nat = Some written →
  handle now (mkMsg "reconstructed_ida_gossip" (PByteArrayAndTimestamp bat)) st
  = Done tt
      (mkCoord
         (<[4%nat := (written +:+ prepareResultString now
                        (ida_line (mkIDA 0 [T bat] false)))%string]> (files st))
         (finalBlockChan st)
         (rMap st)
         (<[toByte32 (B bat) := mkIDA 0 [T bat] false]> (idaresults st))).
Proof.
  intros Hr Hw. unfold coordinatorDebugStatsHandleConnection. cbn. run.
  unfold appendReconstructed. rewrite ida_op_eval, addReconstructed_eval, Hr. cbn.
  unfold on_ida. cbn. rewrite lookup_insert_eq. cbn. rewrite insert_insert_eq.
  unfold writeStringToFile. run. cbn. rewrite Hw. reflexivity.
Qed.

(** After a handled [transaction_recieved] message the record of its id has
    its end set and its mutex free. *)
Lemma transaction_recieved_Done now bat st st1 :
  T bat ≠ 0 →
  handle now (mkMsg "transaction_recieved" (PByteArrayAndTimestamp bat)) st = Done tt st1 →
  ∃ r, rMap st1 !! toByte32 (B bat) = Some r ∧ IsZero (rt_end r) = false ∧ rt_mux r = false.
Proof.
  intros HT. unfold coordinatorDebugStatsHandleConnection. cbn. run.
  set (ID := toByte32 (B bat)).
  unfold markEnd. rewrite route_op_eval, addEnd_eval.
  set (r := default newRoute (rMap st !! ID)).
  destruct (rt_mux r); [done|].
  destruct (IsZero (rt_end r)) eqn:Hend.
  - unfold on_route. cbn. rewrite lookup_insert_eq. cbn. rewrite insert_insert_eq.
    intros Hw. apply writeStringToFile_Done in Hw as [-> _]. cbn.
    rewrite lookup_insert_eq. eexists. split; [done|]. cbn. split; [|done].
    unfold IsZero. by apply Z.eqb_neq.
  - intros [= <-]. cbn. rewrite lookup_insert_eq. eexists. split; [done|]. by cbn.
Qed.

(** A route operation that keeps the end of every record keeps the end
    stored for [ID]. *)
Lemma route_op_keeps_end {A} (op : Act routetxresults A) ID ID' e :
  (∀ r, rt_end r = e → rt_end (run_state (op r)) = e) →
  preserves (fun s : Coord FinalBlock => end_of s ID = Some e)
    (_ ← routetxmap_add ID'; r ← routetxmap_get ID'; on_route r op).
Proof.
  intros Hop st Hst. rewrite route_op_state. unfold end_of in *. cbn [rMap set_rMap].
  destruct (decide (ID' = ID)) as [->|Hne].
  - rewrite lookup_insert_eq. cbn. f_equal. apply Hop.
    destruct (rMap st !! ID) as [r|]; cbn in *; [congruence|discriminate].
  - by rewrite lookup_insert_ne.
Qed.

Lemma handler_keeps_end ID e now msg :
  IsZero e = false →
  preserves (fun s : Coord FinalBlock => end_of s ID = Some e) (handle now msg).
Proof.
  intros He. apply handler_preserves.
  - intros _ st b Hst. exact Hst.
  - intros now' s k _ st Hst. rewrite writeStringToFile_state.
    by destruct (files st !! k).
  - intros _ ID' t. apply route_op_keeps_end. intros r Hr. rewrite addStart_eval.
    destruct (rt_mux r); [done|]. by destruct (IsZero (rt_start r)).
  - intros _ ID' c t. apply route_op_keeps_end. intros r Hr.
    rewrite routetxresults_add_eval. destruct (rt_mux r); [done|].
    destruct (rt_committees r); [|done]. by destruct (bool_decide _).
  - intros _ ID' t. apply route_op_keeps_end. intros r Hr. rewrite addEnd_eval.
    destruct (rt_mux r); [done|]. by rewrite Hr, He.
  - intros _ ID' st Hst. rewrite on_route_state.
    destruct (rMap st !! ID') as [r|] eqn:E; [|done]. cbn.
    by rewrite set_rMap_id.
  - intros _ ID' t st Hst. unfold ida_markStart. by rewrite ida_op_state.
  - intros _ ID' t st Hst. unfold appendReconstructed. by rewrite ida_op_state.
  - intros _ ID' st Hst. rewrite on_ida_state. by destruct (idaresults st !! ID').
Qed.

Lemma follows_keeps_end ID e st1 st2 :
  IsZero e = false →
  follows toByte32 bytes32ToString rangeOrder st1 st2 →
  end_of st1 ID = Some e → end_of st2 ID = Some e.
Proof.
  intros He Hf H1.
  induction Hf as [|sa sb now msg _ IH Hrun|sa sb now msg _ IH Hrun]; [done|..].
  - pose proof (handler_keeps_end ID e now msg He sa IH) as H. by rewrite Hrun in H.
  - pose proof (handler_keeps_end ID e now msg He sa IH) as H. by rewrite Hrun in H.
Qed.

(** X18: a recorded end is final.  Once a [transaction_recieved] message
    with a non-zero timestamp has been handled, then, whatever messages are
    handled or block afterwards, the end recorded for its transaction id
    stays as it is, and a later [transaction_recieved] message for the same
    id has no effect at all: its handler returns, or blocks on the record's
    mutex, and leaves the state, hence every result file, unchanged. *)
Theorem X18_transaction_recieved_flushes_once now1 now2 bat1 bat2 st st1 st2 :
  toByte32 (B bat2) = toByte32 (B bat1) →
  T bat1 ≠ 0 →
  coordinatorDebugStatsHandleConnection toByte32 bytes32ToString rangeOrder now1
    (mkMsg "transaction_recieved" (PByteArrayAndTimestamp bat1)) st = Done tt st1 →
  follows toByte32 bytes32ToString rangeOrder st1 st2 →
  end_of st2 (toByte32 (B bat1)) = end_of st1 (toByte32 (B bat1)) ∧
  (handle now2 (mkMsg "transaction_recieved" (PByteArrayAndTimestamp bat2)) st2
     = Done tt st2 ∨
   handle now2 (mkMsg "transaction_recieved" (PByteArrayAndTimestamp bat2)) st2
     = Halted HaltBlocked st2).
Proof.
  intros Hid HT H1 Hf.
  apply transaction_recieved_Done in H1 as (r1 & Hr1 & Hend & _); [|done].
  assert (He1 : end_of st1 (toByte32 (B bat1)) = Some (rt_end r1))
    by (unfold end_of; by rewrite Hr1).
  pose proof (follows_keeps_end _ _ _ _ Hend Hf He1) as He2.
  split; [by rewrite He1, He2|].
  unfold end_of in He2.
  destruct (rMap st2 !! toByte32 (B bat1)) as [r|] eqn:Hr; [|discriminate].
  cbn in He2. injection He2 as He2.
  unfold coordinatorDebugStatsHandleConnection. cbn. run. rewrite Hid.
  unfold markEnd. rewrite route_op_eval, addEnd_eval, Hr.
  change (default newRoute (Some r)) with r.
  destruct (rt_mux r) eqn:Hmux.
  - right. by rewrite set_rMap_id.
  - left. rewrite He2, Hend.
    replace (mkRoute (rt_start r) (rt_end r1) (rt_committees r) false) with r
      by (destruct r; cbn in *; by subst).
    by rewrite set_rMap_id.
Qed.

(** After a handled [reconstructed_ida_gossip] message the record of its id
    holds a timestamp and its mutex is free. *)
Lemma reconstructed_Done now bat st st1 :
  handle now (mkMsg "reconstructed_ida_gossip" (PByteArrayAndTimestamp bat)) st = Done tt st1 →
  ∃ r, idaresults st1 !! toByte32 (B bat) = Some r ∧
       ida_reconstructed r ≠ [] ∧ ida_mux r = false.
Proof.
  unfold coordinatorDebugStatsHandleConnection. cbn. run.
  set (ID := toByte32 (B bat)).
  unfold appendReconstructed. rewrite ida_op_eval, addReconstructed_eval.
  set (r := default newIDA (idaresults st !! ID)).
  destruct (ida_mux r); [done|].
  destruct (length (ida_reconstructed r) =? 0)%nat eqn:Hlen.
  - unfold on_ida. cbn. rewrite lookup_insert_eq. cbn. rewrite insert_insert_eq.
    intros Hw. apply writeStringToFile_Done in Hw as [_ ->]. cbn.
    rewrite lookup_insert_eq. eexists. split; [done|]. by cbn.
  - intros [= <-]. cbn. rewrite lookup_insert_eq. eexists. split; [done|]. cbn.
    split; [|done]. by destruct (ida_reconstructed r).
Qed.

Lemma ida_op_keeps_reconstructed {A} (op : Act IDAGossipResults A) ID ID' :
  (∀ r, ida_reconstructed r ≠ [] → ida_mux r = false →
        ida_reconstructed (run_state (op r)) ≠ [] ∧ ida_mux (run_state (op r)) = false) →
  preserves (@reconstructed_free FinalBlock ID)
    (_ ← IDAGossipResultsMap_add ID'; r ← IDAGossipResultsMap_get ID'; on_ida r op).
Proof.
  intros Hop st (r & Hr & Hne & Hmux). rewrite ida_op_state. unfold reconstructed_free.
  cbn [idaresults set_idaresults].
  destruct (decide (ID' = ID)) as [->|Hn].
  - rewrite lookup_insert_eq, Hr. eexists. split; [done|]. by apply Hop.
  - rewrite lookup_insert_ne by done. eauto.
Qed.

Lemma handler_keeps_reconstructed ID now msg :
  preserves (@reconstructed_free FinalBlock ID) (handle now msg).
Proof.
  assert (Hsame : ∀ s s' : Coord FinalBlock, idaresults s' = idaresults s →
            reconstructed_free ID s → reconstructed_free ID s').
  { intros s s' E. unfold reconstructed_free. by rewrite E. }
  apply handler_preserves.
  - intros _ st b. by apply Hsame.
  - intros now' s k _ st Hst. rewrite writeStringToFile_state.
    destruct (files st !! k); [|done]. revert Hst. by apply Hsame.
  - intros _ ID' t st. unfold markStart. rewrite route_op_state. by apply Hsame.
  - intros _ ID' c t st. unfold markHop. rewrite route_op_state. by apply Hsame.
  - intros _ ID' t st. unfold markEnd. rewrite route_op_state. by apply Hsame.
  - intros _ ID' st. rewrite on_route_state. destruct (rMap st !! ID'); [by apply Hsame|done].
  - intros _ ID' t. apply ida_op_keeps_reconstructed. intros r Hne Hmux. by cbn.
  - intros _ ID' t. apply ida_op_keeps_reconstructed. intros r Hne Hmux.
    rewrite addReconstructed_eval, Hmux.
    destruct (length (ida_reconstructed r) =? 0)%nat; cbn; [done|].
    split; [|done]. by destruct (ida_reconstructed r).
  - intros _ ID' st (r & Hr & Hne & Hmux). rewrite on_ida_state.
    destruct (idaresults st !! ID') as [r'|] eqn:E; [|by exists r].
    unfold reconstructed_free. cbn [idaresults set_idaresults].
    destruct (decide (ID' = ID)) as [->|Hn].
    + rewrite lookup_insert_eq. rewrite Hr in E. injection E as <-.
      unfold ida_lock, ida_unlock. run. rewrite Hmux. cbn. eauto.
    + rewrite lookup_insert_ne by done. eauto.
Qed.

Lemma follows_keeps_reconstructed ID st1 st2 :
  follows toByte32 bytes32ToString rangeOrder st1 st2 →
  reconstructed_free ID st1 → reconstructed_free ID st2.
Proof.
  intros Hf H1.
  induction Hf as [|sa sb now msg _ IH Hrun|sa sb now msg _ IH Hrun]; [done|..].
  - pose proof (handler_keeps_reconstructed ID now msg sa IH) as H. by rewrite Hrun in H.
  - pose proof (handler_keeps_reconstructed ID now msg sa IH) as H. by rewrite Hrun in H.
Qed.

(** X19: only the first reconstruction of an id is flushed.  Once a
    [reconstructed_ida_gossip] message has been handled, then, whatever
    messages are handled or block afterwards, the record of its id still
    holds a timestamp, and a later [reconstructed_ida_gossip] message for
    the same id returns after it has appended its timestamp to the record's
    list, behind the timestamps the list holds by then; it changes nothing
    else, so no line is written for it. *)
Theorem X19_reconstructed_flushes_once now1 now2 bat1 bat2 st st1 st2 :
  toByte32 (B bat2) = toByte32 (B bat1) →
  handle now1 (mkMsg "reconstructed_ida_gossip" (PByteArrayAndTimestamp bat1)) st
    = Done tt st1 →
  follows toByte32 bytes32ToString rangeOrder st1 st2 →
  ∃ r2,
    idaresults st2 !! toByte32 (B bat1) = Some r2 ∧
    ida_reconstructed r2 ≠ [] ∧
    handle now2 (mkMsg "reconstructed_ida_gossip" (PByteArrayAndTimestamp bat2)) st2
      = Done tt
          (set_idaresults
             (<[toByte32 (B bat1) :=
                  mkIDA (ida_start r2) (ida_reconstructed r2 ++ [T bat2]) false]>
                (idaresults st2))
             st2).
Proof.
  intros Hid H1 Hf.
  apply reconstructed_Done in H1.
  destruct (follows_keeps_reconstructed _ _ _ Hf H1) as (r & Hr & Hne & Hmux).
  exists r. split; [done|]. split; [done|].
  unfold coordinatorDebugStatsHandleConnection. cbn. run. rewrite Hid.
  unfold appendReconstructed. rewrite ida_op_eval, addReconstructed_eval, Hr.
  change (default newIDA (Some r)) with r. rewrite Hmux.
  destruct (ida_reconstructed r) as [|t0 ts] eqn:E; [done|]. reflexivity.
Qed.
(** A [start_ida_gossip] message assigns the start of its record. *)
Lemma start_ida_gossip_eval now bat st :
  let r := default newIDA (idaresults st !! toByte32 (B bat)) in
  handle now (mkMsg "start_ida_gossip" (PByteArrayAndTimestamp bat)) st
  = Done tt
      (set_idaresults
         (<[toByte32 (B bat) := mkIDA (T bat) (ida_reconstructed r) (ida_mux r)]>
            (idaresults st))
         st).
Proof.
  unfold coordinatorDebugStatsHandleConnection. cbn. run.
  by rewrite ida_markStart_eval.
Qed.

(** *** Rejected messages *)

(** X20: a message whose tag is not one of the eleven tags of the [switch]
    is fatal, whatever it carries, and the state is left as it was. *)
Theorem X20_unknown_tag_is_fatal now msg st :
  Typ msg ∉ known_tags →
  handle now msg st = Halted (HaltFatal "no known message type (coordinator)") st.
Proof.
  destruct msg as [typ p]. cbn [Typ]. intros Hn.
  unfold coordinatorDebugStatsHandleConnection. cbn [Typ Msg'].
  repeat match goal with
         | |- (if String.eqb typ ?b then _ else _) _ = _ =>
             destruct (String.eqb_spec typ b) as [->|?];
             [exfalso; apply Hn; unfold known_tags; set_solver|]
         end.
  reflexivity.
Qed.

(** X21: a message with a known tag whose payload has not the dynamic type
    its case asserts is fatal, and the state is left as it was: nothing is
    written, queued or recorded for it. *)
Theorem X21_wrong_payload_is_fatal now msg st :
  Typ msg ∈ known_tags → payload_accepted (Typ msg) (Msg' msg) = false →
  ∃ why, handle now msg st = Halted (HaltFatal why) st.
Proof.
  destruct msg as [typ p]. cbn [Typ Msg']. unfold known_tags. intros Hin Hp.
  repeat (apply elem_of_cons in Hin as [->|Hin]); [..|by apply elem_of_nil in Hin].
  all: destruct p; try discriminate Hp.
  all: eexists; reflexivity.
Qed.

(** *** What a message can change *)

(** X22: the result files are append-only and each tag has its own file.
    Whatever the message and however its handler ends, every result file
    afterwards starts with what it held before and the number of files is
    unchanged; a file other than the one of the message's tag (1 pocverify,
    2 pocadd, 3 transaction_recieved, 4 reconstructed_ida_gossip,
    5 consensus_accept_fail) is left as it was; and [files[0]] is never
    written by the handler. *)
Theorem X22_sinks_append_only now msg st :
  files_extend st (run_state (handle now msg st)) ∧
  (∀ k, sink_of (Typ msg) ≠ Some k →
     files (run_state (handle now msg st)) !! k = files st !! k) ∧
  files (run_state (handle now msg st)) !! 0%nat = files st !! 0%nat.
Proof.
  set (P := fun s : Coord FinalBlock =>
              files_extend st s ∧
              ∀ k, sink_of (Typ msg) ≠ Some k → files s !! k = files st !! k).
  assert (Hfiles : ∀ s s' : Coord FinalBlock, files s' = files s → P s → P s').
  { intros s s' E [[H1 H2] H3]. unfold P, files_extend. by rewrite E. }
  assert (HP : preserves P (handle now msg)).
  { apply handler_preserves.
    - intros _ s b. by apply Hfiles.
    - intros now' line k Hk s [[Hlen Hext] Hother]. rewrite writeStringToFile_state.
      destruct (files s !! k) as [written|] eqn:Hw; [|done].
      split; [split|]; cbn.
      + by rewrite length_insert.
      + intros k' w Hk'. destruct (Hext k' w Hk') as [suffix Hs].
        destruct (decide (k = k')) as [<-|Hne].
        * rewrite list_lookup_insert_eq by (by eapply lookup_lt_Some).
          exists (suffix +:+ prepareResultString now' line)%string.
          rewrite Hw in Hs. injection Hs as ->. by rewrite string_app_assoc.
        * rewrite list_lookup_insert_ne by done. eauto.
      + intros k' Hk'. rewrite list_lookup_insert_ne by congruence. by apply Hother.
    - intros _ ID t s. unfold markStart. rewrite route_op_state. by apply Hfiles.
    - intros _ ID c t s. unfold markHop. rewrite route_op_state. by apply Hfiles.
    - intros _ ID t s. unfold markEnd. rewrite route_op_state. by apply Hfiles.
    - intros _ ID s. rewrite on_route_state.
      destruct (rMap s !! ID); [by apply Hfiles|done].
    - intros _ ID t s. unfold ida_markStart. rewrite ida_op_state. by apply Hfiles.
    - intros _ ID t s. unfold appendReconstructed. rewrite ida_op_state. by apply Hfiles.
    - intros _ ID s. rewrite on_ida_state.
      destruct (idaresults s !! ID); [by apply Hfiles|done]. }
  destruct (HP st) as [H1 H2]; [split; [apply files_extend_refl|done]|].
  split; [done|]. split; [done|]. apply H2.
  unfold sink_of. repeat destruct (String.eqb _ _); discriminate.
Qed.

(** X23: each part of the shared state is changed by its own tags only.
    However the handler ends, the route-tx tracker is as before unless the
    tag is [routetx], [find_node] or [transaction_recieved]; the IDA-gossip
    tracker is as before unless the tag is [start_ida_gossip] or
    [reconstructed_ida_gossip]; and the queue of final blocks is as before
    unless the tag is [finalblock]. *)
Theorem X23_tags_touch_their_own_state now msg st :
  (Typ msg ∉ ["routetx"; "find_node"; "transaction_recieved"]%string →
     rMap (run_state (handle now msg st)) = rMap st) ∧
  (Typ msg ∉ ["start_ida_gossip"; "reconstructed_ida_gossip"]%string →
     idaresults (run_state (handle now msg st)) = idaresults st) ∧
  (Typ msg ≠ "finalblock"%string →
     finalBlockChan (run_state (handle now msg st)) = finalBlockChan st).
Proof.
  split; [|split]; intros Hn.
  - apply (handler_preserves (fun s => rMap s = rMap st) now msg); try done.
    + intros now' line k _ s Hs. rewrite writeStringToFile_state.
      by destruct (files s !! k).
    + intros E. exfalso. apply Hn. rewrite E. set_solver.
    + intros E. exfalso. apply Hn. rewrite E. set_solver.
    + intros E. exfalso. apply Hn. rewrite E. set_solver.
    + intros E. exfalso. apply Hn. rewrite E. set_solver.
    + intros _ ID t s Hs. unfold ida_markStart. by rewrite ida_op_state.
    + intros _ ID t s Hs. unfold appendReconstructed. by rewrite ida_op_state.
    + intros _ ID s Hs. rewrite on_ida_state. by destruct (idaresults s !! ID).
  - apply (handler_preserves (fun s => idaresults s = idaresults st) now msg); try done.
    + intros now' line k _ s Hs. rewrite writeStringToFile_state.
      by destruct (files s !! k).
    + intros _ ID t s Hs. unfold markStart. by rewrite route_op_state.
    + intros _ ID c t s Hs. unfold markHop. by rewrite route_op_state.
    + intros _ ID t s Hs. unfold markEnd. by rewrite route_op_state.
    + intros _ ID s Hs. rewrite on_route_state. by destruct (rMap s !! ID).
    + intros E. exfalso. apply Hn. rewrite E. set_solver.
    + intros E. exfalso. apply Hn. rewrite E. set_solver.
    + intros E. exfalso. apply Hn. rewrite E. set_solver.
  - apply (handler_preserves (fun s => finalBlockChan s = finalBlockChan st) now msg);
      try done.
    + intros now' line k _ s Hs. rewrite writeStringToFile_state.
      by destruct (files s !! k).
    + intros _ ID t s Hs. unfold markStart. by rewrite route_op_state.
    + intros _ ID c t s Hs. unfold markHop. by rewrite route_op_state.
    + intros _ ID t s Hs. unfold markEnd. by rewrite route_op_state.
    + intros _ ID s Hs. rewrite on_route_state. by destruct (rMap s !! ID).
    + intros _ ID t s Hs. unfold ida_markStart. by rewrite ida_op_state.
    + intros _ ID t s Hs. unfold appendReconstructed. by rewrite ida_op_state.
    + intros _ ID s Hs. rewrite on_ida_state. by destruct (idaresults s !! ID).
Qed.

(** X24: a [pocverify] ([pocadd]) message carrying a duration appends to
    [files[1]] ([files[2]]) the line made of the Unix time of the write, a
    comma, the duration in nanoseconds in decimal and a newline, and
    changes nothing else. *)
Theorem X24_poc_duration_line now tag d st k written :
  (tag = "pocverify"%string ∧ k = 1%nat) ∨ (tag = "pocadd"%string ∧ k = 2%nat) →
  files st !! k = Some written →
  handle now (mkMsg tag (PDuration d)) st
  = Done tt
      (set_files
         (<[k := written +:+ FormatInt (Unix now) +:+ "," +:+ FormatInt d +:+ newline]>
            (files st))
         st).
Proof.
  intros [[-> ->]|[-> ->]] Hw.
  all: unfold coordinatorDebugStatsHandleConnection, writeIntToFile, writeStringToFile.
  all: cbn; run; cbn; rewrite Hw; reflexivity.
Qed.

End TelemetryProperties.

(** *** The properties at sample messages *)

Lemma sample_ended_handled :
  coordinatorDebugStatsHandleConnection sample_toByte32 sample_bytes32ToString map_to_list 1
    (mkMsg "transaction_recieved" (PByteArrayAndTimestamp (mkBAT sample_id 5))) empty_coord
  = Done tt sample_ended.
Proof.
  exact (transaction_recieved_fresh sample_toByte32 sample_bytes32ToString map_to_list 1
           (mkBAT sample_id 5) empty_coord "" (lookup_empty _) eq_refl).
Qed.

Lemma sample_reconstructed_handled :
  coordinatorDebugStatsHandleConnection sample_toByte32 sample_bytes32ToString map_to_list 1
    (mkMsg "reconstructed_ida_gossip" (PByteArrayAndTimestamp (mkBAT sample_id 5)))
    empty_coord
  = Done tt sample_reconstructed.
Proof.
  exact (reconstructed_fresh sample_toByte32 sample_bytes32ToString map_to_list 1
           (mkBAT sample_id 5) empty_coord "" (lookup_empty _) eq_refl).
Qed.

Lemma X15_find_node_blocks_its_transaction_witness :
  reachable sample_toByte32 sample_bytes32ToString map_to_list empty_coord ∧
  (32 ≤ length (B (mkBAT (sample_payload 40) 5)))%nat ∧
  ∃ st',
    coordinatorDebugStatsHandleConnection sample_toByte32 sample_bytes32ToString map_to_list 1
      (mkMsg "find_node" (PByteArrayAndTimestamp (mkBAT (sample_payload 40) 5))) empty_coord
      = Halted HaltBlocked st' ∧
    ∀ now' bat,
      sample_toByte32 (B bat) = sample_toByte32 (take 32 (B (mkBAT (sample_payload 40) 5))) →
      coordinatorDebugStatsHandleConnection sample_toByte32 sample_bytes32ToString map_to_list
        now' (mkMsg "routetx" (PByteArrayAndTimestamp bat)) st'
        = Halted HaltBlocked st' ∧
      coordinatorDebugStatsHandleConnection sample_toByte32 sample_bytes32ToString map_to_list
        now' (mkMsg "transaction_recieved" (PByteArrayAndTimestamp bat)) st'
        = Halted HaltBlocked st'.
Proof.
  split; [apply reachable_start|]. split; [vm_compute; lia|].
  apply (X15_find_node_blocks_its_transaction sample_toByte32 sample_bytes32ToString
           map_to_list empty_coord 1 (mkBAT (sample_payload 40) 5));
    [apply reachable_start | vm_compute; lia].
Defined.

Lemma X16_find_node_never_completes_witness :
  reachable sample_toByte32 sample_bytes32ToString map_to_list empty_coord ∧
  Typ (@mkMsg unit "find_node"
         (PByteArrayAndTimestamp (mkBAT (sample_payload 40) 5)))
    = "find_node"%string ∧
  coordinatorDebugStatsHandleConnection sample_toByte32 sample_bytes32ToString map_to_list 1
    (mkMsg "find_node" (PByteArrayAndTimestamp (mkBAT (sample_payload 40) 5))) empty_coord
  ≠ Done tt empty_coord.
Proof.
  split; [apply reachable_start|]. split; [reflexivity|].
  apply (X16_find_node_never_completes sample_toByte32 sample_bytes32ToString map_to_list
           empty_coord 1
           (mkMsg "find_node" (PByteArrayAndTimestamp (mkBAT (sample_payload 40) 5)))
           empty_coord);
    [apply reachable_start | reflexivity].
Defined.

Lemma sample_ended_hop_maps_nil : hop_maps_nil sample_ended.
Proof.
  apply (reachable_hop_maps_nil sample_toByte32 sample_bytes32ToString map_to_list).
  exact (reachable_done _ _ _ empty_coord sample_ended 1 _
           (reachable_start _ _ _ _ _) sample_ended_handled).
Qed.

Lemma sample_stalled_follows :
  follows sample_toByte32 sample_bytes32ToString map_to_list sample_ended sample_stalled.
Proof.
  apply (follows_blocked _ _ _ sample_ended sample_ended sample_stalled 3
           (mkMsg "find_node" (PByteArrayAndTimestamp sample_hop)));
    [apply follows_here|].
  apply (find_node_eval sample_toByte32 sample_bytes32ToString map_to_list 3 sample_hop
           sample_ended sample_ended_hop_maps_nil).
  vm_compute. lia.
Qed.

Lemma X18_transaction_recieved_flushes_once_witness :
  sample_toByte32 (B (mkBAT sample_id 9)) = sample_toByte32 (B (mkBAT sample_id 5)) ∧
  T (mkBAT sample_id 5) ≠ 0 ∧
  coordinatorDebugStatsHandleConnection sample_toByte32 sample_bytes32ToString map_to_list 1
    (mkMsg "transaction_recieved" (PByteArrayAndTimestamp (mkBAT sample_id 5))) empty_coord
  = Done tt sample_ended ∧
  follows sample_toByte32 sample_bytes32ToString map_to_list sample_ended sample_stalled ∧
  end_of sample_stalled (sample_toByte32 (B (mkBAT sample_id 5)))
  = end_of sample_ended (sample_toByte32 (B (mkBAT sample_id 5))) ∧
  (coordinatorDebugStatsHandleConnection sample_toByte32 sample_bytes32ToString map_to_list 4
     (mkMsg "transaction_recieved" (PByteArrayAndTimestamp (mkBAT sample_id 9)))
     sample_stalled
   = Done tt sample_stalled ∨
   coordinatorDebugStatsHandleConnection sample_toByte32 sample_bytes32ToString map_to_list 4
     (mkMsg "transaction_recieved" (PByteArrayAndTimestamp (mkBAT sample_id 9)))
     sample_stalled
   = Halted HaltBlocked sample_stalled).
Proof.
  split; [reflexivity|]. split; [discriminate|]. split; [exact sample_ended_handled|].
  split; [exact sample_stalled_follows|].
  apply (X18_transaction_recieved_flushes_once sample_toByte32 sample_bytes32ToString
           map_to_list 1 4 (mkBAT sample_id 5) (mkBAT sample_id 9) empty_coord sample_ended
           sample_stalled);
    [reflexivity | discriminate | exact sample_ended_handled | exact sample_stalled_follows].
Defined.

Lemma sample_restarted_follows :
  follows sample_toByte32 sample_bytes32ToString map_to_list sample_reconstructed
    sample_restarted.
Proof.
  apply (follows_done _ _ _ sample_reconstructed sample_reconstructed sample_restarted 3
           (mkMsg "start_ida_gossip" (PByteArrayAndTimestamp (mkBAT sample_id 8))));
    [apply follows_here|].
  apply (start_ida_gossip_eval sample_toByte32 sample_bytes32ToString map_to_list 3
           (mkBAT sample_id 8) sample_reconstructed).
Qed.

Lemma X19_reconstructed_flushes_once_witness :
  sample_toByte32 (B (mkBAT sample_id 9)) = sample_toByte32 (B (mkBAT sample_id 5)) ∧
  coordinatorDebugStatsHandleConnection sample_toByte32 sample_bytes32ToString map_to_list 1
    (mkMsg "reconstructed_ida_gossip" (PByteArrayAndTimestamp (mkBAT sample_id 5)))
    empty_coord
  = Done tt sample_reconstructed ∧
  follows sample_toByte32 sample_bytes32ToString map_to_list sample_reconstructed
    sample_restarted ∧
  ∃ r2,
    idaresults sample_restarted !! sample_toByte32 (B (mkBAT sample_id 5)) = Some r2 ∧
    ida_reconstructed r2 ≠ [] ∧
    coordinatorDebugStatsHandleConnection sample_toByte32 sample_bytes32ToString map_to_list 4
      (mkMsg "reconstructed_ida_gossip" (PByteArrayAndTimestamp (mkBAT sample_id 9)))
      sample_restarted
    = Done tt
        (set_idaresults
           (<[sample_toByte32 (B (mkBAT sample_id 5)) :=
                mkIDA (ida_start r2) (ida_reconstructed r2 ++ [T (mkBAT sample_id 9)]) false]>
              (idaresults sample_restarted))
           sample_restarted).
Proof.
  split; [reflexivity|]. split; [exact sample_reconstructed_handled|].
  split; [exact sample_restarted_follows|].
  apply (X19_reconstructed_flushes_once sample_toByte32 sample_bytes32ToString map_to_list
           1 4 (mkBAT sample_id 5) (mkBAT sample_id 9) empty_coord sample_reconstructed
           sample_restarted);
    [reflexivity | exact sample_reconstructed_handled | exact sample_restarted_follows].
Defined.

Lemma X20_unknown_tag_is_fatal_witness :
  (Typ (@mkMsg unit "transaction_received" POther) ∉ known_tags) ∧
  coordinatorDebugStatsHandleConnection sample_toByte32 sample_bytes32ToString map_to_list 1
    (mkMsg "transaction_received" POther) empty_coord
  = Halted (HaltFatal "no known message type (coordinator)") empty_coord.
Proof.
  assert (H : Typ (@mkMsg unit "transaction_received" POther) ∉ known_tags).
  { cbn. unfold known_tags. intros H.
    repeat (apply elem_of_cons in H as [H|H]; [discriminate|]). by apply elem_of_nil in H. }
  split; [exact H|].
  apply (X20_unknown_tag_is_fatal sample_toByte32 sample_bytes32ToString map_to_list 1
           (mkMsg "transaction_received" POther) empty_coord). exact H.
Defined.

Lemma X21_wrong_payload_is_fatal_witness :
  Typ (@mkMsg unit "pocverify" (PString "1ms")) ∈ known_tags ∧
  payload_accepted (Typ (@mkMsg unit "pocverify" (PString "1ms")))
    (Msg' (@mkMsg unit "pocverify" (PString "1ms"))) = false ∧
  ∃ why,
    coordinatorDebugStatsHandleConnection sample_toByte32 sample_bytes32ToString map_to_list 1
      (mkMsg "pocverify" (PString "1ms")) empty_coord
    = Halted (HaltFatal why) empty_coord.
Proof.
  assert (H : Typ (@mkMsg unit "pocverify" (PString "1ms")) ∈ known_tags).
  { cbn. unfold known_tags. repeat constructor. }
  split; [exact H|]. split; [reflexivity|].
  apply (X21_wrong_payload_is_fatal sample_toByte32 sample_bytes32ToString map_to_list 1
           (mkMsg "pocverify" (PString "1ms")) empty_coord); [exact H | reflexivity].
Defined.

Lemma X24_poc_duration_line_witness :
  (("pocverify"%string = "pocverify"%string ∧ 1%nat = 1%nat)
   ∨ ("pocverify"%string = "pocadd"%string ∧ 1%nat = 2%nat)) ∧
  files empty_coord !! 1%nat = Some ""%string ∧
  coordinatorDebugStatsHandleConnection sample_toByte32 sample_bytes32ToString map_to_list 1
    (mkMsg "pocverify" (PDuration 1500)) empty_coord
  = Done tt
      (set_files
         (<[1%nat := ("" +:+ FormatInt (Unix 1) +:+ "," +:+ FormatInt 1500 +:+ newline)%string]>
            (files empty_coord))
         empty_coord).
Proof.
  split; [left; split; reflexivity|]. split; [reflexivity|].
  apply (X24_poc_duration_line sample_toByte32 sample_bytes32ToString map_to_list 1
           "pocverify" 1500 empty_coord 1%nat ""%string);
    [left; split; reflexivity | reflexivity].
Defined.

Lemma X25_route_lines_have_no_hops_witness :
  reachable sample_toByte32 sample_bytes32ToString map_to_list sample_ended ∧
  rMap sample_ended !! sample_toByte32 sample_id = Some (mkRoute 0 5 None false) ∧
  route_line sample_bytes32ToString map_to_list (mkRoute 0 5 None false)
  = ((if IsZero (rt_start (mkRoute 0 5 None false)) then "0"
      else FormatInt (Unix (rt_start (mkRoute 0 5 None false))))
     +:+ "," +:+ FormatInt (Unix (rt_end (mkRoute 0 5 None false))))%string.
Proof.
  assert (Hreach : reachable sample_toByte32 sample_bytes32ToString map_to_list sample_ended).
  { exact (reachable_done _ _ _ empty_coord sample_ended 1 _
             (reachable_start _ _ _ _ _) sample_ended_handled). }
  split; [exact Hreach|]. split; [apply lookup_insert_eq|].
  apply (X25_route_lines_have_no_hops sample_toByte32 sample_bytes32ToString map_to_list
           sample_ended (sample_toByte32 sample_id) (mkRoute 0 5 None false));
    [exact Hreach | apply lookup_insert_eq].
Defined.

(** ** When the bootstrap completes *)

Lemma verify_Ret_total flagArgs committees nodeInfos cis t :
  0 ≤ flag_n flagArgs → 0 ≤ flag_committeeF flagArgs →
  verify flagArgs committees nodeInfos = Ret (cis, t) →
  t = dishonest (take (Z.to_nat (flag_n flagArgs)) nodeInfos) ∧
  check_total flagArgs t = Ret tt.
Proof.
  intros Hn HF H. unfold verify, go_div, go_rem in H.
  destruct (Z.eqb_spec (flag_m flagArgs) 0); [discriminate|].
  cbn [mbind Outcome_bind] in H.
  destruct (recount _ _ _ _) as [cis'| | |] eqn:Hrec;
    cbn [mbind Outcome_bind] in H; try discriminate.
  destruct (check_loop _ _ _ _ _) as [t'| | |] eqn:Hchk;
    cbn [mbind Outcome_bind] in H; try discriminate.
  destruct (check_total flagArgs _) as [[]| | |] eqn:Htot;
    cbn [mbind Outcome_bind] in H; try discriminate.
  injection H as <- <-.
  apply check_loop_inv in Hchk as [-> _]; [|done].
  apply recount_conserves in Hrec as (_ & _ & Hf); [|done].
  split; [lia|done].
Qed.

Lemma honest_at_two_per_committee m i : 0 < m → 0 ≤ i < 2 * m → honest_at (2 * m) m i = true.
Proof.
  intros Hm Hi. unfold honest_at, block_size.
  rewrite Z.div_mul, Z.mod_mul by lia.
  destruct (Z.eqb_spec i (m * 2)); [lia|].
  unfold spec_adversary_count.
  pose proof (Z.mod_pos_bound i 2 ltac:(lia)).
  destruct (Z.even _).
  - change (2 / 2 - (if 2 mod 2 =? 0 then 1 else 0)) with 0.
    apply negb_true_iff, Z.ltb_ge. lia.
  - change (2 / 6 - (if 2 mod 6 =? 0 then 1 else 0)) with 0.
    apply negb_true_iff, Z.ltb_ge. lia.
Qed.

Lemma dishonest_imap_honest (f : nat → NodeAllInfo → NodeAllInfo) l :
  (∀ i nd, l !! i = Some nd → IsHonest (f i nd) = true) →
  dishonest (imap f l) = 0.
Proof.
  revert f. induction l as [|nd l IH]; intros f Hf; [done|].
  cbn [imap]. change (dishonest (?x :: ?l)) with ((if IsHonest x then 0 else 1) + dishonest l).
  rewrite (Hf 0%nat nd eq_refl), IH; [done|].
  intros i nd' Hi. apply (Hf (S i) nd' Hi).
Qed.

Lemma assign_and_verify_two_per_committee flagArgs committees l r :
  0 < flag_m flagArgs → flag_n flagArgs = 2 * flag_m flagArgs →
  0 ≤ flag_committeeF flagArgs →
  Z.of_nat (length committees) = flag_m flagArgs →
  Z.of_nat (length l) = flag_n flagArgs →
  assign_and_verify flagArgs committees l ≠ Ret r.
Proof.
  intros Hm Hn HF Hc Hl H. unfold assign_and_verify in H.
  assert (Hdiv : flag_n flagArgs / flag_m flagArgs = 2)
    by (rewrite Hn; apply Z.div_mul; lia).
  assert (Hmod : flag_n flagArgs mod flag_m flagArgs = 0)
    by (rewrite Hn; apply Z.mod_mul; lia).
  rewrite assign_spec in H by lia. cbn [mbind Outcome_bind] in H.
  destruct (verify _ _ _) as [[cis t]| | |] eqn:Hv;
    cbn [mbind Outcome_bind] in H; try discriminate.
  apply verify_Ret_total in Hv as [Ht Htot]; [|lia|done].
  rewrite take_ge in Ht by (rewrite length_imap; lia).
  rewrite dishonest_imap_honest in Ht.
  - subst t. unfold check_total, go_div in Htot.
    destruct (Z.eqb_spec (flag_m flagArgs) 0); [lia|]. cbn [mbind Outcome_bind] in Htot.
    rewrite Z.quot_div_nonneg, Hdiv in Htot by lia. cbn in Htot. discriminate.
  - intros i nd Hi. cbn. rewrite Hn. apply honest_at_two_per_committee; [done|].
    apply lookup_lt_Some in Hi. lia.
Qed.

Section BootstrapOutcome.
Variable Source : Type.
Variable seedSource : Z → Source.
Variables int31n Int63n Intn : Source → Z → Z * Source.
Variable maxId : Z.
Variable getBytes : Z → list Byte.byte.
Variable hash : list Byte.byte → Byte32.

Lemma draw_committees_length k : ∀ g g' cs,
  draw_committees Source Intn maxId getBytes hash k g = Ret (g', cs) → length cs = k.
Proof.
  induction k as [|k IH]; intros g g' cs H; cbn [draw_committees] in H.
  - by injection H as <- <-.
  - destruct (rand_Intn _ _ _ _) as [[v g1]| | |]; cbn [mbind Outcome_bind] in H; try discriminate.
    destruct (draw_committees _ _ _ _ _ k g1) as [[g2 cs']| | |] eqn:Hd;
      cbn [mbind Outcome_bind] in H; try discriminate.
    injection H as <- <-. cbn. f_equal. by eapply IH.
Qed.

(** X26: with exactly two nodes per committee the bootstrap never
    completes.  For every M >= 1 and N = 2M, whatever nodes registered,
    whatever the generator draws and whatever the tolerances are, the
    coordinator does not get through the verification pass: every node is
    flagged honest, so the total is 0 and [int(n)/checkTotalF] divides by
    zero, unless the pass has stopped before. *)
Theorem X26_two_per_committee_never_completes g now registered flagArgs r :
  0 < flag_m flagArgs → flag_n flagArgs = 2 * flag_m flagArgs →
  0 ≤ flag_committeeF flagArgs →
  coordinator Source seedSource int31n Int63n Intn maxId getBytes hash
    g now registered flagArgs ≠ Ret r.
Proof.
  intros Hm Hn HF H. unfold coordinator in H.
  pose proof (fill_spec registered [] (Z.to_nat (flag_n flagArgs))) as Hfill.
  cbn [length app] in Hfill. change (Z.of_nat 0) with 0 in Hfill.
  rewrite Hfill in H. clear Hfill.
  destruct (decide _) as [Hlen|]; cbn [mbind Outcome_bind] in H; [|discriminate].
  destruct (Shuffle _ _ _ _ _) as [[g1 l1]| | |] eqn:Hsh;
    cbn [mbind Outcome_bind] in H; try discriminate.
  destruct (draw_committees _ _ _ _ _ _ _) as [[g2 cs]| | |] eqn:Hd;
    cbn [mbind Outcome_bind] in H; try discriminate.
  apply Shuffle_loop_Ret_perm, Permutation_length in Hsh.
  rewrite length_app, length_fmap, length_replicate in Hsh.
  apply draw_committees_length in Hd.
  revert H. apply assign_and_verify_two_per_committee; try done; lia.
Qed.
End BootstrapOutcome.

Lemma spec_adversary_count_bounds npm k :
  1 ≤ npm → 0 ≤ spec_adversary_count npm k ∧ 2 * spec_adversary_count npm k < npm.
Proof.
  intros H. unfold spec_adversary_count.
  destruct (Z.even k); cbn zeta.
  - destruct (Z.eqb_spec (npm mod 2) 0); Z.div_mod_to_equations; lia.
  - destruct (Z.eqb_spec (npm mod 6) 0); Z.div_mod_to_equations; lia.
Qed.

Section Exact.
Variables (m npm : Z) (committees : list Byte32) (l : list NodeAllInfo).
Hypothesis Hm : 0 < m.
Hypothesis Hnpm : 1 ≤ npm.
Hypothesis Hcommittees : Z.of_nat (length committees) = m.
Hypothesis Hdistinct : NoDup committees.
Hypothesis Hl : Z.of_nat (length l) = m * npm.

Let n := m * npm.
Let L := imap (assigned n m committees) l.

Lemma exact_div : n / m = npm.
Proof. unfold n. rewrite Z.mul_comm. apply Z.div_mul. lia. Qed.

Lemma exact_mod : n mod m = 0.
Proof. unfold n. rewrite Z.mul_comm. apply Z.mod_mul. lia. Qed.

Lemma assigned_lookup j :
  0 ≤ j < n →
  ∃ nd cid,
    committees !! Z.to_nat (j / npm) = Some cid ∧
    L !! Z.to_nat j
    = Some (mkNode (Pub nd) (IP nd) cid
              (negb (j mod npm <? spec_adversary_count npm (j / npm)))).
Proof.
  intros Hj.
  destruct (lookup_lt_is_Some_2 l (Z.to_nat j)) as [nd Hnd]; [lia|].
  assert (Hk : 0 ≤ j / npm < m).
  { split; [apply Z.div_pos; lia|]. apply Z.div_lt_upper_bound; unfold n in Hj; lia. }
  destruct (lookup_lt_is_Some_2 committees (Z.to_nat (j / npm))) as [cid Hcid]; [lia|].
  exists nd, cid. split; [done|].
  unfold L. rewrite list_lookup_imap, Hnd. cbn. unfold assigned. f_equal.
  rewrite Z2Nat.id by lia.
  unfold honest_at, block_size, committee_index. rewrite exact_div, exact_mod.
  fold n. destruct (Z.eqb_spec j n); [lia|].
  destruct (Z.leb_spec n j); [lia|]. rewrite Z.sub_0_r, Hcid. done.
Qed.

Lemma recount_body_exact j :
  0 ≤ j < n →
  recount_body L j
    (default [] (committees !! Z.to_nat (recount_cursor npm j)), recount_cursor npm j,
     recount_after npm committees j)
  = Ret (default [] (committees !! Z.to_nat (recount_cursor npm (j + 1))),
         recount_cursor npm (j + 1), recount_after npm committees (j + 1)).
Proof.
  intros Hj. destruct (assigned_lookup j Hj) as (nd & cid & Hcid & Hnode).
  assert (Hjk : j = j / npm * npm + j mod npm) by (Z.div_mod_to_equations; nia).
  assert (Hp : 0 ≤ j mod npm < npm) by (apply Z.mod_pos_bound; lia).
  assert (Hk : 0 ≤ j / npm < m).
  { split; [apply Z.div_pos; lia|]. apply Z.div_lt_upper_bound; unfold n in Hj; lia. }
  remember (j / npm) as k eqn:Ek in *. remember (j mod npm) as p eqn:Ep in *.
  assert (Hnext : recount_cursor npm (j + 1) = k).
  { unfold recount_cursor. destruct (Z.eqb_spec (j + 1) 0); [lia|].
    by replace (j + 1 - 1) with j by lia. }
  unfold recount_body. rewrite (index_Some _ _ _ (proj1 Hj) Hnode).
  cbn [mbind Outcome_bind CommitteeID IsHonest].
  (* the cursor after the test *)
  assert (Hcur :
    (if decide (cid ≠ default [] (committees !! Z.to_nat (recount_cursor npm j)))
     then (cid, recount_cursor npm j + 1)
     else (default [] (committees !! Z.to_nat (recount_cursor npm j)), recount_cursor npm j))
    = (cid, k)).
  { unfold recount_cursor. destruct (Z.eqb_spec j 0) as [->|Hj0].
    - assert (k = 0) as Hk0 by (by rewrite Ek). rewrite Hk0 in Hcid.
      change (Z.to_nat 0) with 0%nat in *. rewrite Hcid. cbn.
      rewrite decide_False by (by intros []). by rewrite Hk0.
    - destruct (Z.eq_dec p 0) as [Hp0|Hp0].
      + assert (Hprev : (j - 1) / npm = k - 1).
        { symmetry. apply (Z.div_unique (j - 1) npm (k - 1) (npm - 1)); lia. }
        rewrite Hprev.
        assert (1 ≤ k) by nia.
        destruct (lookup_lt_is_Some_2 committees (Z.to_nat (k - 1))) as [cid' Hcid'];
          [lia|].
        rewrite Hcid'. cbn. rewrite decide_True; [f_equal; lia|].
        intros ->. pose proof (NoDup_lookup _ _ _ _ Hdistinct Hcid Hcid'). lia.
      + assert (Hprev : (j - 1) / npm = k).
        { symmetry. apply (Z.div_unique (j - 1) npm k (p - 1)); lia. }
        rewrite Hprev, Hcid. cbn. by rewrite decide_False by (by intros []). }
  rewrite Hcur.
  (* the record of committee [k] before this iteration *)
  pose proof (spec_adversary_count_bounds npm k Hnpm) as [Hf0 _].
  assert (Hq : counted npm j k = p) by (unfold counted; nia).
  assert (Hold : recount_after npm committees j !! Z.to_nat k
                 = Some (if p =? 0 then zeroCommitteeInfo
                         else mkCommitteeInfo cid p (Z.min p (spec_adversary_count npm k)))).
  { unfold recount_after. rewrite list_lookup_imap, Hcid. cbn.
    rewrite Z2Nat.id by lia. by rewrite Hq. }
  rewrite (index_Some _ _ _ (proj1 Hk) Hold). cbn [mbind Outcome_bind].
  rewrite store_in_range
    by (unfold recount_after; rewrite length_imap; lia).
  cbn [mbind Outcome_bind]. rewrite Hnext, Hcid. cbn [default from_option id].
  f_equal. f_equal.
  apply list_eq. intros i.
  destruct (decide (i = Z.to_nat k)) as [->|Hne].
  - rewrite list_lookup_insert_eq by (unfold recount_after; rewrite length_imap; lia).
    unfold recount_after. rewrite list_lookup_imap, Hcid. cbn. rewrite Z2Nat.id by lia.
    assert (counted npm (j + 1) k = p + 1) as -> by (unfold counted; nia).
    destruct (Z.eqb_spec (p + 1) 0); [lia|]. f_equal.
    rewrite negb_involutive.
    destruct (Z.eqb_spec p 0) as [Hp0|?]; unfold zeroCommitteeInfo; cbn [ci_npm ci_f];
      destruct (Z.ltb_spec p (spec_adversary_count npm k));
      cbn [negb]; f_equal; lia.
  - rewrite list_lookup_insert_ne by done.
    unfold recount_after. rewrite !list_lookup_imap.
    destruct (committees !! i) as [cid'|] eqn:Hi; [|done]. cbn.
    assert (counted npm (j + 1) (Z.of_nat i) = counted npm j (Z.of_nat i)) as ->; [|done].
    unfold counted. assert (Z.of_nat i ≠ k) by lia.
    destruct (Z.lt_ge_cases (Z.of_nat i) k); nia.
Qed.

Lemma recount_loop_exact steps : ∀ j,
  0 ≤ j → j + Z.of_nat steps ≤ n →
  recount_loop L steps j
    (default [] (committees !! Z.to_nat (recount_cursor npm j)), recount_cursor npm j,
     recount_after npm committees j)
  = Ret (default [] (committees !! Z.to_nat (recount_cursor npm (j + Z.of_nat steps))),
         recount_cursor npm (j + Z.of_nat steps),
         recount_after npm committees (j + Z.of_nat steps)).
Proof.
  induction steps as [|steps IH]; intros j Hj Hle.
  - cbn [recount_loop]. by rewrite Z.add_0_r.
  - cbn [recount_loop]. rewrite recount_body_exact by lia. cbn [mbind Outcome_bind].
    replace (j + Z.of_nat (S steps)) with (j + 1 + Z.of_nat steps) by lia.
    apply IH; lia.
Qed.

Lemma recount_after_start :
  recount_after npm committees 0 = replicate (Z.to_nat m) zeroCommitteeInfo.
Proof.
  apply list_eq. intros i. unfold recount_after. rewrite list_lookup_imap.
  destruct (committees !! i) as [cid|] eqn:Hi.
  - cbn. apply lookup_lt_Some in Hi as Hlt.
    assert (counted npm 0 (Z.of_nat i) = 0) as -> by (unfold counted; nia).
    cbn. symmetry. apply lookup_replicate. split; [done|lia].
  - cbn. symmetry. apply lookup_ge_None. rewrite length_replicate.
    apply lookup_ge_None in Hi. lia.
Qed.

Lemma recount_after_end : recount_after npm committees n = expected_recount npm committees.
Proof.
  apply list_eq. intros i. unfold recount_after, expected_recount.
  rewrite !list_lookup_imap.
  destruct (committees !! i) as [cid|] eqn:Hi; [|done]. cbn.
  apply lookup_lt_Some in Hi as Hlt.
  pose proof (spec_adversary_count_bounds npm (Z.of_nat i) Hnpm).
  assert (counted npm n (Z.of_nat i) = npm) as -> by (unfold counted, n; nia).
  destruct (Z.eqb_spec npm 0); [lia|]. do 2 f_equal. lia.
Qed.

Lemma recount_exact : recount n m committees L = Ret (expected_recount npm committees).
Proof.
  unfold recount.
  destruct (lookup_lt_is_Some_2 committees 0) as [c0 Hc0]; [lia|].
  rewrite (index_Some _ _ c0) by done. cbn [mbind Outcome_bind].
  pose proof (recount_loop_exact (Z.to_nat n) 0 ltac:(lia) ltac:(unfold n; nia)) as H.
  rewrite recount_after_start in H.
  change (recount_cursor npm 0) with 0 in H. change (Z.to_nat 0) with 0%nat in H.
  rewrite Hc0 in H. cbn [default from_option id] in H. rewrite H.
  cbn [mbind Outcome_bind snd]. rewrite Z.add_0_l, Z2Nat.id by (unfold n; nia).
  by rewrite recount_after_end.
Qed.

End Exact.

Lemma total_f_imap_bounds npm (g : nat → Byte32 → committeeInfo) cs :
  0 ≤ npm → (∀ k c, 0 ≤ ci_f (g k c) ≤ npm) →
  0 ≤ total_f (imap g cs) ≤ Z.of_nat (length cs) * npm.
Proof.
  intros Hnpm. revert g. induction cs as [|c cs IH]; intros g Hg; [cbn; lia|].
  cbn [imap length].
  change (total_f (?x :: ?l)) with (ci_f x + total_f l).
  specialize (IH (g ∘ S) (fun k c => Hg (S k) c)). specialize (Hg 0%nat c). nia.
Qed.

Lemma total_f_expected_bounds npm cs :
  1 ≤ npm →
  0 ≤ total_f (expected_recount npm cs) ≤ Z.of_nat (length cs) * npm ∧
  (3 ≤ npm → cs ≠ [] → 1 ≤ total_f (expected_recount npm cs)).
Proof.
  intros Hnpm.
  assert (Hb : ∀ (k : nat) (c : Byte32),
             0 ≤ ci_f (mkCommitteeInfo c npm (spec_adversary_count npm (Z.of_nat k))) ≤ npm).
  { intros k c. cbn. pose proof (spec_adversary_count_bounds npm (Z.of_nat k) Hnpm). lia. }
  split; [apply total_f_imap_bounds; [lia|done]|].
  intros H3 Hne. destruct cs as [|c cs]; [done|].
  unfold expected_recount. cbn [imap].
  change (total_f (?x :: ?l)) with (ci_f x + total_f l). cbn [ci_f].
  pose proof (total_f_imap_bounds npm
                ((fun k cid => mkCommitteeInfo cid npm (spec_adversary_count npm (Z.of_nat k)))
                 ∘ S) cs ltac:(lia) (fun k c => Hb (S k) c)) as [Hrest _].
  assert (1 ≤ spec_adversary_count npm (Z.of_nat 0)); [|lia].
  unfold spec_adversary_count. change (Z.even (Z.of_nat 0)) with true. cbn beta iota zeta.
  destruct (Z.eqb_spec (npm mod 2) 0); Z.div_mod_to_equations; lia.
Qed.

Lemma check_loop_expected npm rest F cis : ∀ t0,
  1 ≤ npm → 1 ≤ F ≤ 2 →
  Forall (fun ci => ci_npm ci = npm ∧ ∃ k, ci_f ci = spec_adversary_count npm k) cis →
  check_loop npm rest F cis t0 = Ret (t0 + total_f cis).
Proof.
  intros t0 Hnpm HF Hall. revert t0.
  induction Hall as [|ci cis [Hsize [k Hf]] _ IH]; intros t0; cbn [check_loop].
  - f_equal. cbn. lia.
  - rewrite Hsize, Z.eqb_refl. cbn [negb andb]. unfold ceil_quotient.
    destruct (Z.eqb_spec F 0); [lia|]. cbn [mbind Outcome_bind].
    pose proof (spec_adversary_count_bounds npm k Hnpm).
    destruct (Z.leb_spec ((npm + F - 1) / F) (ci_f ci)) as [Hle|_].
    + exfalso. rewrite Hf in Hle. assert (F = 1 ∨ F = 2) as [->| ->] by lia.
      * rewrite Z.div_1_r in Hle. lia.
      * Z.div_mod_to_equations. lia.
    + rewrite IH. change (total_f (ci :: cis)) with (ci_f ci + total_f cis). f_equal. lia.
Qed.

Lemma expected_recount_Forall npm cs :
  Forall (fun ci => ci_npm ci = npm ∧ ∃ k, ci_f ci = spec_adversary_count npm k)
    (expected_recount npm cs).
Proof.
  apply Forall_lookup. intros i ci. unfold expected_recount. rewrite list_lookup_imap.
  destruct (cs !! i); [|done]. cbn. intros [= <-]. cbn. eauto.
Qed.

(** X27: when M divides N the assignment is accepted.  For N = M * npm with
    npm = 1 or npm >= 3, pairwise distinct committee ids, a committee
    tolerance divisor of 1 or 2 and a total tolerance divisor of at least 1,
    the assignment and verification passes return: the recount finds, for
    every committee, its id, npm members and the adversary count of its
    index ([floor(npm/d)], less one when [d] divides npm, with d = 2 for an
    even and 6 for an odd index), both per-committee checks and the
    aggregate check pass, and the total reported is the sum of these
    counts. *)
Theorem X27_exact_division_completes flagArgs committees l npm :
  0 < flag_m flagArgs → 1 ≤ npm → npm ≠ 2 →
  flag_n flagArgs = flag_m flagArgs * npm →
  1 ≤ flag_committeeF flagArgs ≤ 2 → 1 ≤ flag_totalF flagArgs →
  Z.of_nat (length committees) = flag_m flagArgs → NoDup committees →
  Z.of_nat (length l) = flag_n flagArgs →
  assign_and_verify flagArgs committees l
  = Ret (imap (assigned (flag_n flagArgs) (flag_m flagArgs) committees) l,
         expected_recount npm committees,
         total_f (expected_recount npm committees)).
Proof.
  destruct flagArgs as [n m totalF committeeF]. cbn [flag_n flag_m flag_totalF flag_committeeF].
  intros Hm Hnpm Hnpm2 -> HF HT Hc Hnd Hl. unfold assign_and_verify.
  cbn [flag_n flag_m flag_totalF flag_committeeF].
  assert (Hdiv : m * npm / m = npm) by (rewrite Z.mul_comm; apply Z.div_mul; lia).
  assert (Hmod : (m * npm) mod m = 0) by (rewrite Z.mul_comm; apply Z.mod_mul; lia).
  assert (0 ≤ m * npm) by nia.
  assert (Hrest : (m * npm) mod m ≤ m * npm / m) by (rewrite Hdiv, Hmod; lia).
  rewrite (assign_spec (m * npm) m committees ltac:(nia) Hc l Hrest Hl).
  cbn [mbind Outcome_bind].
  unfold verify, go_div, go_rem. cbn [flag_n flag_m flag_totalF flag_committeeF].
  destruct (Z.eqb_spec m 0); [lia|]. cbn [mbind Outcome_bind].
  rewrite Z.quot_div_nonneg, Z.rem_mod_nonneg, Hdiv, Hmod by lia.
  rewrite (recount_exact m npm committees l) by (try done; lia).
  cbn [mbind Outcome_bind].
  rewrite check_loop_expected by (try done; apply expected_recount_Forall).
  cbn [mbind Outcome_bind]. rewrite Z.add_0_l.
  pose proof (total_f_expected_bounds npm committees Hnpm) as [Hb H1].
  set (t := total_f (expected_recount npm committees)) in *.
  assert (Hct : check_total (mkFlagArgs (m * npm) m totalF committeeF) t = Ret tt).
  { unfold check_total, go_div. cbn [flag_n flag_m flag_totalF flag_committeeF].
    destruct (Z.eqb_spec m 0); [lia|]. cbn [mbind Outcome_bind].
    rewrite Z.quot_div_nonneg, Hdiv by lia.
    destruct (Z.eqb_spec npm 1); [done|]. cbn [negb].
    assert (1 ≤ t).
    { apply H1; [lia|]. intros ->. cbn in Hc. lia. }
    destruct (Z.eqb_spec t 0); [lia|].
    cbn [mbind Outcome_bind].
    destruct (Z.eqb_spec totalF 0); [lia|]. cbn [mbind Outcome_bind].
    destruct (Z.ltb_spec (m * npm ÷ t) (1 ÷ totalF)) as [Hlt|]; [|done].
    exfalso. rewrite !Z.quot_div_nonneg in Hlt by lia.
    assert (1 / totalF ≤ 1) by (apply Z.div_le_upper_bound; lia).
    assert (1 ≤ m * npm / t) by (apply Z.div_le_lower_bound; nia).
    lia. }
  rewrite Hct. done.
Qed.

Lemma X26_two_per_committee_never_completes_witness :
  0 < flag_m (mkFlagArgs 4 2 3 2) ∧
  flag_n (mkFlagArgs 4 2 3 2) = 2 * flag_m (mkFlagArgs 4 2 3 2) ∧
  0 ≤ flag_committeeF (mkFlagArgs 4 2 3 2) ∧
  coordinator Z lcg_seed lcg_draw lcg_draw lcg_draw 65536 sample_getBytes sample_toByte32
    (lcg_seed 1337) 42 (sample_registered 4) (mkFlagArgs 4 2 3 2)
  ≠ Ret ([], [], 0).
Proof.
  split; [reflexivity|]. split; [reflexivity|]. split; [discriminate|].
  apply (X26_two_per_committee_never_completes Z lcg_seed lcg_draw lcg_draw lcg_draw 65536
           sample_getBytes sample_toByte32 (lcg_seed 1337) 42 (sample_registered 4)
           (mkFlagArgs 4 2 3 2) ([], [], 0));
    [reflexivity | reflexivity | discriminate].
Defined.

Lemma sample_committees_distinct : NoDup (sample_committees 3).
Proof. apply (bool_decide_unpack _). vm_compute. exact I. Qed.

Lemma X27_exact_division_completes_witness :
  0 < flag_m (mkFlagArgs 12 3 3 2) ∧ 1 ≤ 4 ∧ 4 ≠ 2 ∧
  flag_n (mkFlagArgs 12 3 3 2) = flag_m (mkFlagArgs 12 3 3 2) * 4 ∧
  1 ≤ flag_committeeF (mkFlagArgs 12 3 3 2) ≤ 2 ∧ 1 ≤ flag_totalF (mkFlagArgs 12 3 3 2) ∧
  Z.of_nat (length (sample_committees 3)) = flag_m (mkFlagArgs 12 3 3 2) ∧
  NoDup (sample_committees 3) ∧
  Z.of_nat (length (sample_nodes 12)) = flag_n (mkFlagArgs 12 3 3 2) ∧
  assign_and_verify (mkFlagArgs 12 3 3 2) (sample_committees 3) (sample_nodes 12)
  = Ret (imap (assigned (flag_n (mkFlagArgs 12 3 3 2)) (flag_m (mkFlagArgs 12 3 3 2))
                 (sample_committees 3)) (sample_nodes 12),
         expected_recount 4 (sample_committees 3),
         total_f (expected_recount 4 (sample_committees 3))).
Proof.
  split; [reflexivity|]. split; [lia|]. split; [lia|]. split; [reflexivity|].
  split; [cbn; lia|]. split; [cbn; lia|]. split; [reflexivity|].
  split; [exact sample_committees_distinct|]. split; [reflexivity|].
  apply (X27_exact_division_completes (mkFlagArgs 12 3 3 2) (sample_committees 3)
           (sample_nodes 12) 4);
    [reflexivity | lia | lia | reflexivity | cbn; lia | cbn; lia | reflexivity
    | exact sample_committees_distinct | reflexivity].
Defined.
